(** * Conciliador: the multi-pass matching engine of [mc.py]

    A shallow embedding of class [MatcheadorFacturas]: the name normalizer and
    the two family resolvers, the four matching passes, the parts of the
    ingestion, of the report and of the entry point that decide what is
    matched and what is reported, and the properties of the reconciliation
    they implement.

    Conventions of the embedding.
    - A Python [str] is the list of its code points ([pystr]).  The Unicode
      tables behind [str.upper], [unicodedata.normalize('NFKD', _)],
      [unicodedata.combining] and [str.isspace] are written out for Basic
      Latin, Latin-1 Supplement and the Combining Diacritical Marks; every
      other code point has no case mapping, no decomposition and combining
      class 0 here, and is no decimal digit.
    - A pandas timestamp is the integer count of nanoseconds since the epoch;
      [None] is [NaT].  A missing text cell is [None]; a missing amount is the
      float NaN.  Amounts are IEEE binary64 numbers, as in Python; a decimal
      literal stands for the nearest one; a sum adds from left to right.
    - A DataFrame is the list of its rows, in index order; [ventas_df] is
      indexed 0, 1, 2, ... as [read_excel] leaves it.  Sorting is stable.
    - An exception that leaves a pass is a [Raise]; the comparisons of pandas
      columns raise nothing on cells of these types. *)

From Stdlib Require Import ZArith NArith List Bool Floats Lia String Ascii.
From stdpp Require Import base gmap sets list.

Set Warnings "-inexact-float".

Local Open Scope Z_scope.

(** ** Python strings *)

(** A Python string, as the list of its code points. *)
Abbreviation pystr := (list N).

Fixpoint s2t (s : string) : pystr :=
  match s with
  | EmptyString => []
  | String a s' => N_of_ascii a :: s2t s'
  end.

Definition in_range (lo hi c : N) : bool := (N.leb lo c && N.leb c hi)%N.

(** [str.isspace] on one character (Py_UNICODE_ISSPACE), also the class [\s]
    of [re] on [str] patterns. *)
Definition is_space (c : N) : bool :=
  in_range 9 13 c || in_range 28 32 c || N.eqb c 133 || N.eqb c 160
  || N.eqb c 5760 || in_range 8192 8202 c || N.eqb c 8232 || N.eqb c 8233
  || N.eqb c 8239 || N.eqb c 8287 || N.eqb c 12288.

(** The character class [A-Z0-9]. *)
Definition is_AZ09 (c : N) : bool := in_range 65 90 c || in_range 48 57 c.

(** [str.upper] on one character: the result may be longer than one
    character (U+00DF gives "SS"). *)
Definition py_upper_cp (c : N) : pystr :=
  if in_range 97 122 c then [(c - 32)%N]
  else if N.eqb c 181 then [924%N]
  else if N.eqb c 223 then [83%N; 83%N]
  else if in_range 224 254 c && negb (N.eqb c 247) then [(c - 32)%N]
  else if N.eqb c 255 then [376%N]
  else [c].

(** [str.lower] on one character. *)
Definition py_lower_cp (c : N) : pystr :=
  if in_range 65 90 c then [(c + 32)%N]
  else if in_range 192 222 c && negb (N.eqb c 215) then [(c + 32)%N]
  else if N.eqb c 376 then [255%N]
  else [c].

Definition upper (s : pystr) : pystr := flat_map py_upper_cp s.
Definition lower (s : pystr) : pystr := flat_map py_lower_cp s.

Fixpoint lstrip (s : pystr) : pystr :=
  match s with
  | [] => []
  | c :: s' => if is_space c then lstrip s' else s
  end.

Definition rstrip (s : pystr) : pystr := rev (lstrip (rev s)).

(** [str.strip()] *)
Definition strip (s : pystr) : pystr := rstrip (lstrip s).

Definition cons_token (t : pystr) (ts : list pystr) : list pystr :=
  match t with [] => ts | _ => t :: ts end.

(** The split of [s] at whitespace, as the pair of the token that is still
    open at the front of [s] and the tokens closed behind it. *)
Fixpoint split_aux (s : pystr) : pystr * list pystr :=
  match s with
  | [] => ([], [])
  | c :: s' =>
      let '(t, ts) := split_aux s' in
      if is_space c then ([], cons_token t ts) else (c :: t, ts)
  end.

(** [str.split()] without arguments: the maximal runs of non-whitespace. *)
Definition split (s : pystr) : list pystr :=
  let '(t, ts) := split_aux s in cons_token t ts.

Fixpoint split_sep_aux (sep : N) (s : pystr) : pystr * list pystr :=
  match s with
  | [] => ([], [])
  | c :: s' =>
      let '(t, ts) := split_sep_aux sep s' in
      if N.eqb c sep then ([], t :: ts) else (c :: t, ts)
  end.

(** [s.split(sep)] for a one-character separator: empty pieces are kept. *)
Definition split_sep (sep : N) (s : pystr) : list pystr :=
  let '(t, ts) := split_sep_aux sep s in t :: ts.

(** [sep.join(parts)] *)
Fixpoint join (sep : pystr) (parts : list pystr) : pystr :=
  match parts with
  | [] => []
  | [p] => p
  | p :: ps => p ++ sep ++ join sep ps
  end.

Definition pystr_eqb (a b : pystr) : bool := bool_decide (a = b).

Fixpoint startswith (p s : pystr) : bool :=
  match p, s with
  | [], _ => true
  | _ :: _, [] => false
  | a :: p', b :: s' => N.eqb a b && startswith p' s'
  end.

(** [p in s] for strings: [p] occurs in [s] as a contiguous substring. *)
Fixpoint contains (p s : pystr) : bool :=
  startswith p s || match s with [] => false | _ :: s' => contains p s' end.

(** Lexicographic order by code point, the order of [str.__lt__]. *)
Fixpoint pystr_leb (a b : pystr) : bool :=
  match a, b with
  | [], _ => true
  | _ :: _, [] => false
  | x :: a', y :: b' => N.ltb x y || (N.eqb x y && pystr_leb a' b')
  end.

(** A stable sort ([list.sort], and pandas' stable [sort_values]). *)
Fixpoint insert_sorted {A} (leb : A → A → bool) (x : A) (l : list A) : list A :=
  match l with
  | [] => [x]
  | y :: l' => if leb x y then x :: l else y :: insert_sorted leb x l'
  end.

Definition sort_by {A} (leb : A → A → bool) (l : list A) : list A :=
  foldr (insert_sorted leb) [] l.

(** Removal of repeated values, the first occurrence kept ([unique()],
    iteration of a set built from a list). *)
Fixpoint nub {A} `{EqDecision A} (l : list A) : list A :=
  match l with
  | [] => []
  | x :: l' => x :: filter (λ y, y ≠ x) (nub l')
  end.

(** ** Unicode data used by the normalizer *)

(** Compatibility decompositions ([unicodedata.normalize('NFKD', _)]) of the
    characters of Latin-1 Supplement, and of U+0178, the upper case of
    U+00FF. *)
Definition nfkd_table : list (N * pystr) :=
  [ (160, [32]); (168, [32; 776]); (170, [97]); (175, [32; 772]);
    (178, [50]); (179, [51]); (180, [32; 769]); (181, [956]);
    (184, [32; 807]); (185, [49]); (186, [111]);
    (188, [49; 8260; 52]); (189, [49; 8260; 50]); (190, [51; 8260; 52]);
    (192, [65; 768]); (193, [65; 769]); (194, [65; 770]); (195, [65; 771]);
    (196, [65; 776]); (197, [65; 778]); (199, [67; 807]);
    (200, [69; 768]); (201, [69; 769]); (202, [69; 770]); (203, [69; 776]);
    (204, [73; 768]); (205, [73; 769]); (206, [73; 770]); (207, [73; 776]);
    (209, [78; 771]);
    (210, [79; 768]); (211, [79; 769]); (212, [79; 770]); (213, [79; 771]);
    (214, [79; 776]);
    (217, [85; 768]); (218, [85; 769]); (219, [85; 770]); (220, [85; 776]);
    (221, [89; 769]);
    (224, [97; 768]); (225, [97; 769]); (226, [97; 770]); (227, [97; 771]);
    (228, [97; 776]); (229, [97; 778]); (231, [99; 807]);
    (232, [101; 768]); (233, [101; 769]); (234, [101; 770]); (235, [101; 776]);
    (236, [105; 768]); (237, [105; 769]); (238, [105; 770]); (239, [105; 776]);
    (241, [110; 771]);
    (242, [111; 768]); (243, [111; 769]); (244, [111; 770]); (245, [111; 771]);
    (246, [111; 776]);
    (249, [117; 768]); (250, [117; 769]); (251, [117; 770]); (252, [117; 776]);
    (253, [121; 769]); (255, [121; 776]); (376, [89; 776]) ]%N.

Fixpoint assoc_N {A} (k : N) (l : list (N * A)) : option A :=
  match l with
  | [] => None
  | (k', v) :: l' => if N.eqb k k' then Some v else assoc_N k l'
  end.

Definition nfkd_cp (c : N) : pystr :=
  match assoc_N c nfkd_table with Some d => d | None => [c] end.

Definition unicodedata_normalize_NFKD (s : pystr) : pystr := flat_map nfkd_cp s.

(** [unicodedata.combining(ch) != 0]: the Combining Diacritical Marks, of
    which only U+034F has class 0. *)
Definition combining (c : N) : bool := in_range 768 879 c && negb (N.eqb c 847).

(** [re.sub(r'[^A-Z0-9\s]', ' ', s)] *)
Definition re_sub_non_alnum (s : pystr) : pystr :=
  map (λ ch, if is_AZ09 ch || is_space ch then ch else 32%N) s.

#[global] Arguments is_space : simpl never.
#[global] Arguments is_AZ09 : simpl never.
#[global] Arguments py_upper_cp : simpl never.
#[global] Arguments py_lower_cp : simpl never.
#[global] Arguments nfkd_cp : simpl never.
#[global] Arguments combining : simpl never.

(** ** The name normalizer *)

(** What the normalizer can be handed: a missing cell, a text, or (when it is
    applied to its own result) a frozenset, given by the order in which its
    elements are iterated. *)
Inductive pyobj :=
  | PyNaN
  | PyStr (s : pystr)
  | PyFrozenset (iter : list pystr).

Definition celda (c : option pystr) : pyobj :=
  match c with None => PyNaN | Some s => PyStr s end.

Definition repr_str (s : pystr) : pystr := [39%N] ++ s ++ [39%N].

(** [str(text)] *)
Definition py_str (o : pyobj) : pystr :=
  match o with
  | PyNaN => s2t "nan"
  | PyStr s => s
  | PyFrozenset [] => s2t "frozenset()"
  | PyFrozenset iter =>
      s2t "frozenset({" ++ join (s2t ", ") (map repr_str iter) ++ s2t "})"
  end.

(** [pd.isna(text) or text == ''] *)
Definition isna_or_empty (o : pyobj) : bool :=
  match o with
  | PyNaN => true
  | PyStr [] => true
  | _ => false
  end.

Definition normalize_tokens (text : pyobj) : list pystr :=
  let s := strip (upper (py_str text)) in
  let s := unicodedata_normalize_NFKD s in
  let s := filter (λ ch, negb (combining ch)) s in
  let s := re_sub_non_alnum s in
  filter (λ tok, tok ≠ []) (split s).

Definition _normalize_to_token_set (text : pyobj) : gset pystr :=
  if isna_or_empty text then ∅ else list_to_set (normalize_tokens text).

(** ** The household registry and the two family resolvers *)

(** One row of [familias_df]: the cell of column 'Código' and the cells of
    the other columns, in the order of [df_columns]. *)
Record Familia := mkFamilia {
  f_Codigo : pystr;
  f_celdas : list (option pystr)
}.

Record FamiliasDF := mkFamiliasDF {
  df_columns : list pystr;
  df_filas : list Familia
}.

(** [familia[col]]: the cell of the row under the column named [col]. *)
Fixpoint loc (cols : list pystr) (celdas : list (option pystr)) (col : pystr)
  : option pystr :=
  match cols, celdas with
  | c :: cols', x :: celdas' =>
      if pystr_eqb c col then x else loc cols' celdas' col
  | _, _ => None
  end.

Definition No_identificada : pystr := s2t "No identificada".
Definition No_encontrada : pystr := s2t "No encontrada".

Definition columnas_persona (fam : FamiliasDF) : list pystr :=
  sort_by pystr_leb
    (filter (λ col, contains (s2t "persona") (lower col)) (df_columns fam)).

(** The test of lines 330-332 on two token sets. *)
Definition tokens_coinciden (nombre_buscar_tokens valor_celda_tokens : gset pystr)
  : bool :=
  bool_decide (nombre_buscar_tokens = valor_celda_tokens)
  || bool_decide (nombre_buscar_tokens ⊆ valor_celda_tokens)
  || bool_decide (valor_celda_tokens ⊆ nombre_buscar_tokens).

(** The body of the inner loop for one cell: a missing cell and a cell with
    no token are passed over. *)
Definition celda_coincide (nombre_buscar_tokens : gset pystr) (x : option pystr)
  : bool :=
  match x with
  | None => false
  | Some s =>
      let valor_celda_tokens := _normalize_to_token_set (PyStr s) in
      if bool_decide (valor_celda_tokens = ∅) then false
      else tokens_coinciden nombre_buscar_tokens valor_celda_tokens
  end.

Definition fila_coincide (fam : FamiliasDF) (nombre_buscar_tokens : gset pystr)
    (familia : Familia) : bool :=
  existsb
    (λ col, celda_coincide nombre_buscar_tokens
              (loc (df_columns fam) (f_celdas familia) col))
    (columnas_persona fam).

Definition _obtener_familia_por_persona (fam : FamiliasDF)
    (nombre_persona : option pystr) : pystr :=
  if isna_or_empty (celda nombre_persona) then No_identificada
  else
    let nombre_buscar_tokens := _normalize_to_token_set (celda nombre_persona) in
    match List.find (fila_coincide fam nombre_buscar_tokens) (df_filas fam) with
    | Some familia => f_Codigo familia
    | None => No_encontrada
    end.

Definition columnas_Persona_ (fam : FamiliasDF) : list pystr :=
  filter (λ c, startswith (s2t "Persona_") c) (df_columns fam).

Definition fila_contiene (fam : FamiliasDF) (nombre_persona : pystr)
    (row : Familia) : bool :=
  existsb
    (λ col,
       match loc (df_columns fam) (f_celdas row) col with
       | None => false
       | Some x => contains (upper (strip nombre_persona)) (upper (strip x))
       end)
    (columnas_Persona_ fam).

(** [None] is Python's [None]. *)
Definition _validar_pertenencia_familia (fam : FamiliasDF)
    (nombre_persona : option pystr) : option pystr :=
  match nombre_persona with
  | None => None
  | Some [] => None
  | Some nombre =>
      match List.find (fila_contiene fam nombre) (df_filas fam) with
      | Some row => Some (f_Codigo row)
      | None => None
      end
  end.

(** Truth value of what [_validar_pertenencia_familia] returns. *)
Definition truthy (o : option pystr) : bool :=
  match o with
  | Some (_ :: _) => true
  | _ => false
  end.

(** ** The tables and the Match Records *)

(** A row of [ventas_df] after column normalization. *)
Record Venta := mkVenta {
  v_Fecha : option Z;
  v_Nombre_Cliente : option pystr;
  v_Monto : float;
  v_Factura : pystr;
  v_Numero_Caja : pystr
}.

(** A row of [banco_df] as ingestion leaves it (payer name present). *)
Record Operacion := mkOperacion {
  b_Fecha : option Z;
  b_Nombre : pystr;
  b_Monto : float
}.

Inductive tipo_match :=
  | EXACTO
  | MULTI_FACTURAS
  | Grupo_Familiar
  | MULTI_FACTURAS_FAMILIA_BANCO_PRIMERO.

(** A row of [self.resultados].  The columns that no pass reads back and that
    only copy a cell of the linked rows ('Detalle_Banco', 'Comprobante_Banco',
    'Concepto_Banco', 'Cliente_Factura', 'Fecha_Factura', 'Coincidencia',
    'Estado', 'Facturas_Agrupadas', 'Detalle_Match') are left out; a column
    that a pass does not write is [None]. *)
Record Match := mkMatch {
  r_Tipo_Match : tipo_match;
  r_Familia : option pystr;
  r_Grupo_Familiar : option pystr;
  r_Factura : pystr;
  r_Numero_Caja : option pystr;
  r_Fecha_Banco : option Z;
  r_Nombre_Banco : pystr;
  r_Monto_Banco : float;
  r_Monto_Factura : float;
  r_Cantidad_Facturas : option nat
}.

(** Exceptions that leave a pass. *)
Inductive exn := UnboundLocalError | AttributeError | KeyError.

Inductive result (A : Type) :=
  | Ok (a : A)
  | Raise (e : exn).
Arguments Ok {A} a.
Arguments Raise {A} e.

#[global] Instance result_bind : MBind result :=
  λ A B f m, match m with Ok a => f a | Raise e => Raise e end.

#[global] Instance result_fmap : FMap result :=
  λ A B f m, match m with Ok a => Ok (f a) | Raise e => Raise e end.

Fixpoint foldM {A B} (f : B → A → result B) (b : B) (l : list A) : result B :=
  match l with
  | [] => Ok b
  | x :: l' => b' ← f b x; foldM f b' l'
  end.

(** ** Identity keys of bank operations *)

Abbreviation op_key := (option Z * list N * float)%type.

(** [==] on key tuples: dates and names by value, amounts by IEEE equality.
    The date component is a timestamp (passes 2 and 4) or the text of one
    (pass 3). *)
Definition key_eqb {F} `{EqDecision F} (k1 k2 : F * pystr * float) : bool :=
  let '(f1, n1, m1) := k1 in
  let '(f2, n2, m2) := k2 in
  bool_decide (f1 = f2) && bool_decide (n1 = n2) && PrimFloat.eqb m1 m2.

(** [k in matched_ops] *)
Definition in_ops {F} `{EqDecision F} (k : F * pystr * float)
    (ops : list (F * pystr * float)) : bool :=
  existsb (key_eqb k) ops.

(** The key of passes 2 and 4: the payer name upper-cased and stripped. *)
Definition clave_banco (b : Operacion) : op_key :=
  (b_Fecha b, strip (upper (b_Nombre b)), b_Monto b).

Definition clave_resultado (r : Match) : op_key :=
  (r_Fecha_Banco r, strip (upper (r_Nombre_Banco r)), r_Monto_Banco r).

(** The cells that make the key of pass 3: the payer name as written. *)
Definition clave_cruda_banco (b : Operacion) : op_key :=
  (b_Fecha b, b_Nombre b, b_Monto b).

Definition clave_cruda_resultado (r : Match) : op_key :=
  (r_Fecha_Banco r, r_Nombre_Banco r, r_Monto_Banco r).

Definition NS_POR_DIA : Z := 86400000000000.

(** The text of a timestamp: 'NaT', 'YYYY-MM-DD', or 'YYYY-MM-DD HH:MM:SS'
    followed by a fraction of [decimales] digits when [decimales] is not 0.
    Two texts are equal exactly when they are built alike. *)
Inductive fecha_texto :=
  | TextoNaT
  | TextoFecha (dia : Z)
  | TextoFechaHora (ns : Z) (decimales : nat).

#[global] Instance fecha_texto_eq_dec : EqDecision fecha_texto.
Proof. solve_decision. Defined.

Abbreviation text_key := (fecha_texto * list N * float)%type.

(** [str(ts)] for one [Timestamp]: the fraction is written only when the
    value has one, with 6 digits, or 9 when it has nanoseconds. *)
Definition str_timestamp (fecha : option Z) : fecha_texto :=
  match fecha with
  | None => TextoNaT
  | Some ns =>
      TextoFechaHora ns
        (if negb (Z.eqb (ns mod 1000) 0) then 9
         else if negb (Z.eqb (ns mod 1000000000) 0) then 6 else 0)
  end.

(** [columna.astype(str)] for a datetime column: when no value of the column
    has a time of day every date is written 'YYYY-MM-DD'; otherwise every
    value is written with the time and as many fraction digits as the finest
    value of the column needs. *)
Definition solo_fechas (columna : list (option Z)) : bool :=
  forallb (λ f, match f with
                | Some ns => Z.eqb (ns mod NS_POR_DIA) 0
                | None => true
                end) columna.

Definition tiene_fraccion (unidad : Z) (columna : list (option Z)) : bool :=
  existsb (λ f, match f with
                | Some ns => negb (Z.eqb (ns mod unidad) 0)
                | None => false
                end) columna.

Definition decimales_columna (columna : list (option Z)) : nat :=
  if tiene_fraccion 1000 columna then 9
  else if tiene_fraccion 1000000 columna then 6
  else if tiene_fraccion 1000000000 columna then 3
  else 0.

Definition astype_str_fecha (columna : list (option Z)) (fecha : option Z)
  : fecha_texto :=
  match fecha with
  | None => TextoNaT
  | Some ns =>
      if solo_fechas columna then TextoFecha (ns / NS_POR_DIA)
      else TextoFechaHora ns (decimales_columna columna)
  end.

(** The key of pass 3 for a bank row:
    [(str(op_banco['Fecha']), str(op_banco['Nombre']), float(op_banco['Monto']))]. *)
Definition clave_texto_banco (b : Operacion) : text_key :=
  (str_timestamp (b_Fecha b), b_Nombre b, b_Monto b).

(** The same key read back from a record. *)
Definition clave_texto_resultado (r : Match) : text_key :=
  (str_timestamp (r_Fecha_Banco r), r_Nombre_Banco r, r_Monto_Banco r).

(** The keys pass 3 takes from the results it finds:
    [zip(Fecha_Banco.astype(str), Nombre_Banco.astype(str), Monto_Banco.astype(float))]. *)
Definition claves_texto_resultados (resultados : list Match) : list text_key :=
  let columna := map r_Fecha_Banco resultados in
  map (λ r, (astype_str_fecha columna (r_Fecha_Banco r), r_Nombre_Banco r,
             r_Monto_Banco r))
      resultados.

(** ** Pass 1: [matcheo_exacto] *)

Definition is_none {A} (o : option A) : bool :=
  match o with None => true | Some _ => false end.

Definition venta_incompleta (venta : Venta) : bool :=
  is_none (v_Fecha venta) || is_none (v_Nombre_Cliente venta)
  || PrimFloat.is_nan (v_Monto venta).

(** [a == b] on timestamps: [NaT] equals nothing. *)
Definition fecha_eqb (a b : option Z) : bool :=
  match a, b with
  | Some x, Some y => Z.eqb x y
  | _, _ => false
  end.

Definition mask_exacto (venta : Venta) (banco : Operacion) : bool :=
  fecha_eqb (b_Fecha banco) (v_Fecha venta)
  && pystr_eqb (upper (b_Nombre banco))
               (upper (py_str (celda (v_Nombre_Cliente venta))))
  && PrimFloat.eqb (b_Monto banco) (v_Monto venta).

Definition match_exacto (fam : FamiliasDF) (venta : Venta) (banco : Operacion)
  : Match :=
  {| r_Tipo_Match := EXACTO;
     r_Familia := Some (_obtener_familia_por_persona fam (v_Nombre_Cliente venta));
     r_Grupo_Familiar := None;
     r_Factura := v_Factura venta;
     r_Numero_Caja := Some (v_Numero_Caja venta);
     r_Fecha_Banco := b_Fecha banco;
     r_Nombre_Banco := b_Nombre banco;
     r_Monto_Banco := b_Monto banco;
     r_Monto_Factura := v_Monto venta;
     r_Cantidad_Facturas := None |}.

Definition matcheo_exacto (fam : FamiliasDF) (ventas_df : list Venta)
    (banco_df : list Operacion) : list Match :=
  flat_map
    (λ venta,
       if venta_incompleta venta then []
       else map (match_exacto fam venta) (filter (mask_exacto venta) banco_df))
    ventas_df.

(** ** Rows of [ventas_validas] *)

(** A row that survived [dropna(subset=['Fecha', 'Nombre_Cliente', 'Monto'])],
    with its index label (the position of the row in [ventas_df]) and the
    family code that [apply(self._obtener_familia_por_persona)] attached. *)
Record VentaValida := mkVentaValida {
  vv_label : nat;
  vv_Fecha : Z;
  vv_Nombre_Cliente : pystr;
  vv_Monto : float;
  vv_Factura : pystr;
  vv_Numero_Caja : pystr;
  vv_Codigo_Familia : pystr
}.

Definition fila_valida (fam : FamiliasDF) (iv : nat * Venta) : option VentaValida :=
  let '(i, v) := iv in
  match v_Fecha v, v_Nombre_Cliente v with
  | Some fecha, Some nombre =>
      if PrimFloat.is_nan (v_Monto v) then None
      else Some (mkVentaValida i fecha nombre (v_Monto v) (v_Factura v)
                   (v_Numero_Caja v)
                   (_obtener_familia_por_persona fam (Some nombre)))
  | _, _ => None
  end.

(** [float(np.sum(montos))], [float(subset['Monto'].sum())]: the additions
    are taken left to right. *)
Definition suma (montos : list float) : float :=
  fold_left PrimFloat.add montos 0%float.

(** [df[mask]] for a boolean mask aligned with the rows. *)
Definition select {A} (mask : list bool) (rows : list A) : list A :=
  (filter (λ mr : bool * A, fst mr) (zip mask rows)).*2.

(** ** Pass 2: [matcheo_multifacturas_misma_familia_dia_caja] *)

(** The invoice numbers a Match Record refers to: its 'Factura' cell split at
    commas, the pieces stripped, the empty ones dropped. *)
Definition facturas_de (r : Match) : list pystr :=
  filter (λ x, x ≠ []) (map strip (split_sep 44 (r_Factura r))).

Definition facturas_matcheadas (resultados : list Match) : list pystr :=
  flat_map facturas_de resultados.

Definition ventas_validas_p2 (fam : FamiliasDF) (ventas_df : list Venta)
    (resultados : list Match) : list VentaValida :=
  let disponibles :=
    filter (λ iv : nat * Venta, v_Factura (snd iv) ∉ facturas_matcheadas resultados)
      (imap pair ventas_df) in
  filter (λ x, vv_Codigo_Familia x ∉ [No_encontrada; No_identificada])
    (omap (fila_valida fam) disponibles).

Definition clave_grupo (x : VentaValida) : Z * pystr * pystr :=
  (vv_Fecha x, vv_Numero_Caja x, vv_Codigo_Familia x).

(** The order of the group keys: by date, then till, then family code. *)
Definition clave_grupo_leb (a b : Z * pystr * pystr) : bool :=
  let '(f1, c1, k1) := a in
  let '(f2, c2, k2) := b in
  Z.ltb f1 f2
  || (Z.eqb f1 f2
      && (negb (pystr_leb c2 c1) || (pystr_eqb c1 c2 && pystr_leb k1 k2))).

(** [ventas_validas.groupby(grupo_cols)]: one group per key, keys in sorted
    order, the rows of a group in table order. *)
Definition groupby (rows : list VentaValida)
  : list ((Z * pystr * pystr) * list VentaValida) :=
  map (λ k, (k, filter (λ x, clave_grupo x = k) rows))
      (sort_by clave_grupo_leb (nub (map clave_grupo rows))).

Record estado_p2 := mkEstadoP2 {
  e_mask : option (list bool);          (* the local [mask]; [None]: unbound *)
  e_matched_ops : list op_key;
  e_matches_nuevos : list Match
}.

Definition familia_val (grupo : list VentaValida) : pystr :=
  let familias_set :=
    nub (filter (λ fam, fam ≠ []) (map vv_Codigo_Familia grupo)) in
  match familias_set with
  | [] => No_encontrada
  | _ => join (s2t ";") (sort_by pystr_leb familias_set)
  end.

Definition match_multi (numero_caja : pystr) (grupo : list VentaValida)
    (total_monto : float) (banco : Operacion) : Match :=
  {| r_Tipo_Match := MULTI_FACTURAS;
     r_Familia := Some (familia_val grupo);
     r_Grupo_Familiar := None;
     r_Factura := join (s2t ",") (map vv_Factura grupo);
     r_Numero_Caja := Some numero_caja;
     r_Fecha_Banco := b_Fecha banco;
     r_Nombre_Banco := b_Nombre banco;
     r_Monto_Banco := b_Monto banco;
     r_Monto_Factura := total_monto;
     r_Cantidad_Facturas := Some (length grupo) |}.

(** The loop over [coincidencias] (lines 577-623), shared by the groups. *)
Definition registrar_coincidencias (mk : Operacion → Match)
    (coincidencias : list Operacion) (ops : list op_key) (nuevos : list Match)
  : list op_key * list Match :=
  fold_left
    (λ '(ops, nuevos) banco,
       if in_ops (clave_banco banco) ops then (ops, nuevos)
       else (clave_banco banco :: ops, nuevos ++ [mk banco]))
    coincidencias (ops, nuevos).

Definition mask_fecha_monto (fecha : Z) (total_monto : float) (b : Operacion)
  : bool :=
  fecha_eqb (b_Fecha b) (Some fecha) && PrimFloat.eqb (b_Monto b) total_monto.

Definition mask_familia (fam : FamiliasDF) (codigo_familia : pystr)
    (b : Operacion) : bool :=
  pystr_eqb (_obtener_familia_por_persona fam (Some (b_Nombre b))) codigo_familia.

(** One iteration of the loop over the groups (lines 538-623).  The [try]
    block assigns [mask] only when some available operation has the group's
    date and total; the [except] branch is not modelled, the comparisons of
    the [try] block raising nothing on columns of the types above. *)
Definition paso_grupo (fam : FamiliasDF) (banco_disponible : list Operacion)
    (st : estado_p2) (g : (Z * pystr * pystr) * list VentaValida)
  : result estado_p2 :=
  let '((fecha, numero_caja, codigo_familia), grupo) := g in
  if (length grupo <? 2)%nat then Ok st
  else
    let total_monto := suma (map vv_Monto grupo) in
    let codigo_familia := hd codigo_familia (map vv_Codigo_Familia grupo) in
    let candidatos_banco :=
      select (map (mask_fecha_monto fecha total_monto) banco_disponible)
             banco_disponible in
    let mask :=
      if (0 <? length candidatos_banco)%nat
      then Some (map (λ b, mask_fecha_monto fecha total_monto b
                           && mask_familia fam codigo_familia b)
                     banco_disponible)
      else e_mask st in
    match mask with
    | None => Raise UnboundLocalError
    | Some m =>
        let coincidencias := select m banco_disponible in
        let '(ops, nuevos) :=
          registrar_coincidencias (match_multi numero_caja grupo total_monto)
            coincidencias (e_matched_ops st) (e_matches_nuevos st) in
        Ok (mkEstadoP2 (Some m) ops nuevos)
    end.

Definition banco_disponible_p2 (banco_df : list Operacion)
    (resultados : list Match) : list Operacion :=
  filter (λ b, negb (in_ops (clave_banco b) (map clave_resultado resultados)))
         banco_df.

Definition matcheo_multifacturas_misma_familia_dia_caja (fam : FamiliasDF)
    (ventas_df : list Venta) (banco_df : list Operacion)
    (resultados : list Match) : result (list Match) :=
  let matched_ops := map clave_resultado resultados in
  let ventas_validas := ventas_validas_p2 fam ventas_df resultados in
  let banco_disponible := banco_disponible_p2 banco_df resultados in
  st ← foldM (paso_grupo fam banco_disponible)
         (mkEstadoP2 None matched_ops []) (groupby ventas_validas);
  Ok (resultados ++ e_matches_nuevos st).

(** ** Pass 3: [matcheo_por_grupo_familiar] *)

(** [abs((fecha_banco - fecha_factura).days)]: [.days] rounds the difference
    down to whole days; [None] when a date is [NaT]. *)
Definition diff_dias_p3 (fecha_banco fecha_factura : option Z) : option Z :=
  match fecha_banco, fecha_factura with
  | Some fb, Some ff => Some (Z.abs ((fb - ff) / NS_POR_DIA))
  | _, _ => None
  end.

Definition dias_le_1 (d : option Z) : bool :=
  match d with Some n => Z.leb n 1 | None => false end.

(** The test of lines 684-691 on one invoice. *)
Definition factura_coincide_p3 (fam : FamiliasDF) (op_banco : Operacion)
    (familia_pagador : option pystr) (factura : Venta) : bool :=
  let familia_cliente :=
    _validar_pertenencia_familia fam (v_Nombre_Cliente factura) in
  truthy familia_cliente
  && bool_decide (familia_cliente = familia_pagador)
  && PrimFloat.ltb (PrimFloat.abs (b_Monto op_banco - v_Monto factura)) 0.01
  && dias_le_1 (diff_dias_p3 (b_Fecha op_banco) (v_Fecha factura)).

Definition match_grupo_familiar (op_banco : Operacion)
    (familia_pagador : option pystr) (factura : Venta) : Match :=
  {| r_Tipo_Match := Grupo_Familiar;
     r_Familia := None;
     r_Grupo_Familiar := familia_pagador;
     r_Factura := v_Factura factura;
     r_Numero_Caja := None;
     r_Fecha_Banco := b_Fecha op_banco;
     r_Nombre_Banco := b_Nombre op_banco;
     r_Monto_Banco := b_Monto op_banco;
     r_Monto_Factura := v_Monto factura;
     r_Cantidad_Facturas := None |}.

(** One iteration of the loop over [banco_df] (lines 670-707). *)
Definition paso_op_p3 (fam : FamiliasDF) (ventas_df : list Venta)
    (st : list text_key * list Match) (op_banco : Operacion)
  : list text_key * list Match :=
  let '(matched_ops, matches_nuevos) := st in
  let op_key := clave_texto_banco op_banco in
  if in_ops op_key matched_ops then st
  else
    let familia_pagador :=
      _validar_pertenencia_familia fam (Some (b_Nombre op_banco)) in
    if negb (truthy familia_pagador) then st
    else
      match List.find (factura_coincide_p3 fam op_banco familia_pagador)
                      ventas_df with
      | Some factura =>
          (op_key :: matched_ops,
           matches_nuevos ++ [match_grupo_familiar op_banco familia_pagador factura])
      | None => st
      end.

Definition matcheo_por_grupo_familiar (fam : FamiliasDF)
    (ventas_df : list Venta) (banco_df : list Operacion)
    (resultados : list Match) : list Match :=
  let matched_ops := claves_texto_resultados resultados in
  let '(_, matches_nuevos) :=
    fold_left (paso_op_p3 fam ventas_df) banco_df (matched_ops, []) in
  resultados ++ matches_nuevos.

(** ** Pass 4: [matcheo_multifacturas_misma_familia_mismo_dia_caja] *)

Definition TOL : float := 0.01.
Definition MAX_CANDIDATOS : nat := 15.

(** [abs(suma - monto_banco) <= TOL] *)
Definition acepta (suma monto_banco : float) : bool :=
  PrimFloat.leb (PrimFloat.abs (suma - monto_banco)) TOL.

Definition extraer_apellido (nombre : pystr) : pystr :=
  List.last (split (strip (upper nombre))) [].

(** [abs((candidatos['Fecha'] - fecha_b).dt.days)]; [None] is NaN. *)
Definition diff_dias (fecha_b : option Z) (x : VentaValida) : option Z :=
  match fecha_b with
  | Some fb => Some (Z.abs ((vv_Fecha x - fb) / NS_POR_DIA))
  | None => None
  end.

(** [x] sorts strictly before [y] under
    [sort_values(['diff_dias', 'Monto'], ascending=[True, False])], NaN
    distances last. *)
Definition antes (fecha_b : option Z) (x y : VentaValida) : bool :=
  match diff_dias fecha_b x, diff_dias fecha_b y with
  | Some dx, Some dy =>
      Z.ltb dx dy || (Z.eqb dx dy && PrimFloat.ltb (vv_Monto y) (vv_Monto x))
  | Some _, None => true
  | None, Some _ => false
  | None, None => PrimFloat.ltb (vv_Monto y) (vv_Monto x)
  end.

(** Lines 835-847: sort by date, then (stably) by distance and amount, keep
    the first [MAX_CANDIDATOS]. *)
Definition candidatos_restringidos (fecha_b : option Z)
    (candidatos : list VentaValida) : list VentaValida :=
  let por_fecha := sort_by (λ x y, Z.leb (vv_Fecha x) (vv_Fecha y)) candidatos in
  take MAX_CANDIDATOS (sort_by (λ x y, negb (antes fecha_b y x)) por_fecha).

(** [itertools.combinations(l, k)], in its lexicographic order. *)
Fixpoint combinations {A} (l : list A) (k : nat) {struct l} : list (list A) :=
  match k, l with
  | O, _ => [[]]
  | S _, [] => []
  | S k', x :: t => map (cons x) (combinations t k') ++ combinations t k
  end.

(** [candidatos_restringidos.loc[idxs]] *)
Definition subset_loc (pool : list VentaValida) (idxs : list nat)
  : list VentaValida :=
  omap (λ i, pool !! i) idxs.

(** The combinations in the order the two nested loops of lines 854-857 visit
    them: k = 2 .. min(8, len(pool)), each k in lexicographic order. *)
Definition combos (n : nat) : list (list nat) :=
  flat_map (combinations (seq 0 n)) (seq 2 (Nat.min 8 n - 1)).

(** The search of lines 852-895: the first combination accepted, if any. *)
Definition buscar_combinacion (pool : list VentaValida) (monto_banco : float)
  : option (list nat) :=
  List.find (λ idxs, acepta (suma (map vv_Monto (subset_loc pool idxs))) monto_banco)
            (combos (length pool)).

(** [ventas_validas.loc[subset.index, '_usado_en_match'] = True].  After
    [reset_index(drop=True)] the index of [subset] is the list of positions
    [idxs] in the sorted pool; [.loc] reads them as labels of
    [ventas_validas] and raises KeyError when one of them is not a label. *)
Definition marcar_usadas (idxs : list nat) (vv : list (VentaValida * bool))
  : result (list (VentaValida * bool)) :=
  if forallb (λ i, existsb (λ xu, Nat.eqb (vv_label (fst xu)) i) vv) idxs
  then Ok (map (λ xu, (fst xu, snd xu || bool_decide (vv_label (fst xu) ∈ idxs))) vv)
  else Raise KeyError.

Definition familia_resuelta (codigo : pystr) : bool :=
  negb (bool_decide (codigo ∈ [No_encontrada; No_identificada; []])).

(** The candidate rows of lines 808-828.  The pattern of [str.contains] is
    taken literally. *)
Definition candidatos_p4 (fam : FamiliasDF) (vv : list (VentaValida * bool))
    (banco : Operacion) : result (list VentaValida) :=
  let codigo_familia_banco :=
    _obtener_familia_por_persona fam (Some (b_Nombre banco)) in
  let libres := (filter (λ xu : VentaValida * bool, negb (snd xu)) vv).*1 in
  if familia_resuelta codigo_familia_banco then
    Ok (filter (λ x, vv_Codigo_Familia x = codigo_familia_banco) libres)
  else
    let clave := extraer_apellido (b_Nombre banco) in
    if pystr_eqb clave [] then Raise AttributeError
    else Ok (filter (λ x, contains clave (upper (vv_Nombre_Cliente x))) libres).

Definition match_familia (fam : FamiliasDF) (banco : Operacion)
    (subset : list VentaValida) (suma_facturas : float) : Match :=
  {| r_Tipo_Match := MULTI_FACTURAS_FAMILIA_BANCO_PRIMERO;
     r_Familia := Some (_obtener_familia_por_persona fam (Some (b_Nombre banco)));
     r_Grupo_Familiar := None;
     r_Factura := join (s2t ",") (map vv_Factura subset);
     r_Numero_Caja := Some (join (s2t ",") (nub (map vv_Numero_Caja subset)));
     r_Fecha_Banco := b_Fecha banco;
     r_Nombre_Banco := b_Nombre banco;
     r_Monto_Banco := b_Monto banco;
     r_Monto_Factura := suma_facturas;
     r_Cantidad_Facturas := Some (length subset) |}.

Record estado_p4 := mkEstadoP4 {
  e4_ventas_validas : list (VentaValida * bool);   (* with '_usado_en_match' *)
  e4_matched_ops : list op_key;
  e4_matches_nuevos : list Match
}.

(** The key of pass 4: a missing amount counts as 0.0. *)
Definition clave_banco_p4 (banco : Operacion) : op_key :=
  (b_Fecha banco, strip (upper (b_Nombre banco)),
   if PrimFloat.is_nan (b_Monto banco) then 0%float else b_Monto banco).

(** One iteration of the loop over [banco_df] (lines 792-895). *)
Definition paso_banco_p4 (fam : FamiliasDF) (st : estado_p4) (banco : Operacion)
  : result estado_p4 :=
  let key := clave_banco_p4 banco in
  let monto_banco := snd key in
  if in_ops key (e4_matched_ops st) then Ok st
  else
    candidatos ← candidatos_p4 fam (e4_ventas_validas st) banco;
    if (length candidatos <? 2)%nat then Ok st
    else
      let pool := candidatos_restringidos (b_Fecha banco) candidatos in
      match buscar_combinacion pool monto_banco with
      | None => Ok st
      | Some idxs =>
          let subset := subset_loc pool idxs in
          let m := match_familia fam banco subset (suma (map vv_Monto subset)) in
          vv' ← marcar_usadas idxs (e4_ventas_validas st);
          Ok (mkEstadoP4 vv' (key :: e4_matched_ops st)
                (e4_matches_nuevos st ++ [m]))
      end.

Definition ventas_validas_p4 (fam : FamiliasDF) (ventas_df : list Venta)
  : list (VentaValida * bool) :=
  map (λ x, (x, false)) (omap (fila_valida fam) (imap pair ventas_df)).

Definition matcheo_multifacturas_misma_familia_mismo_dia_caja (fam : FamiliasDF)
    (ventas_df : list Venta) (banco_df : list Operacion)
    (resultados : list Match) : result (list Match) :=
  let ventas_validas := ventas_validas_p4 fam ventas_df in
  let matched_ops := map clave_resultado resultados in
  st ← foldM (paso_banco_p4 fam) (mkEstadoP4 ventas_validas matched_ops [])
         banco_df;
  Ok (resultados ++ e4_matches_nuevos st).

(** ** The four passes in order *)

Definition cuatro_pasadas (fam : FamiliasDF) (ventas_df : list Venta)
    (banco_df : list Operacion) : result (list Match) :=
  let r1 := matcheo_exacto fam ventas_df banco_df in
  r2 ← matcheo_multifacturas_misma_familia_dia_caja fam ventas_df banco_df r1;
  let r3 := matcheo_por_grupo_familiar fam ventas_df banco_df r2 in
  matcheo_multifacturas_misma_familia_mismo_dia_caja fam ventas_df banco_df r3.

(** ** Ingestion: the column names *)

(** A Python [dict] from texts to texts, in insertion order. *)
Abbreviation dict := (list (pystr * pystr)).

(** [k in d] *)
Definition dict_in (k : pystr) (d : dict) : bool :=
  existsb (λ kv, pystr_eqb kv.1 k) d.

(** [d.get(k)] *)
Fixpoint dict_get (k : pystr) (d : dict) : option pystr :=
  match d with
  | [] => None
  | (k', v) :: d' => if pystr_eqb k' k then Some v else dict_get k d'
  end.

(** [d[k] = v] *)
Fixpoint dict_set (k v : pystr) (d : dict) : dict :=
  match d with
  | [] => [(k, v)]
  | (k', v') :: d' =>
      if pystr_eqb k' k then (k', v) :: d' else (k', v') :: dict_set k v d'
  end.

(** [df.rename(columns=mapeo)], on the list of the column names. *)
Definition rename (mapeo : dict) (columns : list pystr) : list pystr :=
  map (λ col, default col (dict_get col mapeo)) columns.

Definition Codigo : pystr := s2t "C" ++ [243%N] ++ s2t "digo".

(** The test of line 45 on one column name. *)
Definition nombra_codigo (col : pystr) : bool :=
  contains (s2t "codigo") (lower col) || contains (s2t "code") (lower col).

(** Lines 43-48 of [cargar_datos], on the column names of [familias_df]. *)
Definition renombrar_codigo (columns : list pystr) : list pystr :=
  if bool_decide (Codigo ∈ columns) then columns
  else
    match List.find nombra_codigo columns with
    | Some col => rename [(col, Codigo)] columns
    | None => columns
    end.

(** [any(palabra in col_lower for palabra in palabras)] *)
Definition contiene_alguna (palabras : list pystr) (col_lower : pystr) : bool :=
  existsb (λ palabra, contains palabra col_lower) palabras.

Definition palabras_nombre : list pystr :=
  [s2t "nombre"; s2t "nombr"; s2t "cliente"; s2t "titular"; s2t "beneficiario"].
Definition palabras_fecha : list pystr := [s2t "fecha"; s2t "date"; s2t "fec"].
Definition palabras_monto : list pystr :=
  [s2t "cr" ++ [233%N] ++ s2t "dito"; s2t "credito"; s2t "monto"; s2t "importe";
   s2t "amount"; s2t "valor"].
Definition palabras_detalle : list pystr := [s2t "detalle"; s2t "descrip"].

(** One iteration of the loop of lines 203-233 over the columns of
    [banco_df]. *)
Definition paso_columna_banco (columnas_encontradas : dict) (col : pystr) : dict :=
  let col_lower := lower col in
  if contiene_alguna palabras_nombre col_lower then
    if negb (dict_in (s2t "nombre") columnas_encontradas)
    then dict_set (s2t "Nombre") col columnas_encontradas
    else columnas_encontradas
  else if contiene_alguna palabras_fecha col_lower then
    if negb (dict_in (s2t "Fecha") columnas_encontradas)
    then dict_set (s2t "Fecha") col columnas_encontradas
    else columnas_encontradas
  else if contiene_alguna palabras_monto col_lower then
    if negb (dict_in (s2t "Monto") columnas_encontradas)
    then dict_set (s2t "Monto") col columnas_encontradas
    else columnas_encontradas
  else if contiene_alguna palabras_detalle col_lower then
    if negb (dict_in (s2t "Detalle") columnas_encontradas)
    then dict_set (s2t "Detalle") col columnas_encontradas
    else columnas_encontradas
  else if contains (s2t "comprobante") col_lower then
    if negb (dict_in (s2t "Comprobante") columnas_encontradas)
    then dict_set (s2t "Comprobante") col columnas_encontradas
    else columnas_encontradas
  else columnas_encontradas.

Definition columnas_encontradas (columns : list pystr) : dict :=
  fold_left paso_columna_banco columns [].

(** [{v: k for k, v in columnas_encontradas.items()}] *)
Definition mapeo_banco_a_aplicar (columnas_encontradas : dict) : dict :=
  fold_left (λ mapeo kv, dict_set kv.2 kv.1 mapeo) columnas_encontradas [].

(** The column names of [banco_df] after line 238. *)
Definition columnas_banco (columns : list pystr) : list pystr :=
  rename (mapeo_banco_a_aplicar (columnas_encontradas columns)) columns.

Definition columnas_criticas : list pystr := [s2t "Fecha"; s2t "Nombre"; s2t "Monto"].

(** Lines 241-242: the critical columns that the renamed table lacks;
    [_normalizar_columnas] returns [False] when there is one. *)
Definition columnas_faltantes (columns : list pystr) : list pystr :=
  filter (λ col, col ∉ columnas_banco columns) columnas_criticas.

(** ** Ingestion: the till number of an invoice *)









(** ** Ingestion: the rows of the bank table *)

(** A row of [banco_df] before the filter of lines 288-289: the payer name
    may be missing. *)
Record FilaBanco := mkFilaBanco {
  fb_Fecha : option Z;
  fb_Nombre : option pystr;
  fb_Monto : float
}.

(** [banco_df[(banco_df['Monto'] > 0) & (banco_df['Nombre'].notna())]] *)
Definition filtrar_operaciones (banco_df : list FilaBanco) : list Operacion :=
  omap (λ x,
          if PrimFloat.ltb 0 (fb_Monto x) then
            match fb_Nombre x with
            | Some nombre => Some (mkOperacion (fb_Fecha x) nombre (fb_Monto x))
            | None => None
            end
          else None)
       banco_df.

(** ** The report: [generar_reporte_completo] *)

#[global] Instance tipo_match_eq_dec : EqDecision tipo_match.
Proof. solve_decision. Defined.

(** The text that a pass writes in column 'Tipo_Match'. *)
Definition tipo_texto (t : tipo_match) : pystr :=
  match t with
  | EXACTO => s2t "EXACTO"
  | MULTI_FACTURAS => s2t "MULTI_FACTURAS"
  | Grupo_Familiar => s2t "Grupo Familiar"
  | MULTI_FACTURAS_FAMILIA_BANCO_PRIMERO =>
      s2t "MULTI_FACTURAS_FAMILIA_BANCO_PRIMERO"
  end.

(** [resultados[resultados['Tipo_Match'] == tipo]] *)
Definition de_tipo (tipo : pystr) (resultados : list Match) : list Match :=
  filter (λ r, tipo_texto (r_Tipo_Match r) = tipo) resultados.

(** [tipo in resultados['Tipo_Match'].unique()] *)
Definition hay_tipo (tipo : pystr) (resultados : list Match) : bool :=
  bool_decide (tipo ∈ map (λ r, tipo_texto (r_Tipo_Match r)) resultados).

(** The sheets of Match Records that lines 919-928 write, in order, each
    with its name and its rows. *)
Definition hojas_de_matches (resultados : list Match)
  : list (pystr * list Match) :=
  [(s2t "Matches_Exactos", resultados)]
  ++ (if hay_tipo (s2t "MULTI_FACTURAS") resultados
      then [(s2t "Matches_MultiFacturas",
             de_tipo (s2t "MULTI_FACTURAS") resultados)]
      else [])
  ++ (if hay_tipo (s2t "MULTI_FACTURAS_FAMILIA") resultados
      then [(s2t "Matches_MultiFacturas_Familia",
             de_tipo (s2t "MULTI_FACTURAS_FAMILIA") resultados)]
      else []).

(** The rows of sheet 'Facturas_Sin_Match' (lines 946-953): the invoices
    whose number is no piece of a 'Factura' cell of the results. *)
Definition facturas_sin_match (ventas_df : list Venta) (resultados : list Match)
  : list Venta :=
  filter (λ v, v_Factura v ∉ facturas_matcheadas resultados) ventas_df.

(** ** The entry point: [ejecutar_matcheo] and [main] *)

Record Tablas := mkTablas {
  t_familias_df : FamiliasDF;
  t_ventas_df : list Venta;
  t_banco_df : list Operacion
}.

(** What [cargar_datos], which catches every exception of the loading,
    leaves in the object: one of the three tables is still [None]; or the
    three are there and a column that [matcheo_exacto] requires is not; or
    the three are there with the columns that passes 1 and 2 read,
    normalized.  (Tables that have the columns of pass 1 and lack 'Factura'
    or 'Numero_Caja', on which pass 2 returns at once, are not
    represented.) *)
Inductive carga :=
  | SinCargar
  | SinColumnas
  | Cargadas (t : Tablas).

(** What a run leaves: [matcheador.resultados] ([None] when there is none)
    and whether [generar_reporte_completo] and [estadisticas_detalladas] were
    called. *)
Record Ejecucion := mkEjecucion {
  ej_resultados : option (list Match);
  ej_reporte : bool
}.

(** [ejecutar_matcheo()] (lines 1013-1074); [archivos_existen] is what
    [os.path.exists] answers for the three files, [c] what [cargar_datos]
    leaves.  [None] is the [None] the function returns. *)
Definition ejecutar_matcheo (archivos_existen : list bool) (c : carga)
  : option Ejecucion :=
  if negb (forallb id archivos_existen) then None
  else
    match c with
    | SinCargar => None
    | SinColumnas => Some (mkEjecucion None false)
    | Cargadas t =>
        let resultados :=
          matcheo_exacto (t_familias_df t) (t_ventas_df t) (t_banco_df t) in
        match matcheo_multifacturas_misma_familia_dia_caja (t_familias_df t)
                (t_ventas_df t) (t_banco_df t) resultados with
        | Ok resultados =>
            Some (mkEjecucion (Some resultados) (0 <? length resultados)%nat)
        | Raise _ => None
        end
    end.


(** ** A registry for the examples *)

Definition familias_ejemplo : FamiliasDF :=
  mkFamiliasDF [s2t "Persona_1"; s2t "Persona_2"]
    [mkFamilia (s2t "F1") [Some (s2t "JUAN PEREZ"); Some (s2t "MARIA PEREZ")];
     mkFamilia (s2t "F2") [Some (s2t "ANA GOMEZ"); Some (s2t "LUIS GOMEZ")]].

(** * Vocabulary of the statements *)

(** ** Keys *)

(** The records of [R] from position [n] on have keys that no record
    before them has. *)
Definition claves_frescas {F} `{EqDecision F}
    (clave : Match → F * pystr * float) (n : nat) (R : list Match) : Prop :=
  ∀ i j ri rj, (i < j)%nat → (n ≤ j)%nat → R !! i = Some ri → R !! j = Some rj →
    key_eqb (clave rj) (clave ri) = false.

(** ** Names *)

(** The part of the normalizer that follows [strip], on one character. *)
Definition post_char (c : N) : pystr :=
  re_sub_non_alnum (filter (λ ch, negb (combining ch)) (nfkd_cp c)).

(** The whole normalizer on one character. *)
Definition canon_char (c : N) : pystr := flat_map post_char (py_upper_cp c).

Definition blanco (c : N) : N := if is_space c then 32%N else c.
#[global] Arguments post_char : simpl never.
#[global] Arguments canon_char : simpl never.
#[global] Arguments blanco : simpl never.

(** The characters that leave a letter or a digit in a token: the ASCII
    letters and digits, the accented letters of Latin-1 and U+0178, U+00DF,
    the superscript digits and the vulgar fractions. *)
Definition es_alfanumerico (c : N) : bool :=
  in_range 48 57 c || in_range 65 90 c || in_range 97 122 c
  || in_range 178 179 c || N.eqb c 185 || in_range 188 190 c
  || in_range 192 197 c || in_range 199 207 c || in_range 209 214 c
  || in_range 217 221 c || N.eqb c 223
  || in_range 224 229 c || in_range 231 239 c || in_range 241 246 c
  || in_range 249 253 c || N.eqb c 255 || N.eqb c 376.

(** Punctuation and symbols of Basic Latin and Latin-1 Supplement. *)
Definition es_puntuacion (c : N) : bool :=
  in_range 33 47 c || in_range 58 64 c || in_range 91 96 c
  || in_range 123 126 c || in_range 161 169 c || in_range 171 172 c
  || in_range 174 177 c || N.eqb c 180 || in_range 182 184 c
  || N.eqb c 187 || N.eqb c 191 || N.eqb c 215 || N.eqb c 247.

Definition es_separador (c : N) : bool := is_space c || es_puntuacion c.

(** The letter under an accent: the base of a character that decomposes into
    an ASCII letter and one combining mark. *)
Definition sin_acento (c : N) : N :=
  match nfkd_cp c with
  | [b; m] =>
      if combining m && (in_range 65 90 b || in_range 97 122 b) then b else c
  | _ => c
  end.

Definition minuscula (c : N) : N :=
  match py_lower_cp c with [d] => d | _ => c end.



(** The code points below 1024, and the facts about each of them that are
    settled by evaluating the tables. *)
Definition chars_bajos : list N := map N.of_nat (seq 0 1024).

Definition check_space (c : N) : bool :=
  implb (is_space c) (forallb is_space (post_char c)).
Definition check_alnum_id (c : N) : bool :=
  implb (is_AZ09 c) (bool_decide (canon_char c = [c])).
Definition check_alnum (c : N) : bool :=
  eqb (existsb is_AZ09 (canon_char c)) (es_alfanumerico c).
Definition check_acento (c : N) : bool :=
  bool_decide (map blanco (canon_char (sin_acento c)) = map blanco (canon_char c)).
Definition check_minuscula (c : N) : bool :=
  bool_decide (map blanco (canon_char (minuscula c)) = map blanco (canon_char c)).
Definition check_separador (c : N) : bool :=
  implb (es_separador c) (bool_decide (map blanco (canon_char c) = [32%N])).

(** A text without whitespace. *)
Definition sin_espacios (t : pystr) : Prop := Forall (λ c, is_space c = false) t.

(** Tokens: non-empty words over [A-Z0-9]. *)
Definition es_token (t : pystr) : Prop :=
  t ≠ [] ∧ Forall (λ c, is_AZ09 c = true) t.

(** ** The family resolvers *)

(** A person slot of the row that matches the query tokens: a cell under a
    column whose name contains 'persona', present, whose token set is not
    empty and equals, contains or is contained in the query's. *)
Definition slot_coincide (fam : FamiliasDF) (q : gset pystr) (familia : Familia)
  : Prop :=
  ∃ col s,
    col ∈ df_columns fam ∧ contains (s2t "persona") (lower col) = true
    ∧ loc (df_columns fam) (f_celdas familia) col = Some s
    ∧ _normalize_to_token_set (PyStr s) ≠ ∅
    ∧ (q = _normalize_to_token_set (PyStr s)
       ∨ q ⊆ _normalize_to_token_set (PyStr s)
       ∨ _normalize_to_token_set (PyStr s) ⊆ q).

(** The household that [_validar_pertenencia_familia] finds for a name: the
    code of a registry row with a cell, under a column named 'Persona_...',
    whose upper-cased text contains the upper-cased name. *)
Definition pertenece_por_subcadena (fam : FamiliasDF) (nombre cod : pystr) : Prop :=
  ∃ row col x,
    row ∈ df_filas fam ∧ f_Codigo row = cod
    ∧ col ∈ df_columns fam ∧ startswith (s2t "Persona_") col = true
    ∧ loc (df_columns fam) (f_celdas row) col = Some x
    ∧ contains (upper (strip nombre)) (upper (strip x)) = true.

(** ** Pass 3 *)

(** The invoice qualifies for the operation: both names resolve to the same
    household code, the amounts differ by less than 0.01, and the difference
    of the two timestamps, rounded down to whole days, is -1, 0 or 1. *)
Definition factura_apta (fam : FamiliasDF) (op_banco : Operacion) (factura : Venta)
  : Prop :=
  ∃ cod fb ff,
    _validar_pertenencia_familia fam (Some (b_Nombre op_banco)) = Some cod
    ∧ cod ≠ []
    ∧ _validar_pertenencia_familia fam (v_Nombre_Cliente factura) = Some cod
    ∧ PrimFloat.ltb (PrimFloat.abs (b_Monto op_banco - v_Monto factura)) 0.01 = true
    ∧ b_Fecha op_banco = Some fb ∧ v_Fecha factura = Some ff
    ∧ -1 ≤ (fb - ff) / NS_POR_DIA ≤ 1.

(** ** Pass 2 *)

(** The row of [ventas_validas] is the row of [ventas_df] with its label,
    and carries the family code of its client. *)
Definition fila_de_venta (fam : FamiliasDF) (ventas_df : list Venta)
    (x : VentaValida) : Prop :=
  ∃ v, ventas_df !! vv_label x = Some v
       ∧ v_Fecha v = Some (vv_Fecha x)
       ∧ v_Nombre_Cliente v = Some (vv_Nombre_Cliente x)
       ∧ v_Monto v = vv_Monto x
       ∧ v_Factura v = vv_Factura x
       ∧ v_Numero_Caja v = vv_Numero_Caja x
       ∧ vv_Codigo_Familia x = _obtener_familia_por_persona fam (v_Nombre_Cliente v).

(** What a MULTI_FACTURAS record of pass 2 links (claim C4). *)
Definition enlace_multi (fam : FamiliasDF) (ventas_df : list Venta)
    (banco_df : list Operacion) (resultados : list Match) (r : Match) : Prop :=
  r_Tipo_Match r = MULTI_FACTURAS
  ∧ ∃ fecha caja cod grupo b,
      (2 ≤ length grupo)%nat
      ∧ Forall (λ x, fila_de_venta fam ventas_df x
                     ∧ vv_Fecha x = fecha ∧ vv_Numero_Caja x = caja
                     ∧ vv_Codigo_Familia x = cod
                     ∧ ∀ r0, r0 ∈ resultados → vv_Factura x ∉ facturas_de r0)
               grupo
      ∧ cod ≠ No_encontrada ∧ cod ≠ No_identificada
      ∧ r_Factura r = join (s2t ",") (map vv_Factura grupo)
      ∧ r_Numero_Caja r = Some caja
      ∧ r_Cantidad_Facturas r = Some (length grupo)
      ∧ r_Monto_Factura r = suma (map vv_Monto grupo)
      ∧ b ∈ banco_df
      ∧ r_Fecha_Banco r = b_Fecha b
      ∧ r_Nombre_Banco r = b_Nombre b
      ∧ r_Monto_Banco r = b_Monto b
      ∧ b_Fecha b = Some fecha
      ∧ PrimFloat.eqb (b_Monto b) (suma (map vv_Monto grupo)) = true
      ∧ _obtener_familia_por_persona fam (Some (b_Nombre b)) = cod
      ∧ in_ops (clave_banco b) (map clave_resultado resultados) = false.

(** The invariant of the loop of pass 2 over the groups. *)
Definition inv_p2 (fam : FamiliasDF) (ventas_df : list Venta)
    (banco_df : list Operacion) (resultados : list Match) (st : estado_p2)
  : Prop :=
  e_matched_ops st
    = rev (map clave_resultado (e_matches_nuevos st)) ++ map clave_resultado resultados
  ∧ Forall (enlace_multi fam ventas_df banco_df resultados) (e_matches_nuevos st)
  ∧ claves_frescas clave_resultado (length resultados)
      (resultados ++ e_matches_nuevos st)
  ∧ (∀ m, e_mask st = Some m →
       ∀ b, b ∈ select m (banco_disponible_p2 banco_df resultados) →
         in_ops (clave_banco b) (e_matched_ops st) = true).

(** ** Rows for the examples *)

(** Midnight of day [n]. *)
Definition dia (n : Z) : option Z := Some (n * NS_POR_DIA).

Definition venta_A : Venta :=
  mkVenta (dia 5) (Some (s2t "ANA GOMEZ")) 300 (s2t "A") (s2t "010").
Definition venta_B : Venta :=
  mkVenta (dia 5) (Some (s2t "ANA GOMEZ")) 400 (s2t "B") (s2t "010").
Definition venta_C : Venta :=
  mkVenta (dia 6) (Some (s2t "ANA GOMEZ")) 100 (s2t "C") (s2t "010").
Definition venta_D : Venta :=
  mkVenta (dia 6) (Some (s2t "LUIS GOMEZ")) 200 (s2t "D") (s2t "010").

(** What is left of a result for display: the rows, or nothing. *)
Definition filas {A} (r : result (list A)) : list A :=
  match r with Ok l => l | Raise _ => [] end.

Definition venta_J : Venta :=
  mkVenta (dia 5) (Some (s2t "JUAN PEREZ")) 50 (s2t "J") (s2t "010").
Definition venta_M : Venta :=
  mkVenta (dia 5) (Some (s2t "MARIA PEREZ")) 70 (s2t "M") (s2t "010").
Definition venta_300 : Venta :=
  mkVenta (dia 5) (Some (s2t "ANA GOMEZ")) 300 (s2t "C") (s2t "011").
Definition venta_400 : Venta :=
  mkVenta (dia 5) (Some (s2t "LUIS GOMEZ")) 400 (s2t "D") (s2t "011").

(** ** The search of pass 4 *)





(** ** The consumed set of pass 4 *)

(** Every earlier record is covered by the consumed set: a key that is not in
    the set differs from the key of the record. *)
Definition cubiertas (ops : list op_key) (R : list Match) : Prop :=
  ∀ ri k, ri ∈ R → in_ops k ops = false → key_eqb k (clave_resultado ri) = false.

(** The invariant of the loop of pass 4 over [banco_df]. *)
Definition inv_p4 (prev : list Match) (st : estado_p4) : Prop :=
  Forall (λ r, r_Tipo_Match r = MULTI_FACTURAS_FAMILIA_BANCO_PRIMERO)
         (e4_matches_nuevos st)
  ∧ claves_frescas clave_resultado (length prev) (prev ++ e4_matches_nuevos st)
  ∧ cubiertas (e4_matched_ops st) (prev ++ e4_matches_nuevos st).

(** ** Till numbers *)



(** ** Column names *)

(** The key under which the chain of tests of lines 207-233 files a column
    of the bank table: the first of name, date, amount, detail and voucher
    whose words its lower-cased name contains. *)
Definition clase_columna (col : pystr) : option pystr :=
  let col_lower := lower col in
  if contiene_alguna palabras_nombre col_lower then Some (s2t "Nombre")
  else if contiene_alguna palabras_fecha col_lower then Some (s2t "Fecha")
  else if contiene_alguna palabras_monto col_lower then Some (s2t "Monto")
  else if contiene_alguna palabras_detalle col_lower then Some (s2t "Detalle")
  else if contains (s2t "comprobante") col_lower then Some (s2t "Comprobante")
  else None.

(** The columns that the chain files under key [k]. *)
Definition de_clase (k : pystr) (columns : list pystr) : list pystr :=
  filter (λ col, clase_columna col = Some k) columns.

(** ** The exception of pass 2 *)



(** ** Invoice numbers *)

(** An invoice number that survives being joined with commas and read back:
    not empty, without a comma, without whitespace at either end. *)
Definition numero_limpio (f : pystr) : bool :=
  negb (pystr_eqb f []) && negb (existsb (N.eqb 44) f) && pystr_eqb (strip f) f.

(** ** Person slots *)


(** ** Records and operations *)

(** The record carries the date, the payer name and the amount of the
    operation. *)
Definition copia_operacion (r : Match) (b : Operacion) : Prop :=
  r_Fecha_Banco r = b_Fecha b ∧ r_Nombre_Banco r = b_Nombre b
  ∧ r_Monto_Banco r = b_Monto b.

(** A record of type [t] that carries the cells of a row of [banco_df]. *)
Definition registro_de (t : tipo_match) (banco_df : list Operacion) (r : Match)
  : Prop :=
  r_Tipo_Match r = t ∧ ∃ b, b ∈ banco_df ∧ copia_operacion r b.

(** ** Payer names *)

(** Upper-casing keeps whitespace whitespace and nothing else: checked on
    each code point below 1024. *)
Definition check_upper_space (c : N) : bool :=
  eqb (forallb is_space (py_upper_cp c)) (is_space c).

(** The payer name resolves to no household. *)
Definition sin_familia (fam : FamiliasDF) (banco : Operacion) : bool :=
  negb (familia_resuelta
          (_obtener_familia_por_persona fam (Some (b_Nombre banco)))).

(** ** The substring resolver and the size of the search *)

(** The registry row has a cell under a column named 'Persona_...'. *)
Definition tiene_celda_Persona (fam : FamiliasDF) (row : Familia) : bool :=
  existsb
    (λ col,
       match loc (df_columns fam) (f_celdas row) col with
       | Some _ => true
       | None => false
       end)
    (columnas_Persona_ fam).

(** The number of combinations of 2 to 8 of 15 candidates. *)
Definition MAX_COMBINACIONES : Z := 22803.

(** What a 'Grupo Familiar' record of pass 3 links: an operation of
    [banco_df] and an invoice of [ventas_df] that qualifies for it. *)
Definition enlace_grupo_familiar (fam : FamiliasDF) (ventas_df : list Venta)
    (banco_df : list Operacion) (r : Match) : Prop :=
  r_Tipo_Match r = Grupo_Familiar
  ∧ ∃ op factura,
      op ∈ banco_df ∧ factura ∈ ventas_df
      ∧ factura_apta fam op factura
      ∧ copia_operacion r op
      ∧ r_Factura r = v_Factura factura
      ∧ r_Monto_Factura r = v_Monto factura
      ∧ r_Grupo_Familiar r
        = _validar_pertenencia_familia fam (Some (b_Nombre op)).


(** * Properties *)

(** ** The name normalizer *)

Lemma chars_bajos_spec (P : N → bool) :
  forallb P chars_bajos = true → ∀ c, (c < 1024)%N → P c = true.
Proof.
  intros H c Hc. rewrite forallb_forall in H. apply H.
  unfold chars_bajos. apply in_map_iff. exists (N.to_nat c). split; [lia|].
  apply in_seq. lia.
Qed.

Ltac decide_ranges :=
  unfold in_range;
  repeat match goal with
  | |- context [N.leb ?a ?b] => destruct (N.leb_spec a b); try lia
  | |- context [N.eqb ?a ?b] => destruct (N.eqb_spec a b); try lia
  end; simpl; try reflexivity; try lia.

Lemma assoc_N_none {A} (k : N) (l : list (N * A)) (B : N) :
  forallb (λ kv, N.ltb (fst kv) B) l = true → (B ≤ k)%N → assoc_N k l = None.
Proof.
  induction l as [|[k' v] l IH]; simpl; intros H HB; [done|].
  apply andb_true_iff in H as [H1 H2]. apply N.ltb_lt in H1.
  destruct (N.eqb_spec k k'); [lia|]. auto.
Qed.

Lemma char_grande (c : N) : (1024 ≤ c)%N →
  py_upper_cp c = [c] ∧ py_lower_cp c = [c] ∧ nfkd_cp c = [c]
  ∧ combining c = false ∧ is_AZ09 c = false ∧ es_puntuacion c = false
  ∧ es_alfanumerico c = false.
Proof.
  intros H. repeat split.
  - unfold py_upper_cp. decide_ranges.
  - unfold py_lower_cp. decide_ranges.
  - unfold nfkd_cp. rewrite (assoc_N_none c nfkd_table 1024); auto.
  - unfold combining. decide_ranges.
  - unfold is_AZ09. decide_ranges.
  - unfold es_puntuacion. decide_ranges.
  - unfold es_alfanumerico. decide_ranges.
Qed.

Lemma post_char_grande c : (1024 ≤ c)%N → post_char c = [if is_space c then c else 32%N].
Proof.
  intros H. destruct (char_grande c H) as (_ & _ & Hn & Hc & Ha & _).
  unfold post_char, re_sub_non_alnum. rewrite Hn.
  rewrite filter_cons_True by (rewrite Hc; done). rewrite filter_nil.
  change (map ?f [c]) with [f c]. cbv beta. rewrite Ha.
  done.
Qed.


Lemma tabla_verificada :
  forallb (λ c, check_space c && check_alnum_id c && check_alnum c
                && check_acento c && check_minuscula c && check_separador c)
          chars_bajos = true.
Proof. vm_compute. reflexivity. Qed.

Lemma verificado c : (c < 1024)%N →
  check_space c = true ∧ check_alnum_id c = true ∧ check_alnum c = true
  ∧ check_acento c = true ∧ check_minuscula c = true
  ∧ check_separador c = true.
Proof.
  intros Hc. pose proof (chars_bajos_spec _ tabla_verificada c Hc) as H.
  cbv beta in H. repeat (apply andb_true_iff in H as [H ?]). auto 10.
Qed.

Lemma post_char_space w :
  is_space w = true → forallb is_space (post_char w) = true.
Proof.
  intros Hw. destruct (N.lt_ge_cases w 1024) as [Hlt|Hge].
  - destruct (verificado w Hlt) as (H & _). unfold check_space in H.
    rewrite Hw in H. exact H.
  - rewrite post_char_grande by done. rewrite Hw. simpl. by rewrite Hw.
Qed.

Lemma canon_char_alnum_id c : is_AZ09 c = true → canon_char c = [c].
Proof.
  intros Hc. destruct (N.lt_ge_cases c 1024) as [Hlt|Hge].
  - destruct (verificado c Hlt) as (_ & H & _). unfold check_alnum_id in H.
    rewrite Hc in H. simpl in H. by apply bool_decide_eq_true in H.
  - destruct (char_grande c Hge) as (_ & _ & _ & _ & Ha & _). congruence.
Qed.






(** *** [split] *)

Lemma cons_token_app t ts : cons_token t ts = match t with [] => ts | _ => t :: ts end.
Proof. done. Qed.

Lemma split_aux_inv s :
  sin_espacios (split_aux s).1
  ∧ Forall (λ tok, tok ≠ [] ∧ sin_espacios tok) (split_aux s).2.
Proof.
  induction s as [|c s [IH1 IH2]]; simpl; [split; constructor|].
  destruct (split_aux s) as [t ts]. simpl in *.
  destruct (is_space c) eqn:Hc; simpl.
  - split; [constructor|]. destruct t; simpl; [done|].
    constructor; [|done]. split; [done|done].
  - split; [|done]. by constructor.
Qed.

Lemma split_tokens s :
  Forall (λ tok, tok ≠ [] ∧ sin_espacios tok) (split s).
Proof.
  unfold split. pose proof (split_aux_inv s) as [H1 H2].
  destruct (split_aux s) as [t ts]. simpl in *.
  destruct t; simpl; [done|]. constructor; [|done]. done.
Qed.

Lemma filter_split s : filter (λ tok : pystr, tok ≠ []) (split s) = split s.
Proof.
  pose proof (split_tokens s) as H. induction H as [|t ts [Ht _] _ IH]; [done|].
  rewrite filter_cons_True by done. by rewrite IH.
Qed.

Lemma is_space_blanco c : is_space (blanco c) = is_space c.
Proof. unfold blanco. destruct (is_space c) eqn:Hc; [done|exact Hc]. Qed.

Lemma split_aux_blanco s : split_aux (map blanco s) = split_aux s.
Proof.
  induction s as [|c s IH]; [done|].
  cbn [map split_aux]. rewrite IH, is_space_blanco.
  destruct (split_aux s) as [t ts].
  destruct (is_space c) eqn:Hc; [done|]. unfold blanco. by rewrite Hc.
Qed.

Lemma split_blanco s : split (map blanco s) = split s.
Proof. unfold split. by rewrite split_aux_blanco. Qed.

Lemma split_aux_espacios ws :
  forallb is_space ws = true → split_aux ws = ([], []).
Proof.
  induction ws as [|w ws IH]; simpl; [done|]. intros H.
  apply andb_true_iff in H as [Hw H]. rewrite IH by done. by rewrite Hw.
Qed.

Lemma split_app_l ws s : forallb is_space ws = true → split (ws ++ s) = split s.
Proof.
  induction ws as [|w ws IH]; simpl; [done|]. intros H.
  apply andb_true_iff in H as [Hw H]. specialize (IH H).
  unfold split in *. simpl. destruct (split_aux (ws ++ s)) as [t ts].
  rewrite Hw. simpl. done.
Qed.

Lemma split_aux_app_r s ws :
  forallb is_space ws = true → split_aux (s ++ ws) = split_aux s.
Proof.
  intros H. induction s as [|c s IH]; simpl.
  - by rewrite split_aux_espacios.
  - by rewrite IH.
Qed.

Lemma split_app_r s ws : forallb is_space ws = true → split (s ++ ws) = split s.
Proof. intros H. unfold split. by rewrite split_aux_app_r. Qed.

Lemma lstrip_spec s : ∃ ws, forallb is_space ws = true ∧ s = ws ++ lstrip s.
Proof.
  induction s as [|c s (ws & Hws & IH)]; simpl.
  - by exists [].
  - destruct (is_space c) eqn:Hc.
    + exists (c :: ws). simpl. rewrite Hc, Hws. split; [done|]. by f_equal.
    + by exists [].
Qed.

Lemma forallb_rev {A} (f : A → bool) l : forallb f (rev l) = forallb f l.
Proof.
  induction l as [|x l IH]; simpl; [done|].
  rewrite forallb_app, IH. simpl. rewrite andb_true_r. apply andb_comm.
Qed.

Lemma rstrip_spec s : ∃ ws, forallb is_space ws = true ∧ s = rstrip s ++ ws.
Proof.
  unfold rstrip. destruct (lstrip_spec (rev s)) as (ws & Hws & Heq).
  exists (rev ws). rewrite forallb_rev. split; [done|].
  rewrite <- rev_app_distr, <- Heq. by rewrite rev_involutive.
Qed.

Lemma strip_spec s : ∃ ws1 ws2,
  forallb is_space ws1 = true ∧ forallb is_space ws2 = true
  ∧ s = ws1 ++ strip s ++ ws2.
Proof.
  destruct (lstrip_spec s) as (ws1 & H1 & E1).
  destruct (rstrip_spec (lstrip s)) as (ws2 & H2 & E2).
  exists ws1, ws2. unfold strip. by rewrite <- E2.
Qed.

(** *** The normalizer as a character-wise map followed by [split] *)

Lemma post_pipeline l :
  re_sub_non_alnum (filter (λ ch, negb (combining ch)) (unicodedata_normalize_NFKD l))
  = flat_map post_char l.
Proof.
  unfold re_sub_non_alnum, unicodedata_normalize_NFKD.
  induction l as [|c l IH]; simpl; [done|].
  rewrite filter_app, map_app, IH. done.
Qed.

Lemma flat_map_post_upper s : flat_map post_char (upper s) = flat_map canon_char s.
Proof.
  unfold upper. induction s as [|c s IH]; simpl; [done|].
  by rewrite flat_map_app, IH.
Qed.

Lemma flat_map_post_espacios ws :
  forallb is_space ws = true → forallb is_space (flat_map post_char ws) = true.
Proof.
  induction ws as [|w ws IH]; simpl; [done|]. intros H.
  apply andb_true_iff in H as [Hw H]. rewrite forallb_app, IH by done.
  by rewrite post_char_space.
Qed.

Lemma normalize_tokens_str s :
  normalize_tokens (PyStr s) = split (map blanco (flat_map canon_char s)).
Proof.
  unfold normalize_tokens. simpl py_str. rewrite post_pipeline, filter_split.
  rewrite split_blanco, <- flat_map_post_upper.
  destruct (strip_spec (upper s)) as (ws1 & ws2 & H1 & H2 & E).
  rewrite E at 2. rewrite !flat_map_app.
  rewrite split_app_l by by apply flat_map_post_espacios.
  rewrite split_app_r by by apply flat_map_post_espacios. done.
Qed.

Lemma normalize_str s :
  _normalize_to_token_set (PyStr s)
  = list_to_set (split (map blanco (flat_map canon_char s))).
Proof.
  unfold _normalize_to_token_set. destruct s as [|c s]; [done|].
  simpl isna_or_empty. by rewrite normalize_tokens_str.
Qed.


Lemma AZ09_no_space c : is_AZ09 c = true → is_space c = false.
Proof. unfold is_AZ09, is_space. decide_ranges. Qed.

Lemma split_nil_iff l : split l = [] ↔ forallb is_space l = true.
Proof.
  split.
  - induction l as [|c l IH]; [done|]. unfold split in *. cbn [split_aux forallb].
    destruct (split_aux l) as [t ts]. destruct (is_space c); [|done].
    simpl. exact IH.
  - intros H. by rewrite <- (app_nil_l l), split_app_r.
Qed.

Lemma post_char_chars c x :
  x ∈ post_char c → is_AZ09 x = true ∨ is_space x = true.
Proof.
  unfold post_char, re_sub_non_alnum. intros H.
  apply list_elem_of_fmap in H as (ch & -> & _).
  destruct (is_AZ09 ch) eqn:Ha; [by left|].
  destruct (is_space ch) eqn:Hs; simpl; [by right|by right].
Qed.

Lemma canon_char_chars c x :
  x ∈ canon_char c → is_AZ09 x = true ∨ is_space x = true.
Proof.
  unfold canon_char. rewrite list_elem_of_In, in_flat_map.
  intros (y & _ & Hx). apply list_elem_of_In in Hx. eauto using post_char_chars.
Qed.





Lemma split_aux_chars s c :
  (c ∈ (split_aux s).1 → c ∈ s)
  ∧ (∀ t, t ∈ (split_aux s).2 → c ∈ t → c ∈ s).
Proof.
  induction s as [|x s [IH1 IH2]]; simpl.
  - split; [done|]. intros t Ht. by apply elem_of_nil in Ht.
  - destruct (split_aux s) as [t ts]. simpl in *.
    destruct (is_space x); simpl.
    + split; [intros H; by apply elem_of_nil in H|].
      intros t' Ht' Hc. apply elem_of_cons. right.
      destruct t as [|y t]; simpl in Ht'; [eauto|].
      apply elem_of_cons in Ht' as [->|Ht']; eauto.
    + split.
      * intros H. apply elem_of_cons in H as [->|H]; [left|right; auto].
      * intros t' Ht' Hc. right. eauto.
Qed.

Lemma split_chars s t c : t ∈ split s → c ∈ t → c ∈ s.
Proof.
  unfold split. pose proof (split_aux_chars s c) as [H1 H2].
  destruct (split_aux s) as [t' ts]. simpl in *.
  destruct t' as [|y t']; simpl; [eauto|].
  intros Ht Hc. apply elem_of_cons in Ht as [->|Ht]; eauto.
Qed.

Lemma normalize_tokens_py_str o :
  normalize_tokens o = split (map blanco (flat_map canon_char (py_str o))).
Proof. by rewrite <- normalize_tokens_str. Qed.

Lemma normalize_tokens_es_token o t : t ∈ normalize_tokens o → es_token t.
Proof.
  rewrite normalize_tokens_py_str. intros Ht.
  pose proof (split_tokens (map blanco (flat_map canon_char (py_str o)))) as H.
  rewrite Forall_forall in H. destruct (H t Ht) as [Hne Hsp].
  split; [done|]. apply Forall_forall. intros c Hc.
  pose proof (split_chars _ _ _ Ht Hc) as Hin.
  apply list_elem_of_fmap in Hin as (y & -> & Hy).
  apply list_elem_of_In, in_flat_map in Hy as (z & _ & Hy).
  apply list_elem_of_In, canon_char_chars in Hy.
  unfold sin_espacios in Hsp. rewrite Forall_forall in Hsp.
  specialize (Hsp _ Hc). rewrite is_space_blanco in Hsp.
  destruct Hy as [Hy|Hy]; [|congruence].
  unfold blanco. by rewrite Hsp.
Qed.

Lemma normalize_elem_es_token o t : t ∈ _normalize_to_token_set o → es_token t.
Proof.
  unfold _normalize_to_token_set. destruct (isna_or_empty o); [set_solver|].
  rewrite elem_of_list_to_set. apply normalize_tokens_es_token.
Qed.

Lemma split_aux_token t r :
  Forall (λ c, is_AZ09 c = true) t →
  split_aux (t ++ r) = (t ++ (split_aux r).1, (split_aux r).2).
Proof.
  induction 1 as [|c t Hc _ IH]; simpl.
  - by destruct (split_aux r).
  - rewrite IH. by rewrite (AZ09_no_space c Hc).
Qed.

Lemma split_join (toks : list pystr) :
  Forall es_token toks → split (join [32%N] toks) = toks.
Proof.
  induction 1 as [|t ts [Hne Ht] Hts IH]; [done|].
  destruct ts as [|t' ts].
  - simpl. unfold split. rewrite <- (app_nil_r t) at 1.
    rewrite split_aux_token by done. simpl. rewrite app_nil_r.
    by destruct t.
  - change (join [32%N] (t :: t' :: ts))
      with (t ++ [32%N] ++ join [32%N] (t' :: ts)).
    unfold split in *. rewrite split_aux_token by done.
    cbn [app split_aux]. destruct (split_aux (join [32%N] (t' :: ts))) as [u us].
    change (is_space 32) with true. cbn [fst snd]. rewrite app_nil_r, IH.
    by destruct t.
Qed.

Lemma canon_join_tokens (toks : list pystr) :
  Forall es_token toks →
  map blanco (flat_map canon_char (join [32%N] toks)) = join [32%N] toks.
Proof.
  intros H.
  assert (Forall (λ c, is_AZ09 c = true ∨ c = 32%N) (join [32%N] toks)) as Hc.
  { induction H as [|t ts [_ Ht] _ IH]; [constructor|].
    assert (Forall (λ c, is_AZ09 c = true ∨ c = 32%N) t) as Ht'
      by (eapply Forall_impl; [exact Ht|]; auto).
    destruct ts as [|t' ts]; [done|].
    change (join [32%N] (t :: t' :: ts))
      with (t ++ [32%N] ++ join [32%N] (t' :: ts)).
    apply Forall_app. split; [done|]. apply Forall_cons. split; [by right|done]. }
  induction Hc as [|c l Hc _ IH]; [done|]. cbn [flat_map].
  rewrite map_app, IH. destruct Hc as [Hc| ->].
  - rewrite canon_char_alnum_id by done. simpl. unfold blanco.
    by rewrite (AZ09_no_space c Hc).
  - done.
Qed.

(** *** Claims about the name normalizer *)




(** C10, as stated, fails: the normalizer applied to its own result reads the
    frozenset through [str], whose text "frozenset({'JUAN'})" brings the
    token FROZENSET. *)
Lemma normalize_of_its_result_differs :
  _normalize_to_token_set (PyStr (s2t "JUAN")) = {[ s2t "JUAN" ]}
  ∧ _normalize_to_token_set (PyFrozenset [s2t "JUAN"])
    = {[ s2t "FROZENSET"; s2t "JUAN" ]}
  ∧ bool_decide (_normalize_to_token_set (PyFrozenset [s2t "JUAN"])
                 = _normalize_to_token_set (PyStr (s2t "JUAN"))) = false.
Proof. repeat split; vm_compute; reflexivity. Qed.

(** C10 (amended): normalizing the text made of the tokens of
    [normalize(x)], joined by blanks in any order, gives [normalize(x)]
    again; and the token set does not depend on the order of the words:
    normalize("PEREZ JUAN") = normalize("JUAN PEREZ"). *)
Theorem normalize_idempotent_on_tokens (x : pyobj) (iter : list pystr)
    (H : list_to_set iter = _normalize_to_token_set x) :
  _normalize_to_token_set (PyStr (join [32%N] iter)) = _normalize_to_token_set x
  ∧ _normalize_to_token_set (PyStr (s2t "PEREZ JUAN"))
    = _normalize_to_token_set (PyStr (s2t "JUAN PEREZ")).
Proof.
  split; [|vm_compute; reflexivity].
  assert (Forall es_token iter) as Htok.
  { apply Forall_forall. intros t Ht. apply (normalize_elem_es_token x).
    rewrite <- H. by apply elem_of_list_to_set. }
  by rewrite normalize_str, canon_join_tokens, split_join.
Qed.

Lemma normalize_idempotent_on_tokens_witness :
  _normalize_to_token_set (PyStr (s2t "JUAN PEREZ"))
  = _normalize_to_token_set (PyStr (s2t "  perez, Juan ")).
Proof.
  apply (normalize_idempotent_on_tokens (PyStr (s2t "  perez, Juan "))
           [s2t "JUAN"; s2t "PEREZ"]).
  vm_compute; reflexivity.
Defined.

(** ** The family resolver *)

Lemma find_first {A} (f : A → bool) (l : list A) (i : nat) (x : A) :
  l !! i = Some x → f x = true →
  (∀ j y, (j < i)%nat → l !! j = Some y → f y = false) →
  List.find f l = Some x.
Proof.
  revert i. induction l as [|a l IH]; intros i Hi Hx Hlt; [done|].
  destruct i as [|i]; simpl in *.
  - injection Hi as ->. by rewrite Hx.
  - rewrite (Hlt 0%nat a) by (done || lia).
    apply (IH i); [done..|]. intros j y Hj Hy. apply (Hlt (S j)); [lia|done].
Qed.

Lemma find_none_all {A} (f : A → bool) (l : list A) :
  (∀ x, x ∈ l → f x = false) → List.find f l = None.
Proof.
  induction l as [|a l IH]; intros H; [done|]. simpl.
  rewrite (H a) by left. apply IH. intros x Hx. apply H. by right.
Qed.

Lemma find_some_first {A} (f : A → bool) (l : list A) (x : A) :
  List.find f l = Some x →
  ∃ i, l !! i = Some x ∧ f x = true
       ∧ ∀ j y, (j < i)%nat → l !! j = Some y → f y = false.
Proof.
  induction l as [|a l IH]; [done|]. simpl. destruct (f a) eqn:Ha.
  - intros [= ->]. exists 0%nat. repeat split; [done|]. intros; lia.
  - intros H. destruct (IH H) as (i & Hi & Hx & Hlt). exists (S i).
    repeat split; [done..|]. intros [|j] y Hj Hy; simpl in Hy.
    + by injection Hy as <-.
    + apply (Hlt j); [lia|done].
Qed.

Lemma find_none_inv {A} (f : A → bool) (l : list A) (x : A) :
  List.find f l = None → x ∈ l → f x = false.
Proof.
  intros H Hx. apply list_elem_of_In in Hx. by apply (find_none f l H).
Qed.

Lemma elem_of_insert_sorted {A} (leb : A → A → bool) x y l :
  y ∈ insert_sorted leb x l ↔ y = x ∨ y ∈ l.
Proof.
  induction l as [|a l IH]; simpl.
  - rewrite list_elem_of_singleton. split; [by left|]. intros [?|H]; [done|].
    by apply elem_of_nil in H.
  - destruct (leb x a).
    + by rewrite elem_of_cons.
    + rewrite !elem_of_cons, IH. tauto.
Qed.

Lemma elem_of_sort_by {A} (leb : A → A → bool) y l :
  y ∈ sort_by leb l ↔ y ∈ l.
Proof.
  unfold sort_by. induction l as [|a l IH]; simpl; [done|].
  by rewrite elem_of_insert_sorted, elem_of_cons, IH.
Qed.

Lemma tokens_coinciden_iff (q t : gset pystr) :
  tokens_coinciden q t = true ↔ q = t ∨ q ⊆ t ∨ t ⊆ q.
Proof.
  unfold tokens_coinciden. rewrite !orb_true_iff, !bool_decide_eq_true. tauto.
Qed.

Lemma fila_coincide_iff fam q familia :
  fila_coincide fam q familia = true ↔ slot_coincide fam q familia.
Proof.
  unfold fila_coincide, slot_coincide. rewrite existsb_exists. split.
  - intros (col & Hcol & H). apply list_elem_of_In in Hcol.
    unfold columnas_persona in Hcol.
    apply elem_of_sort_by, list_elem_of_filter in Hcol as [Hp Hcol].
    unfold celda_coincide in H.
    destruct (loc (df_columns fam) (f_celdas familia) col) as [s|] eqn:Hs; [|done].
    exists col, s. destruct (bool_decide_reflect (_normalize_to_token_set (PyStr s) = ∅)); [done|].
    apply tokens_coinciden_iff in H. split_and!; try done.
    by apply Is_true_true.
  - intros (col & s & Hcol & Hp & Hs & Hne & H). exists col. split.
    + apply list_elem_of_In. unfold columnas_persona.
      apply elem_of_sort_by, list_elem_of_filter. split; [by apply Is_true_true|done].
    + unfold celda_coincide. rewrite Hs.
      rewrite bool_decide_eq_false_2 by done. by apply tokens_coinciden_iff.
Qed.

Lemma fila_coincide_false fam q familia :
  fila_coincide fam q familia = false ↔ ¬ slot_coincide fam q familia.
Proof.
  rewrite <- fila_coincide_iff. destruct (fila_coincide fam q familia); split; congruence.
Qed.

(** C3, as stated, fails: a slot whose text has no token (here ".") has the
    empty token set, which is contained in every query's, yet the resolver
    passes over it and returns the code of a later household. *)
Lemma obtener_familia_skips_slot_without_tokens :
  tokens_coinciden (_normalize_to_token_set (PyStr (s2t "JUAN")))
                   (_normalize_to_token_set (PyStr (s2t "."))) = true
  ∧ _obtener_familia_por_persona
      (mkFamiliasDF [s2t "Persona_1"]
         [mkFamilia (s2t "F1") [Some (s2t ".")];
          mkFamilia (s2t "F2") [Some (s2t "JUAN")]])
      (Some (s2t "JUAN")) = s2t "F2".
Proof. split; vm_compute; reflexivity. Qed.

(** C3 (amended): the resolver returns 'No identificada' when the name is
    empty or absent; otherwise the household code of the first registry row
    having a person slot whose token set is not empty and equals, contains or
    is contained in the query's token set; and 'No encontrada' when no row
    has such a slot.  When no household code is itself one of the two
    sentinel texts, each of the two sentinels is returned exactly in its
    case. *)
Theorem obtener_familia_por_persona_spec (fam : FamiliasDF)
    (nombre_persona : option pystr) :
  (isna_or_empty (celda nombre_persona) = true →
     _obtener_familia_por_persona fam nombre_persona = No_identificada)
  ∧ (isna_or_empty (celda nombre_persona) = false →
     (∀ i familia,
        df_filas fam !! i = Some familia →
        slot_coincide fam (_normalize_to_token_set (celda nombre_persona)) familia →
        (∀ j f', (j < i)%nat → df_filas fam !! j = Some f' →
           ¬ slot_coincide fam (_normalize_to_token_set (celda nombre_persona)) f') →
        _obtener_familia_por_persona fam nombre_persona = f_Codigo familia)
     ∧ ((∀ familia, familia ∈ df_filas fam →
           ¬ slot_coincide fam (_normalize_to_token_set (celda nombre_persona)) familia) →
        _obtener_familia_por_persona fam nombre_persona = No_encontrada))
  ∧ (Forall (λ f, f_Codigo f ≠ No_identificada ∧ f_Codigo f ≠ No_encontrada)
            (df_filas fam) →
     (_obtener_familia_por_persona fam nombre_persona = No_identificada
        ↔ isna_or_empty (celda nombre_persona) = true)
     ∧ (_obtener_familia_por_persona fam nombre_persona = No_encontrada
        ↔ isna_or_empty (celda nombre_persona) = false
          ∧ ∀ familia, familia ∈ df_filas fam →
              ¬ slot_coincide fam (_normalize_to_token_set (celda nombre_persona)) familia)).
Proof.
  unfold _obtener_familia_por_persona.
  destruct (isna_or_empty (celda nombre_persona)) eqn:Hna.
  - split; [done|]. split; [done|]. intros _. split; [done|].
    split; [done|]. by intros [? _].
  - split; [done|]. split.
    + intros _. split.
      * intros i familia Hi Hm Hlt.
        rewrite (find_first _ _ i familia); [done..| |].
        -- by apply fila_coincide_iff.
        -- intros j y Hj Hy. apply fila_coincide_false. eauto.
      * intros Hno. rewrite find_none_all; [done|].
        intros x Hx. apply fila_coincide_false. auto.
    + intros Hcod. rewrite Forall_forall in Hcod.
      destruct (List.find _ (df_filas fam)) as [familia|] eqn:Hfind.
      * apply find_some_first in Hfind as (i & Hi & Hm & _).
        assert (familia ∈ df_filas fam) as Hin by by eapply list_elem_of_lookup_2.
        destruct (Hcod _ Hin) as [H1 H2]. split; [done|].
        split; [done|]. intros [_ Hno]. apply fila_coincide_iff in Hm.
        by apply Hno in Hm.
      * split; [done|]. split; [|done]. intros _. split; [done|].
        intros familia Hin. apply fila_coincide_false.
        by eapply find_none_inv.
Qed.

Lemma obtener_familia_por_persona_spec_witness :
  _obtener_familia_por_persona familias_ejemplo (Some (s2t "PEREZ JUAN")) = s2t "F1"
  ∧ _obtener_familia_por_persona familias_ejemplo (Some (s2t "")) = No_identificada
  ∧ _obtener_familia_por_persona familias_ejemplo (Some (s2t "NADIE EXISTE"))
    = No_encontrada.
Proof.
  split; [|split].
  - apply (proj1 (proj1 (proj2 (obtener_familia_por_persona_spec familias_ejemplo
             (Some (s2t "PEREZ JUAN")))) eq_refl) 0%nat
             (mkFamilia (s2t "F1") [Some (s2t "JUAN PEREZ"); Some (s2t "MARIA PEREZ")])
             eq_refl).
    + apply fila_coincide_iff. vm_compute. reflexivity.
    + intros j f' Hj. lia.
  - apply (proj1 (obtener_familia_por_persona_spec familias_ejemplo (Some (s2t "")))).
    reflexivity.
  - apply (proj2 (proj1 (proj2 (obtener_familia_por_persona_spec familias_ejemplo
             (Some (s2t "NADIE EXISTE")))) eq_refl)).
    intros familia Hin. apply fila_coincide_false.
    unfold familias_ejemplo in Hin. cbn [df_filas] in Hin.
    apply elem_of_cons in Hin as [->|Hin]; [vm_compute; reflexivity|].
    apply elem_of_cons in Hin as [->|Hin]; [vm_compute; reflexivity|].
    by apply elem_of_nil in Hin.
Defined.

(** ** Pass 3 *)

Lemma truthy_iff o : truthy o = true ↔ ∃ cod, o = Some cod ∧ cod ≠ [].
Proof.
  destruct o as [[|c cod]|]; simpl; split; try done.
  - by intros (cod & [= <-] & H).
  - intros _. by eexists.
  - by intros (cod & ? & _).
Qed.

Lemma factura_coincide_p3_iff fam op_banco factura :
  factura_coincide_p3 fam op_banco
    (_validar_pertenencia_familia fam (Some (b_Nombre op_banco))) factura = true
  ↔ factura_apta fam op_banco factura.
Proof.
  unfold factura_coincide_p3, factura_apta, diff_dias_p3, dias_le_1.
  rewrite !andb_true_iff, truthy_iff, bool_decide_eq_true. split.
  - intros [[[(cod & Hc & Hne) Heq] Hm] Hd].
    destruct (b_Fecha op_banco) as [fb|], (v_Fecha factura) as [ff|]; try done.
    exists cod, fb, ff. apply Z.leb_le in Hd. split_and!; try done; [congruence|lia..].
  - intros (cod & fb & ff & Hp & Hne & Hc & Hm & -> & -> & Hd).
    split_and!; [by exists cod|congruence|done|]. apply Z.leb_le. lia.
Qed.

Lemma validar_pertenece fam nombre cod :
  _validar_pertenencia_familia fam (Some nombre) = Some cod →
  pertenece_por_subcadena fam nombre cod.
Proof.
  unfold _validar_pertenencia_familia. destruct nombre as [|c n]; [done|].
  destruct (List.find _ _) as [row|] eqn:Hfind; [|done]. intros [= <-].
  apply find_some_first in Hfind as (i & Hi & Hrow & _).
  unfold fila_contiene in Hrow. apply existsb_exists in Hrow as (col & Hcol & H).
  apply list_elem_of_In, list_elem_of_filter in Hcol as [Hp Hcol].
  destruct (loc _ _ col) as [x|] eqn:Hx; [|done].
  exists row, col, x. split_and!; try done.
  - by eapply list_elem_of_lookup_2.
  - by apply Is_true_true.
Qed.

(** C6, as stated, fails at the tolerance and at the date window.  (1) An
    operation of 0.02 and an invoice of 0.01, same household and date: the
    amounts are within 0.01 of each other (pass 4's own test accepts them),
    but pass 3 compares with a strict "<" and emits nothing.  (2) An invoice
    stamped at noon two calendar days before the operation is linked: its
    distance rounds down to one whole day. *)
Lemma grupo_familiar_boundary_cases :
  acepta 0.01 0.02 = true
  ∧ matcheo_por_grupo_familiar familias_ejemplo
      [mkVenta (Some (5 * NS_POR_DIA)) (Some (s2t "JUAN PEREZ")) 0.01 (s2t "A") (s2t "010")]
      [mkOperacion (Some (5 * NS_POR_DIA)) (s2t "MARIA PEREZ") 0.02] [] = []
  ∧ (5 * NS_POR_DIA) / NS_POR_DIA - (3 * NS_POR_DIA + NS_POR_DIA / 2) / NS_POR_DIA = 2
  ∧ map r_Factura
      (matcheo_por_grupo_familiar familias_ejemplo
         [mkVenta (Some (3 * NS_POR_DIA + NS_POR_DIA / 2)) (Some (s2t "JUAN PEREZ"))
                  100 (s2t "A") (s2t "010")]
         [mkOperacion (Some (5 * NS_POR_DIA)) (s2t "MARIA PEREZ") 100] [])
    = [s2t "A"].
Proof. repeat split; vm_compute; reflexivity. Qed.

(** C6 (amended): for a transaction whose key is not in the consumed set and
    whose payer resolves to a household by substring containment of the payer
    name in a person-slot text, pass 3 emits at most one Match Record, tagged
    'Grupo Familiar': it links the first invoice, in table order, whose
    client resolves to the same household, whose amount differs from the
    transaction's by strictly less than 0.01, and whose timestamp difference
    to the transaction, rounded down to whole days, is -1, 0 or 1; the key is
    then consumed and no further invoice is scanned.  When no invoice
    qualifies, nothing is emitted and nothing is consumed. *)
Theorem grupo_familiar_first_invoice (fam : FamiliasDF) (ventas_df : list Venta)
    (matched_ops : list text_key) (matches_nuevos : list Match)
    (op_banco : Operacion)
    (Hkey : in_ops (clave_texto_banco op_banco) matched_ops = false)
    (Hfam : truthy (_validar_pertenencia_familia fam (Some (b_Nombre op_banco))) = true) :
  (∃ cod, _validar_pertenencia_familia fam (Some (b_Nombre op_banco)) = Some cod
          ∧ pertenece_por_subcadena fam (b_Nombre op_banco) cod)
  ∧ ((paso_op_p3 fam ventas_df (matched_ops, matches_nuevos) op_banco
        = (matched_ops, matches_nuevos)
      ∧ ∀ factura, factura ∈ ventas_df → ¬ factura_apta fam op_banco factura)
     ∨ (∃ i factura r,
          ventas_df !! i = Some factura
          ∧ factura_apta fam op_banco factura
          ∧ (∀ j f', (j < i)%nat → ventas_df !! j = Some f' →
               ¬ factura_apta fam op_banco f')
          ∧ paso_op_p3 fam ventas_df (matched_ops, matches_nuevos) op_banco
            = (clave_texto_banco op_banco :: matched_ops, matches_nuevos ++ [r])
          ∧ r_Tipo_Match r = Grupo_Familiar
          ∧ r_Factura r = v_Factura factura
          ∧ r_Monto_Factura r = v_Monto factura
          ∧ clave_cruda_resultado r = clave_cruda_banco op_banco)).
Proof.
  split.
  - apply truthy_iff in Hfam as (cod & Hc & _). exists cod. split; [done|].
    by apply validar_pertenece.
  - unfold paso_op_p3. rewrite Hkey, Hfam. cbn [negb].
    destruct (List.find _ ventas_df) as [factura|] eqn:Hfind.
    + right. apply find_some_first in Hfind as (i & Hi & Hc & Hlt).
      exists i, factura, (match_grupo_familiar op_banco
        (_validar_pertenencia_familia fam (Some (b_Nombre op_banco))) factura).
      split_and!; try done.
      * by apply factura_coincide_p3_iff.
      * intros j f' Hj Hf' Hap. apply factura_coincide_p3_iff in Hap.
        rewrite (Hlt j f' Hj Hf') in Hap. done.
    + left. split; [done|]. intros factura Hin Hap.
      apply factura_coincide_p3_iff in Hap.
      by rewrite (find_none_inv _ _ _ Hfind Hin) in Hap.
Qed.

Lemma grupo_familiar_first_invoice_witness :
  ∃ r, paso_op_p3 familias_ejemplo
         [mkVenta (Some (5 * NS_POR_DIA)) (Some (s2t "ANA GOMEZ")) 100 (s2t "A") (s2t "010");
          mkVenta (Some (4 * NS_POR_DIA)) (Some (s2t "JUAN PEREZ")) 250 (s2t "B") (s2t "010");
          mkVenta (Some (5 * NS_POR_DIA)) (Some (s2t "JUAN PEREZ")) 250 (s2t "C") (s2t "010")]
         ([], []) (mkOperacion (Some (5 * NS_POR_DIA)) (s2t "Maria Perez") 250)
       = ([clave_texto_banco (mkOperacion (Some (5 * NS_POR_DIA)) (s2t "Maria Perez") 250)], [r])
       ∧ r_Factura r = s2t "B".
Proof.
  destruct (grupo_familiar_first_invoice familias_ejemplo
    [mkVenta (Some (5 * NS_POR_DIA)) (Some (s2t "ANA GOMEZ")) 100 (s2t "A") (s2t "010");
     mkVenta (Some (4 * NS_POR_DIA)) (Some (s2t "JUAN PEREZ")) 250 (s2t "B") (s2t "010");
     mkVenta (Some (5 * NS_POR_DIA)) (Some (s2t "JUAN PEREZ")) 250 (s2t "C") (s2t "010")]
    [] [] (mkOperacion (Some (5 * NS_POR_DIA)) (s2t "Maria Perez") 250)
    eq_refl eq_refl) as [_ [[H _]|(i & factura & r & Hi & _ & _ & H & _ & Hf & _)]].
  - vm_compute in H. discriminate H.
  - exists (match_grupo_familiar (mkOperacion (Some (5 * NS_POR_DIA)) (s2t "Maria Perez") 250)
              (Some (s2t "F1"))
              (mkVenta (Some (4 * NS_POR_DIA)) (Some (s2t "JUAN PEREZ")) 250 (s2t "B") (s2t "010"))).
    split; vm_compute; reflexivity.
Defined.

(** ** Keys and the consumed set *)

Lemma SFeqb_refl_l (a b : SpecFloat.spec_float) :
  SpecFloat.SFeqb a b = true → SpecFloat.SFeqb a a = true.
Proof.
  unfold SpecFloat.SFeqb, SpecFloat.SFcompare.
  destruct a as [[]| [] | |[] m e], b as [[]| [] | |[] m' e']; try done; intros _;
    rewrite Z.compare_refl, ?Pos.compare_refl; by rewrite ?Pos.compare_cont_refl.
Qed.

Lemma float_eqb_refl_l (x y : float) :
  PrimFloat.eqb x y = true → PrimFloat.eqb x x = true.
Proof. rewrite !FloatAxioms.eqb_spec. apply SFeqb_refl_l. Qed.

Section claves.
Context {F : Type} `{EqDecision F}.
Implicit Types (k : F * pystr * float) (ops : list (F * pystr * float))
  (clave : Match → F * pystr * float).

Lemma key_eqb_refl_monto k :
  PrimFloat.eqb k.2 k.2 = true → key_eqb k k = true.
Proof.
  destruct k as [[f n] m]. simpl. intros ->.
  by rewrite !bool_decide_eq_true_2.
Qed.

Lemma in_ops_false k ops k' :
  in_ops k ops = false → k' ∈ ops → key_eqb k k' = false.
Proof.
  unfold in_ops. intros H1 Hin. apply list_elem_of_In in Hin.
  destruct (key_eqb k k') eqn:E; [|done].
  assert (existsb (key_eqb k) ops = true) by (apply existsb_exists; eauto).
  congruence.
Qed.

Lemma in_ops_false_all k ops :
  (∀ k', k' ∈ ops → key_eqb k k' = false) → in_ops k ops = false.
Proof.
  unfold in_ops. induction ops as [|a ops IH]; intros H1; [done|]. simpl.
  rewrite (H1 a) by left. apply IH. intros k' Hk'. apply H1. by right.
Qed.

Lemma in_ops_cons k k' ops :
  in_ops k (k' :: ops) = key_eqb k k' || in_ops k ops.
Proof. done. Qed.

Lemma in_ops_app k ops1 ops2 :
  in_ops k (ops1 ++ ops2) = in_ops k ops1 || in_ops k ops2.
Proof. apply existsb_app. Qed.

Lemma in_ops_rev k ops : in_ops k (rev ops) = in_ops k ops.
Proof.
  unfold in_ops. induction ops as [|x a IH]; [done|]. simpl.
  rewrite existsb_app, IH. simpl. rewrite orb_false_r. apply orb_comm.
Qed.

Lemma claves_frescas_snoc clave n R r :
  claves_frescas clave n R →
  in_ops (clave r) (map clave R) = false →
  claves_frescas clave n (R ++ [r]).
Proof.
  intros HR Hr i j ri rj Hij Hn Hi Hj.
  destruct (decide (j < length R)%nat) as [Hlt|Hge].
  - rewrite lookup_app_l in Hi, Hj by lia. eauto.
  - assert (j = length R) as ->.
    { apply lookup_lt_Some in Hj. rewrite length_app in Hj. simpl in Hj. lia. }
    rewrite lookup_app_l in Hi by lia.
    rewrite lookup_app_r, Nat.sub_diag in Hj by lia. injection Hj as <-.
    eapply in_ops_false; [done|]. apply list_elem_of_fmap. exists ri.
    split; [done|]. by eapply list_elem_of_lookup_2.
Qed.

Lemma claves_frescas_base clave R : claves_frescas clave (length R) R.
Proof.
  intros i j ri rj Hij Hn Hi Hj. apply lookup_lt_Some in Hj. lia.
Qed.
End claves.

Lemma select_map {A} (f : A → bool) (rows : list A) :
  select (map f rows) rows = filter (λ b, f b) rows.
Proof.
  unfold select. induction rows as [|x rows IH]; [done|]. cbn [map zip zip_with].
  rewrite !filter_cons. cbn [fst]. destruct (f x); simpl.
  - f_equal. apply IH.
  - apply IH.
Qed.

(** ** Pass 2 *)

(** The loop over [coincidencias], for any way [mk] of building the record
    of an operation that keeps the operation's key. *)
Lemma registrar_coincidencias_spec (mk : Operacion → Match) (P : Match → Prop)
    (prev : list Match) cs ops nuevos ops' nuevos' :
  (∀ b, clave_resultado (mk b) = clave_banco b) →
  (∀ b, b ∈ cs → P (mk b)) →
  ops = rev (map clave_resultado nuevos) ++ map clave_resultado prev →
  Forall P nuevos →
  claves_frescas clave_resultado (length prev) (prev ++ nuevos) →
  registrar_coincidencias mk cs ops nuevos = (ops', nuevos') →
  ops' = rev (map clave_resultado nuevos') ++ map clave_resultado prev
  ∧ Forall P nuevos'
  ∧ claves_frescas clave_resultado (length prev) (prev ++ nuevos')
  ∧ (∀ k, in_ops k ops = true → in_ops k ops' = true)
  ∧ (∀ b, b ∈ cs → PrimFloat.eqb (b_Monto b) (b_Monto b) = true →
       in_ops (clave_banco b) ops' = true).
Proof.
  intros Hmk. unfold registrar_coincidencias.
  revert ops nuevos. induction cs as [|b cs IH]; intros ops nuevos HP Hops HF Hfr Hreg.
  - simpl in Hreg. injection Hreg as <- <-. split_and!; try done.
    intros b Hb. by apply elem_of_nil in Hb.
  - simpl in Hreg. destruct (in_ops (clave_banco b) ops) eqn:Hin.
    + destruct (IH ops nuevos) as (H1 & H2 & H3 & H4 & H5); try done.
      { intros b' Hb'. apply HP. by right. }
      split_and!; try done. intros b' Hb' Hm.
      apply elem_of_cons in Hb' as [->|Hb']; [by apply H4|by apply H5].
    + destruct (IH (clave_banco b :: ops) (nuevos ++ [mk b]))
        as (H1 & H2 & H3 & H4 & H5); try done.
      { intros b' Hb'. apply HP. by right. }
      { rewrite map_app, rev_app_distr. simpl. by rewrite Hmk, Hops. }
      { apply Forall_app. split; [done|]. constructor; [|done]. apply HP. by left. }
      { rewrite app_assoc. apply claves_frescas_snoc; [done|].
        rewrite Hmk. rewrite map_app, in_ops_app, orb_comm.
        rewrite <- in_ops_rev, <- in_ops_app. by rewrite <- Hops. }
      split_and!; try done.
      * intros k Hk. apply H4. rewrite in_ops_cons, Hk. apply orb_true_r.
      * intros b' Hb' Hm. apply elem_of_cons in Hb' as [->|Hb']; [|by apply H5].
        apply H4. rewrite in_ops_cons, key_eqb_refl_monto; done.
Qed.

Lemma registrar_coincidencias_nada mk cs ops nuevos :
  (∀ b, b ∈ cs → in_ops (clave_banco b) ops = true) →
  registrar_coincidencias mk cs ops nuevos = (ops, nuevos).
Proof.
  unfold registrar_coincidencias. induction cs as [|b cs IH]; intros H; [done|].
  simpl. rewrite (H b) by left. apply IH. intros b' Hb'. apply H. by right.
Qed.

Lemma foldM_inv {A B} (f : B → A → result B) (I : B → Prop) (Q : A → Prop)
    (l : list A) (b b' : B) :
  (∀ b a b', I b → Q a → f b a = Ok b' → I b') →
  Forall Q l → I b → foldM f b l = Ok b' → I b'.
Proof.
  intros Hstep HQ. revert b. induction HQ as [|a l Ha _ IH]; intros b Hb; simpl.
  - by intros [= <-].
  - destruct (f b a) as [b1|e] eqn:Hf; [|done]. simpl. eauto.
Qed.

Lemma fila_valida_spec fam ventas_df i v x :
  ventas_df !! i = Some v → fila_valida fam (i, v) = Some x →
  vv_label x = i ∧ fila_de_venta fam ventas_df x.
Proof.
  intros Hi. unfold fila_valida.
  destruct (v_Fecha v) as [fecha|] eqn:Hf; [|done].
  destruct (v_Nombre_Cliente v) as [nombre|] eqn:Hn; [|done].
  destruct (PrimFloat.is_nan (v_Monto v)); [done|]. intros [= <-].
  split; [done|]. exists v. simpl. by rewrite Hn.
Qed.

Lemma ventas_validas_p2_spec fam ventas_df resultados x :
  x ∈ ventas_validas_p2 fam ventas_df resultados →
  fila_de_venta fam ventas_df x
  ∧ (vv_Factura x ∉ facturas_matcheadas resultados)
  ∧ vv_Codigo_Familia x ≠ No_encontrada
  ∧ vv_Codigo_Familia x ≠ No_identificada.
Proof.
  unfold ventas_validas_p2. intros H.
  apply list_elem_of_filter in H as [Hcod H].
  apply list_elem_of_omap in H as ([i v] & Hiv & Hx).
  apply list_elem_of_filter in Hiv as [Hfac Hiv].
  apply elem_of_lookup_imap in Hiv as (i' & v' & [= -> ->] & Hi).
  destruct (fila_valida_spec _ _ _ _ _ Hi Hx) as [Hl Hfila].
  split; [done|]. split.
  - destruct Hfila as (v0 & Hv0 & _ & _ & _ & Hfa & _).
    rewrite Hl, Hi in Hv0. injection Hv0 as <-. simpl in Hfac. by rewrite <- Hfa.
  - split; intros E; apply Hcod; rewrite E; set_solver.
Qed.

Lemma groupby_spec rows k grupo :
  (k, grupo) ∈ groupby rows →
  Forall (λ x, x ∈ rows ∧ clave_grupo x = k) grupo.
Proof.
  unfold groupby. intros H. apply list_elem_of_fmap in H as (k' & [= -> ->] & _).
  apply Forall_forall. intros x Hx. apply list_elem_of_filter in Hx as [? ?]. done.
Qed.

Lemma fecha_eqb_Some a f : fecha_eqb a (Some f) = true → a = Some f.
Proof. destruct a as [x|]; simpl; [|done]. intros H. apply Z.eqb_eq in H. by subst. Qed.

Lemma not_elem_of_flat_map_facturas resultados (f : pystr) :
  f ∉ facturas_matcheadas resultados →
  ∀ r0, r0 ∈ resultados → f ∉ facturas_de r0.
Proof.
  unfold facturas_matcheadas. intros H r0 Hr0 Hf. apply H.
  apply list_elem_of_In, in_flat_map. exists r0.
  split; by apply list_elem_of_In.
Qed.

Lemma paso_grupo_inv fam ventas_df banco_df resultados st k grupo st' :
  inv_p2 fam ventas_df banco_df resultados st →
  (k, grupo) ∈ groupby (ventas_validas_p2 fam ventas_df resultados) →
  paso_grupo fam (banco_disponible_p2 banco_df resultados) st (k, grupo) = Ok st' →
  inv_p2 fam ventas_df banco_df resultados st'.
Proof.
  intros (Hops & HF & Hfr & Hmask) Hg. apply groupby_spec in Hg.
  destruct k as [[fecha caja] cod]. unfold paso_grupo.
  destruct (length grupo <? 2)%nat eqn:Hlen.
  { intros [= <-]. done. }
  apply Nat.ltb_ge in Hlen.
  assert (hd cod (map vv_Codigo_Familia grupo) = cod) as ->.
  { destruct Hg as [|x ? [_ Hx] _]; [done|]. simpl. by injection Hx. }
  rewrite !select_map.
  set (bd := banco_disponible_p2 banco_df resultados) in *.
  set (total := suma (map vv_Monto grupo)).
  destruct (0 <? length (filter _ bd))%nat eqn:Hcand.
  - (* [mask] is assigned for this group *)
    rewrite select_map.
    destruct (registrar_coincidencias _ _ _ _) as [ops' nuevos'] eqn:Hreg.
    intros [= <-].
    eapply (registrar_coincidencias_spec _
              (enlace_multi fam ventas_df banco_df resultados) resultados)
      in Hreg as (H1 & H2 & H3 & H4 & H5); try done.
    + unfold inv_p2. cbn [e_mask e_matched_ops e_matches_nuevos].
      split_and!; try done. intros m [= <-] b Hb. rewrite select_map in Hb.
      apply H5; [done|]. apply list_elem_of_filter in Hb as [Hb _].
      apply Is_true_true, andb_true_iff in Hb as [Hb _].
      apply andb_true_iff in Hb as [_ Hb]. by eapply float_eqb_refl_l.
    + intros b Hb. apply list_elem_of_filter in Hb as [Hb Hbd].
      apply Is_true_true, andb_true_iff in Hb as [Hfm Hfa].
      apply andb_true_iff in Hfm as [Hfe Hmo]. apply fecha_eqb_Some in Hfe.
      apply bool_decide_eq_true in Hfa.
      apply list_elem_of_filter in Hbd as [Hkey Hbanco].
      apply Is_true_true, negb_true_iff in Hkey.
      split; [done|]. exists fecha, caja, cod, grupo, b.
      assert (Forall (λ x, fila_de_venta fam ventas_df x ∧ vv_Fecha x = fecha
                ∧ vv_Numero_Caja x = caja ∧ vv_Codigo_Familia x = cod
                ∧ ∀ r0, r0 ∈ resultados → vv_Factura x ∉ facturas_de r0) grupo) as Hgr.
      { eapply Forall_impl; [exact Hg|]. intros x [Hx Hk]. cbv beta.
        apply ventas_validas_p2_spec in Hx as (Hx1 & Hx2 & _).
        injection Hk as ? ? ?. split_and!; try done.
        by apply not_elem_of_flat_map_facturas. }
      assert (cod ≠ No_encontrada ∧ cod ≠ No_identificada) as [Hc1 Hc2].
      { destruct Hg as [|x ? [Hx Hk] _]; [simpl in Hlen; lia|].
        apply ventas_validas_p2_spec in Hx as (_ & _ & Hx3 & Hx4).
        injection Hk as _ _ <-. done. }
      split_and!; done.
  - (* no candidate: [mask] keeps what an earlier group left in it *)
    destruct (e_mask st) as [m|] eqn:Hm; [|done].
    rewrite registrar_coincidencias_nada by eauto.
    intros [= <-]. unfold inv_p2. cbn [e_mask e_matched_ops e_matches_nuevos].
    split_and!; try done.
Qed.

Lemma Forall_elem_of_self {A} (l : list A) : Forall (λ x, x ∈ l) l.
Proof. by apply Forall_forall. Qed.

Lemma multifacturas_inv fam ventas_df banco_df resultados res' :
  matcheo_multifacturas_misma_familia_dia_caja fam ventas_df banco_df resultados
    = Ok res' →
  ∃ nuevos, res' = resultados ++ nuevos
    ∧ Forall (enlace_multi fam ventas_df banco_df resultados) nuevos
    ∧ claves_frescas clave_resultado (length resultados) res'.
Proof.
  unfold matcheo_multifacturas_misma_familia_dia_caja.
  destruct (foldM _ _ _) as [st|e] eqn:Hfold; [|done]. intros [= <-].
  eapply (foldM_inv _ (inv_p2 fam ventas_df banco_df resultados)
            (λ g, g ∈ groupby (ventas_validas_p2 fam ventas_df resultados)))
    in Hfold as (_ & H2 & H3 & _).
  - by exists (e_matches_nuevos st).
  - intros b [k grupo] b' Hb Hg Hstep. by eapply paso_grupo_inv.
  - apply Forall_elem_of_self.
  - unfold inv_p2. cbn [e_mask e_matched_ops e_matches_nuevos].
    split_and!; try done.
    rewrite app_nil_r. apply claves_frescas_base.
Qed.

(** *** Claims about pass 2 *)







(** C8 is what the code should do and does not: when the first group of two
    or more invoices has no available operation with its date and total, the
    local [mask] is read before any assignment and the pass ends in
    UnboundLocalError (a NameError); when an earlier group did assign it, the
    selection of the later group reuses that earlier filter. *)
Theorem multifacturas_mask_unbound_or_stale :
  matcheo_multifacturas_misma_familia_dia_caja familias_ejemplo
    [venta_A; venta_B] [mkOperacion (dia 5) (s2t "Luis Gomez") 1000] []
  = Raise UnboundLocalError
  ∧ matcheo_multifacturas_misma_familia_dia_caja familias_ejemplo
      [venta_C; venta_D] [mkOperacion (dia 5) (s2t "Luis Gomez") 700] []
    = Raise UnboundLocalError
  ∧ e_mask <$> foldM (paso_grupo familias_ejemplo
                        [mkOperacion (dia 5) (s2t "Luis Gomez") 700])
                 (mkEstadoP2 None [] [])
                 (groupby (ventas_validas_p2 familias_ejemplo
                             [venta_A; venta_B; venta_C; venta_D] []))
    = Ok (Some [true])
  ∧ mask_fecha_monto (6 * NS_POR_DIA) (suma [100; 200]%float)
      (mkOperacion (dia 5) (s2t "Luis Gomez") 700) = false.
Proof. repeat split; vm_compute; reflexivity. Qed.

(** ** Pass 4 *)



(** C2 is what the code should do and does not at the marking step: the
    rows flagged as used are those whose labels in [ventas_validas] equal
    the positions of the combination in the sorted pool, not the member
    invoices.  Here the first operation takes invoices D and C (labels 3 and
    2) and flags the rows labelled 0 and 1, so the second operation of the
    family takes D and C again. *)
Theorem familia_marks_positions_not_members :
  r_Factura
    <$> filas (matcheo_multifacturas_misma_familia_mismo_dia_caja
                 familias_ejemplo [venta_J; venta_M; venta_300; venta_400]
                 [mkOperacion (dia 5) (s2t "Ana Gomez") 700;
                  mkOperacion (dia 5) (s2t "Luis Gomez") 700] [])
  = [s2t "D,C"; s2t "D,C"]
  ∧ (λ st, (λ xu : VentaValida * bool, (vv_Factura xu.1, xu.2))
             <$> e4_ventas_validas st)
      <$> paso_banco_p4 familias_ejemplo
            (mkEstadoP4 (ventas_validas_p4 familias_ejemplo
                           [venta_J; venta_M; venta_300; venta_400]) [] [])
            (mkOperacion (dia 5) (s2t "Ana Gomez") 700)
    = Ok [(s2t "J", true); (s2t "M", true); (s2t "C", false); (s2t "D", false)].
Proof. split; vm_compute; reflexivity. Qed.

(** ** The candidate pool and the enumeration of pass 4 *)










Lemma combinations_sublist {A} (l : list A) k c :
  c ∈ combinations l k → length c = k ∧ c `sublist_of` l.
Proof.
  revert k c. induction l as [|x l IH]; intros [|k] c; simpl.
  - intros H. apply list_elem_of_singleton in H as ->. done.
  - intros H. by apply elem_of_nil in H.
  - intros H. apply list_elem_of_singleton in H as ->. split; [done|].
    apply sublist_nil_l.
  - intros H. apply elem_of_app in H as [H|H].
    + apply list_elem_of_fmap in H as (c' & -> & Hc').
      destruct (IH _ _ Hc') as [<- Hs]. split; [done|]. by apply sublist_skip.
    + destruct (IH _ _ H) as [Hl Hs]. split; [done|]. by apply sublist_cons.
Qed.

Lemma combinations_complete {A} (l : list A) c :
  c `sublist_of` l → c ∈ combinations l (length c).
Proof.
  induction 1 as [|x c l _ IH|x c l _ IH].
  - by apply list_elem_of_singleton.
  - simpl. apply elem_of_app. left. apply list_elem_of_fmap. eauto.
  - destruct c as [|y c]; simpl.
    + destruct l; by apply list_elem_of_singleton.
    + apply elem_of_app. by right.
Qed.

Lemma combos_spec n c :
  c ∈ combos n ↔
  (2 ≤ length c ≤ Nat.min 8 n)%nat ∧ c `sublist_of` seq 0 n.
Proof.
  unfold combos. rewrite list_elem_of_In, in_flat_map. split.
  - intros (k & Hk & Hc). apply in_seq in Hk.
    apply list_elem_of_In, combinations_sublist in Hc as [<- Hs].
    split; [lia|done].
  - intros [Hl Hs]. exists (length c). split; [apply in_seq; lia|].
    by apply list_elem_of_In, combinations_complete.
Qed.








(** ** Freshness of the keys consumed by passes 3 and 4 *)

Lemma SFeqb_refl_r (a b : SpecFloat.spec_float) :
  SpecFloat.SFeqb a b = true → SpecFloat.SFeqb b b = true.
Proof.
  unfold SpecFloat.SFeqb, SpecFloat.SFcompare.
  destruct a as [[]| [] | |[] m e], b as [[]| [] | |[] m' e']; try done; intros _;
    rewrite Z.compare_refl, ?Pos.compare_refl; by rewrite ?Pos.compare_cont_refl.
Qed.

Lemma float_eqb_nan_r (x m : float) :
  PrimFloat.is_nan m = true → PrimFloat.eqb x m = false.
Proof.
  unfold PrimFloat.is_nan. intros H. apply negb_true_iff in H.
  destruct (PrimFloat.eqb x m) eqn:E; [|done].
  rewrite FloatAxioms.eqb_spec in E, H. apply SFeqb_refl_r in E. congruence.
Qed.

Lemma float_eqb_nan_l (x m : float) :
  PrimFloat.is_nan m = true → PrimFloat.eqb m x = false.
Proof.
  unfold PrimFloat.is_nan. intros H. apply negb_true_iff in H.
  destruct (PrimFloat.eqb m x) eqn:E; [|done].
  rewrite FloatAxioms.eqb_spec in E, H. apply SFeqb_refl_l in E. congruence.
Qed.

Lemma paso_op_p3_cases fam ventas_df ops nuevos op :
  paso_op_p3 fam ventas_df (ops, nuevos) op = (ops, nuevos)
  ∨ ∃ r, paso_op_p3 fam ventas_df (ops, nuevos) op
         = (clave_texto_banco op :: ops, nuevos ++ [r])
         ∧ in_ops (clave_texto_banco op) ops = false
         ∧ r_Tipo_Match r = Grupo_Familiar
         ∧ clave_texto_resultado r = clave_texto_banco op.
Proof.
  unfold paso_op_p3.
  destruct (in_ops (clave_texto_banco op) ops) eqn:Hin; [by left|].
  destruct (negb (truthy _)); [by left|].
  destruct (List.find _ ventas_df) as [factura|]; [|by left].
  right. by eexists.
Qed.

Lemma grupo_familiar_fold fam ventas_df ops0 banco_df ops nuevos ops' nuevos' :
  ops = rev (map clave_texto_resultado nuevos) ++ ops0 →
  Forall (λ r, r_Tipo_Match r = Grupo_Familiar) nuevos →
  claves_frescas clave_texto_resultado 0 nuevos →
  fold_left (paso_op_p3 fam ventas_df) banco_df (ops, nuevos) = (ops', nuevos') →
  Forall (λ r, r_Tipo_Match r = Grupo_Familiar) nuevos'
  ∧ claves_frescas clave_texto_resultado 0 nuevos'.
Proof.
  revert ops nuevos. induction banco_df as [|op banco_df IH];
    intros ops nuevos Hops HF Hfr; cbn [fold_left].
  - by intros [= <- <-].
  - destruct (paso_op_p3_cases fam ventas_df ops nuevos op)
      as [->|(r & -> & Hin & Ht & Hk)]; [by apply IH|].
    apply IH.
    + rewrite map_app, rev_app_distr. simpl. by rewrite Hops, Hk.
    + apply Forall_app. split; [done|]. by constructor.
    + apply claves_frescas_snoc; [done|]. rewrite Hk.
      rewrite Hops, in_ops_app, in_ops_rev in Hin.
      by apply orb_false_iff in Hin as [? _].
Qed.

Lemma str_timestamp_inj a b : str_timestamp a = str_timestamp b → a = b.
Proof. destruct a, b; simpl; congruence. Qed.

Lemma key_eqb_texto (r1 r2 : Match) :
  key_eqb (clave_texto_resultado r1) (clave_texto_resultado r2)
  = key_eqb (clave_cruda_resultado r1) (clave_cruda_resultado r2).
Proof.
  unfold clave_texto_resultado, clave_cruda_resultado. simpl. do 2 f_equal.
  apply bool_decide_ext. split; [apply str_timestamp_inj|congruence].
Qed.

(** Pass 3 appends records tagged 'Grupo Familiar'; each has a key (date,
    payer name as written, amount) that no record appended before it by the
    pass has. *)
Lemma grupo_familiar_inv fam ventas_df banco_df resultados :
  ∃ nuevos,
    matcheo_por_grupo_familiar fam ventas_df banco_df resultados
    = resultados ++ nuevos
    ∧ Forall (λ r, r_Tipo_Match r = Grupo_Familiar) nuevos
    ∧ claves_frescas clave_cruda_resultado 0 nuevos.
Proof.
  unfold matcheo_por_grupo_familiar.
  destruct (fold_left _ _ _) as [ops' nuevos'] eqn:Hfold. exists nuevos'.
  split; [done|].
  eapply (grupo_familiar_fold _ _ (claves_texto_resultados resultados))
    in Hfold as [H1 H2]; [|done|done|].
  - split; [done|]. intros i j ri rj Hij Hn Hi Hj.
    rewrite <- key_eqb_texto. eauto.
  - intros i j ri rj Hij Hn Hi Hj. done.
Qed.

(** X2: when no bank date of the results has a time of day, pass 3 finds
    none of their keys in its consumed set: [astype(str)] writes those dates
    as 'YYYY-MM-DD' and [str] writes the date of the operation as
    'YYYY-MM-DD HH:MM:SS'.  An operation that pass 1 matched is then matched
    again by pass 3. *)
Theorem grupo_familiar_misses_keys_of_plain_dates (resultados : list Match)
    (op_banco : Operacion) (ns : Z)
    (Hcol : solo_fechas (map r_Fecha_Banco resultados) = true)
    (Hop : b_Fecha op_banco = Some ns) :
  in_ops (clave_texto_banco op_banco) (claves_texto_resultados resultados) = false.
Proof.
  apply in_ops_false_all. intros k' Hk'. unfold claves_texto_resultados in Hk'.
  apply list_elem_of_fmap in Hk' as (r & -> & _).
  unfold clave_texto_banco, astype_str_fecha. rewrite Hop, Hcol.
  unfold key_eqb. simpl.
  rewrite bool_decide_eq_false_2; [done|]. by destruct (r_Fecha_Banco r).
Qed.

Lemma grupo_familiar_misses_keys_of_plain_dates_witness :
  map (λ r : Match, (r_Tipo_Match r, r_Factura r, clave_cruda_resultado r))
    (matcheo_por_grupo_familiar familias_ejemplo [venta_A]
       [mkOperacion (dia 5) (s2t "ANA GOMEZ") 300]
       (matcheo_exacto familias_ejemplo [venta_A]
          [mkOperacion (dia 5) (s2t "ANA GOMEZ") 300]))
  = [(EXACTO, s2t "A", (dia 5, s2t "ANA GOMEZ", 300%float));
     (Grupo_Familiar, s2t "A", (dia 5, s2t "ANA GOMEZ", 300%float))].
Proof.
  pose proof (grupo_familiar_misses_keys_of_plain_dates
                (matcheo_exacto familias_ejemplo [venta_A]
                   [mkOperacion (dia 5) (s2t "ANA GOMEZ") 300])
                (mkOperacion (dia 5) (s2t "ANA GOMEZ") 300) (5 * NS_POR_DIA)
                ltac:(vm_compute; reflexivity) eq_refl) as Hin.
  vm_compute. reflexivity.
Defined.

Lemma key_eqb_nan_r (k : op_key) f n m :
  PrimFloat.is_nan m = true → key_eqb k (f, n, m) = false.
Proof.
  destruct k as [[f' n'] m']. simpl. intros H.
  rewrite (float_eqb_nan_r m' m H). apply andb_false_r.
Qed.

Lemma key_eqb_nan_l (k : op_key) f n m :
  PrimFloat.is_nan m = true → key_eqb (f, n, m) k = false.
Proof.
  destruct k as [[f' n'] m']. simpl. intros H.
  rewrite (float_eqb_nan_l m' m H). apply andb_false_r.
Qed.

Lemma paso_banco_p4_inv fam prev st banco st' :
  inv_p4 prev st → paso_banco_p4 fam st banco = Ok st' → inv_p4 prev st'.
Proof.
  intros (HF & Hfr & Hcub). unfold paso_banco_p4.
  destruct (in_ops (clave_banco_p4 banco) (e4_matched_ops st)) eqn:Hin.
  { by intros [= <-]. }
  destruct (candidatos_p4 fam (e4_ventas_validas st) banco) as [cs|e]; [|done].
  cbn [mbind result_bind].
  destruct (length cs <? 2)%nat; [by intros [= <-]|].
  destruct (buscar_combinacion _ _) as [idxs|]; [|by intros [= <-]].
  destruct (marcar_usadas idxs (e4_ventas_validas st)) as [vv'|e]; [|done].
  cbn [mbind result_bind]. intros [= <-].
  unfold inv_p4. cbn [e4_matches_nuevos e4_matched_ops].
  set (m := match_familia fam banco _ _).
  assert (∀ k, in_ops k (clave_banco_p4 banco :: e4_matched_ops st) = false →
               key_eqb k (clave_resultado m) = false) as Hm.
  { intros k Hk. rewrite in_ops_cons in Hk. apply orb_false_iff in Hk as [Hk _].
    change (clave_resultado m)
      with (b_Fecha banco, strip (upper (b_Nombre banco)), b_Monto banco).
    unfold clave_banco_p4 in Hk.
    destruct (PrimFloat.is_nan (b_Monto banco)) eqn:Hnan; [|done].
    by apply key_eqb_nan_r. }
  split_and!.
  - apply Forall_app. split; [done|]. by constructor.
  - rewrite app_assoc. apply claves_frescas_snoc; [done|].
    apply in_ops_false_all. intros k' Hk'.
    apply list_elem_of_fmap in Hk' as (ri & -> & Hri).
    change (clave_resultado m)
      with (b_Fecha banco, strip (upper (b_Nombre banco)), b_Monto banco).
    destruct (PrimFloat.is_nan (b_Monto banco)) eqn:Hnan.
    + by apply key_eqb_nan_l.
    + apply (Hcub ri); [done|]. unfold clave_banco_p4 in Hin.
      by rewrite Hnan in Hin.
  - intros ri k Hri Hk. rewrite app_assoc in Hri.
    apply elem_of_app in Hri as [Hri|Hri].
    + apply (Hcub ri); [done|]. rewrite in_ops_cons in Hk.
      by apply orb_false_iff in Hk as [_ ?].
    + apply list_elem_of_singleton in Hri as ->. by apply Hm.
Qed.

Lemma familia_p4_inv fam ventas_df banco_df resultados res' :
  matcheo_multifacturas_misma_familia_mismo_dia_caja fam ventas_df banco_df
    resultados = Ok res' →
  ∃ nuevos, res' = resultados ++ nuevos
    ∧ Forall (λ r, r_Tipo_Match r = MULTI_FACTURAS_FAMILIA_BANCO_PRIMERO) nuevos
    ∧ claves_frescas clave_resultado (length resultados) res'.
Proof.
  unfold matcheo_multifacturas_misma_familia_mismo_dia_caja.
  destruct (foldM _ _ _) as [st|e] eqn:Hfold; [|done]. intros [= <-].
  eapply (foldM_inv _ (inv_p4 resultados) (λ _, True)) in Hfold as (H1 & H2 & _).
  - by exists (e4_matches_nuevos st).
  - intros b a b' Hb _ Hstep. by eapply paso_banco_p4_inv.
  - by apply Forall_forall.
  - unfold inv_p4. cbn [e4_matches_nuevos e4_matched_ops]. split_and!; [done| |].
    + rewrite app_nil_r. apply claves_frescas_base.
    + intros ri k Hri Hk. rewrite app_nil_r in Hri.
      eapply in_ops_false; [done|]. apply list_elem_of_fmap. eauto.
Qed.

(** ** The four passes in order *)

Lemma exacto_tipos fam ventas_df banco_df :
  Forall (λ r, r_Tipo_Match r = EXACTO) (matcheo_exacto fam ventas_df banco_df).
Proof.
  unfold matcheo_exacto. apply Forall_forall. intros r Hr.
  apply list_elem_of_In, in_flat_map in Hr as (v & _ & Hr).
  destruct (venta_incompleta v); [done|].
  apply in_map_iff in Hr as (b & <- & _). done.
Qed.

(** C1, as stated, fails: pass 1 records every exact coincidence, so one
    invoice and two operations with one date, payer and amount leave two
    Match Records with the same identity key. *)
Lemma exacto_repeats_identity_key :
  map (λ r : Match, (r_Tipo_Match r, r_Factura r, clave_resultado r))
    <$> cuatro_pasadas familias_ejemplo
          [mkVenta (dia 5) (Some (s2t "CARLOS RUIZ")) 300 (s2t "R") (s2t "010")]
          [mkOperacion (dia 5) (s2t "CARLOS RUIZ") 300;
           mkOperacion (dia 5) (s2t "CARLOS RUIZ") 300]
  = Ok [(EXACTO, s2t "R", (dia 5, s2t "CARLOS RUIZ", 300%float));
        (EXACTO, s2t "R", (dia 5, s2t "CARLOS RUIZ", 300%float))]
  ∧ key_eqb (dia 5, s2t "CARLOS RUIZ", 300%float)
            (dia 5, s2t "CARLOS RUIZ", 300%float) = true.
Proof. split; vm_compute; reflexivity. Qed.

(** C1 (amended): in the results of a run of the four passes that completes,
    every Match Record added by pass 2 or pass 4 has an identity key (date,
    upper-cased and stripped payer name, amount) that no record before it in
    the list has, and every record added by pass 3 has a key (date, payer
    name as written, amount) that no record added before it by pass 3 has.
    Pass 1 records every exact coincidence and may repeat a key among its
    EXACTO records. *)
Theorem identity_keys_fresh_after_exact_pass (fam : FamiliasDF)
    (ventas_df : list Venta) (banco_df : list Operacion) (R : list Match)
    (H : cuatro_pasadas fam ventas_df banco_df = Ok R) (i j : nat)
    (ri rj : Match) (Hij : (i < j)%nat)
    (Hi : R !! i = Some ri) (Hj : R !! j = Some rj) :
  match r_Tipo_Match rj with
  | EXACTO => True
  | Grupo_Familiar =>
      r_Tipo_Match ri = Grupo_Familiar →
      key_eqb (clave_cruda_resultado rj) (clave_cruda_resultado ri) = false
  | MULTI_FACTURAS | MULTI_FACTURAS_FAMILIA_BANCO_PRIMERO =>
      key_eqb (clave_resultado rj) (clave_resultado ri) = false
  end.
Proof.
  unfold cuatro_pasadas in H.
  destruct (matcheo_multifacturas_misma_familia_dia_caja fam ventas_df banco_df _)
    as [r2|e] eqn:H2; [|done].
  cbn [mbind result_bind] in H.
  apply multifacturas_inv in H2 as (n2 & -> & HF2 & Hfr2).
  destruct (grupo_familiar_inv fam ventas_df banco_df
              (matcheo_exacto fam ventas_df banco_df ++ n2))
    as (n3 & E3 & HF3 & Hfr3).
  rewrite E3 in H. apply familia_p4_inv in H as (n4 & -> & HF4 & Hfr4).
  pose proof (exacto_tipos fam ventas_df banco_df) as HF1.
  set (r1 := matcheo_exacto fam ventas_df banco_df) in *.
  rewrite Forall_forall in HF1, HF2, HF3, HF4.
  destruct (decide (j < length ((r1 ++ n2) ++ n3))%nat) as [Hj3|Hj3].
  2:{ assert (rj ∈ n4) as Hin.
      { rewrite lookup_app_r in Hj by lia. by eapply list_elem_of_lookup_2. }
      rewrite (HF4 _ Hin). eapply Hfr4; [exact Hij|lia|done..]. }
  rewrite lookup_app_l in Hi, Hj by lia.
  destruct (decide (j < length (r1 ++ n2))%nat) as [Hj2|Hj2].
  2:{ assert (rj ∈ n3) as Hin.
      { rewrite lookup_app_r in Hj by lia. by eapply list_elem_of_lookup_2. }
      rewrite (HF3 _ Hin). intros Hti.
      destruct (decide (i < length (r1 ++ n2))%nat) as [Hi2|Hi2].
      - (* a record of passes 1 and 2 is not tagged 'Grupo Familiar' *)
        rewrite lookup_app_l in Hi by lia.
        apply list_elem_of_lookup_2, elem_of_app in Hi as [Hi|Hi].
        + rewrite (HF1 _ Hi) in Hti. done.
        + destruct (HF2 _ Hi) as [Hm _]. rewrite Hm in Hti. done.
      - rewrite lookup_app_r in Hi, Hj by lia.
        eapply (Hfr3 (i - length (r1 ++ n2))%nat (j - length (r1 ++ n2))%nat);
          [lia|lia|done..]. }
  rewrite lookup_app_l in Hi, Hj by lia.
  destruct (decide (j < length r1)%nat) as [Hj1|Hj1].
  - rewrite lookup_app_l in Hj by lia.
    rewrite (HF1 rj); [done|]. by eapply list_elem_of_lookup_2.
  - assert (rj ∈ n2) as Hin.
    { rewrite lookup_app_r in Hj by lia. by eapply list_elem_of_lookup_2. }
    destruct (HF2 _ Hin) as [-> _]. eapply Hfr2; [exact Hij|lia|done..].
Qed.

Lemma identity_keys_fresh_after_exact_pass_witness :
  ∃ ri rj resto,
    cuatro_pasadas familias_ejemplo [venta_A; venta_C; venta_D]
      [mkOperacion (dia 5) (s2t "Ana Gomez") 300;
       mkOperacion (dia 6) (s2t "Luis Gomez") 300]
    = Ok (ri :: rj :: resto)
    ∧ r_Tipo_Match ri = EXACTO ∧ r_Tipo_Match rj = MULTI_FACTURAS
    ∧ key_eqb (clave_resultado rj) (clave_resultado ri) = false.
Proof.
  eexists _, _, _. split; [vm_compute; reflexivity|].
  split; [reflexivity|]. split; [reflexivity|].
  match goal with
  | |- key_eqb (clave_resultado ?b) (clave_resultado ?a) = false =>
      refine (identity_keys_fresh_after_exact_pass familias_ejemplo
                [venta_A; venta_C; venta_D]
                [mkOperacion (dia 5) (s2t "Ana Gomez") 300;
                 mkOperacion (dia 6) (s2t "Luis Gomez") 300]
                (a :: b :: _) _ 0%nat 1%nat a b ltac:(lia) eq_refl eq_refl)
  end.
  vm_compute. reflexivity.
Defined.

(** ** The till number of an invoice *)













(** ** The column names *)

Lemma pystr_eqb_true (a b : pystr) : pystr_eqb a b = true ↔ a = b.
Proof. unfold pystr_eqb. apply bool_decide_eq_true. Qed.

Lemma pystr_eqb_false (a b : pystr) : pystr_eqb a b = false ↔ a ≠ b.
Proof. unfold pystr_eqb. apply bool_decide_eq_false. Qed.

Lemma dict_in_get k d : dict_in k d = bool_decide (is_Some (dict_get k d)).
Proof.
  induction d as [|[k' v] d IH]; simpl; [done|].
  by destruct (pystr_eqb k' k).
Qed.

Lemma dict_get_set k k' v d :
  dict_get k (dict_set k' v d) = if bool_decide (k = k') then Some v else dict_get k d.
Proof.
  induction d as [|[k0 v0] d IH]; simpl.
  - unfold pystr_eqb. destruct (decide (k' = k)) as [->|Hne].
    + by rewrite !bool_decide_eq_true_2.
    + rewrite bool_decide_eq_false_2 by done.
      by rewrite bool_decide_eq_false_2 by congruence.
  - destruct (pystr_eqb k0 k') eqn:E; simpl.
    + apply pystr_eqb_true in E as ->.
      destruct (pystr_eqb k' k) eqn:E2.
      * apply pystr_eqb_true in E2 as ->. by rewrite bool_decide_eq_true_2.
      * apply pystr_eqb_false in E2.
        by rewrite bool_decide_eq_false_2 by congruence.
    + apply pystr_eqb_false in E.
      destruct (pystr_eqb k0 k) eqn:E2; [|done].
      apply pystr_eqb_true in E2 as ->.
      by rewrite bool_decide_eq_false_2 by congruence.
Qed.

Lemma elem_of_dict_set k v k' v' d :
  (k, v) ∈ dict_set k' v' d → (k, v) = (k', v') ∨ (k, v) ∈ d.
Proof.
  induction d as [|[k0 v0] d IH]; simpl.
  - intros H. apply list_elem_of_singleton in H. by left.
  - destruct (pystr_eqb k0 k') eqn:E.
    + apply pystr_eqb_true in E as ->. intros H.
      apply elem_of_cons in H as [H|H]; [by left|]. right. by right.
    + intros H. apply elem_of_cons in H as [H|H].
      * right. rewrite H. by left.
      * destruct (IH H) as [?|?]; [by left|]. right. by right.
Qed.

Lemma dict_get_elem_of k v d : dict_get k d = Some v → (k, v) ∈ d.
Proof.
  induction d as [|[k0 v0] d IH]; simpl; [done|].
  destruct (pystr_eqb k0 k) eqn:E.
  - apply pystr_eqb_true in E as ->. intros [= ->]. by left.
  - intros H. right. by apply IH.
Qed.

(** The keys the loop writes are the five capitalised names; 'nombre' is
    never one of them, so the name column is written again at every column
    that holds a name word. *)
Lemma paso_columna_banco_cases d col :
  paso_columna_banco d col
  = match clase_columna col with
    | Some k =>
        if bool_decide (k = s2t "Nombre")
        then if negb (dict_in (s2t "nombre") d) then dict_set k col d else d
        else if negb (dict_in k d) then dict_set k col d else d
    | None => d
    end.
Proof.
  unfold paso_columna_banco, clase_columna.
  destruct (contiene_alguna palabras_nombre (lower col)); [done|].
  destruct (contiene_alguna palabras_fecha (lower col)); [done|].
  destruct (contiene_alguna palabras_monto (lower col)); [done|].
  destruct (contiene_alguna palabras_detalle (lower col)); [done|].
  destruct (contains (s2t "comprobante") (lower col)); done.
Qed.

Lemma clase_columna_claves col k :
  clase_columna col = Some k → k ≠ s2t "nombre".
Proof.
  unfold clase_columna.
  repeat match goal with |- context [if ?b then _ else _] => destruct b end;
    intros [= <-]; done.
Qed.

Lemma columnas_encontradas_inv columns :
  let d := columnas_encontradas columns in
  dict_in (s2t "nombre") d = false
  ∧ (∀ k col, (k, col) ∈ d → col ∈ columns ∧ clase_columna col = Some k)
  ∧ ∀ k, dict_get k d
         = if bool_decide (k = s2t "Nombre") then last (de_clase k columns)
           else head (de_clase k columns).
Proof.
  unfold columnas_encontradas, de_clase.
  induction columns as [|col columns IH] using rev_ind.
  - simpl. split; [done|]. split; [by intros k col H; apply elem_of_nil in H|].
    intros k. by destruct (bool_decide _).
  - rewrite fold_left_app. cbn [fold_left].
    set (d := fold_left paso_columna_banco columns []) in *.
    cbv zeta in IH. destruct IH as (Hn & Hin & Hget).
    rewrite paso_columna_banco_cases, Hn. cbn [negb].
    assert (∀ k0 c0, (k0, c0) ∈ d →
              c0 ∈ columns ++ [col] ∧ clase_columna c0 = Some k0) as Hin'.
    { intros k0 c0 H. destruct (Hin _ _ H). split; [|done].
      apply elem_of_app. by left. }
    destruct (clase_columna col) as [kc|] eqn:Hc.
    2:{ split; [done|]. split; [done|]. intros k.
        rewrite filter_app, filter_cons_False, filter_nil, app_nil_r by congruence.
        apply Hget. }
    assert (∀ k0 c0, (k0, c0) ∈ dict_set kc col d →
              c0 ∈ columns ++ [col] ∧ clase_columna c0 = Some k0) as Hin''.
    { intros k0 c0 H. apply elem_of_dict_set in H as [[= -> ->]|H]; [|by eauto].
      split; [|done]. apply elem_of_app. right. by left. }
    assert (dict_in (s2t "nombre") (dict_set kc col d) = false) as Hn'.
    { rewrite dict_in_get, dict_get_set.
      rewrite (bool_decide_eq_false_2 (s2t "nombre" = kc)).
      - by rewrite <- dict_in_get.
      - intros E. by apply (clase_columna_claves col kc). }
    destruct (decide (kc = s2t "Nombre")) as [->|Hk].
    + rewrite bool_decide_eq_true_2 by done.
      split; [done|]. split; [done|]. intros k. rewrite dict_get_set.
      destruct (decide (k = s2t "Nombre")) as [->|Hk'].
      * rewrite !bool_decide_eq_true_2 by done.
        rewrite filter_app, filter_cons_True, filter_nil by done.
        by rewrite last_snoc.
      * rewrite !bool_decide_eq_false_2 by done.
        rewrite filter_app, filter_cons_False, filter_nil, app_nil_r by congruence.
        specialize (Hget k). by rewrite bool_decide_eq_false_2 in Hget.
    + rewrite bool_decide_eq_false_2 by done.
      pose proof (Hget kc) as Hkc. rewrite bool_decide_eq_false_2 in Hkc by done.
      rewrite (dict_in_get kc d).
      destruct (dict_get kc d) as [c1|] eqn:Hg.
      * rewrite bool_decide_eq_true_2 by (by exists c1). cbn [negb].
        split; [done|]. split; [done|]. intros k.
        destruct (decide (k = kc)) as [->|Hk'].
        -- rewrite bool_decide_eq_false_2 by done.
           rewrite filter_app, filter_cons_True, filter_nil by done.
           rewrite Hg. symmetry in Hkc.
           destruct (filter _ columns); [done|]. done.
        -- rewrite filter_app, filter_cons_False, filter_nil, app_nil_r
             by congruence.
           apply Hget.
      * rewrite bool_decide_eq_false_2 by (by intros [? ?]). cbn [negb].
        split; [done|]. split; [done|]. intros k. rewrite dict_get_set.
        destruct (decide (k = kc)) as [->|Hk'].
        -- rewrite bool_decide_eq_true_2 by done.
           rewrite bool_decide_eq_false_2 by done.
           rewrite filter_app, filter_cons_True, filter_nil by done.
           symmetry in Hkc. apply head_None in Hkc. by rewrite Hkc.
        -- rewrite (bool_decide_eq_false_2 (k = kc)) by done.
           rewrite filter_app, filter_cons_False, filter_nil, app_nil_r
             by congruence.
           apply Hget.
Qed.

(** X4: the bank column that [_normalizar_columnas] renames to 'Nombre' is
    the last column whose lower-cased name holds a name word ('nombre',
    'nombr', 'cliente', 'titular', 'beneficiario'): the guard of line 208
    looks for the key 'nombre', which the dict never has.  For 'Fecha',
    'Monto', 'Detalle' and 'Comprobante' it is the first column that the
    chain of tests files under that key. *)
Theorem columnas_encontradas_spec (columns : list pystr) (k : pystr) :
  dict_get k (columnas_encontradas columns)
  = if bool_decide (k = s2t "Nombre") then last (de_clase k columns)
    else head (de_clase k columns).
Proof. apply columnas_encontradas_inv. Qed.

Lemma dict_get_mapeo (d m0 : dict) (col : pystr) :
  dict_get col (fold_left (λ mapeo kv, dict_set kv.2 kv.1 mapeo) d m0)
  = match last (filter (λ kv : pystr * pystr, kv.2 = col) d) with
    | Some kv => Some kv.1
    | None => dict_get col m0
    end.
Proof.
  induction d as [|[k v] d IH] using rev_ind; [done|].
  rewrite fold_left_app. cbn [fold_left]. rewrite dict_get_set. cbn [fst snd].
  rewrite filter_app. destruct (decide (col = v)) as [->|Hne].
  - rewrite bool_decide_eq_true_2 by done.
    rewrite filter_cons_True, filter_nil by done. by rewrite last_snoc.
  - rewrite bool_decide_eq_false_2 by done.
    rewrite filter_cons_False, filter_nil, app_nil_r by (simpl; congruence).
    apply IH.
Qed.

Lemma last_elem_of {A} (l : list A) x : last l = Some x → x ∈ l.
Proof.
  intros H. apply last_Some in H as (l' & ->). apply elem_of_app. right. by left.
Qed.

Lemma head_elem_of {A} (l : list A) x : head l = Some x → x ∈ l.
Proof. destruct l; [done|]. intros [= ->]. by left. Qed.

Lemma elem_of_columnas_banco columns k :
  k ∈ columnas_banco columns
  ↔ ∃ col, col ∈ columns
      ∧ ((∃ kv, last (filter (λ kv : pystr * pystr, kv.2 = col)
                        (columnas_encontradas columns)) = Some kv ∧ kv.1 = k)
         ∨ (last (filter (λ kv : pystr * pystr, kv.2 = col)
                    (columnas_encontradas columns)) = None ∧ col = k)).
Proof.
  unfold columnas_banco, rename, mapeo_banco_a_aplicar.
  rewrite list_elem_of_fmap. split.
  - intros (col & -> & Hcol). exists col. split; [done|].
    rewrite dict_get_mapeo. destruct (last _) as [kv|]; [left; eauto|by right].
  - intros (col & Hcol & H). exists col. split; [|done].
    rewrite dict_get_mapeo.
    destruct H as [(kv & -> & <-)|[-> <-]]; done.
Qed.

Lemma clase_columna_criticas k :
  k ∈ columnas_criticas → clase_columna k = Some k.
Proof.
  unfold columnas_criticas. intros H.
  repeat (apply elem_of_cons in H as [->|H]; [by vm_compute|]).
  by apply elem_of_nil in H.
Qed.

(** X5: [_normalizar_columnas] finds the three critical columns, and goes
    on, exactly when the bank table has a column that the chain of tests
    files as a name, one it files as a date and one it files as an amount: a
    column with a name word in it counts as a name only, whatever else its
    name says. *)
Theorem columnas_faltantes_spec (columns : list pystr) :
  columnas_faltantes columns = []
  ↔ ∀ k, k ∈ columnas_criticas →
      ∃ col, col ∈ columns ∧ clase_columna col = Some k.
Proof.
  pose proof (columnas_encontradas_inv columns) as (_ & Hin & Hget).
  cbv zeta in Hin, Hget.
  assert (∀ k, k ∈ columnas_criticas →
            (k ∈ columnas_banco columns
             ↔ ∃ col, col ∈ columns ∧ clase_columna col = Some k)) as Hk.
  { intros k Hcrit. rewrite elem_of_columnas_banco. split.
    - intros (col & Hcol & [(kv & Hl & <-)|[_ ->]]).
      + apply last_elem_of, list_elem_of_filter in Hl as [E Hl].
        destruct kv as [k0 c0]. simpl in E. subst c0.
        exists col. by apply Hin.
      + exists k. split; [done|]. by apply clase_columna_criticas.
    - intros (col & Hcol & Hc).
      assert (∃ c0, dict_get k (columnas_encontradas columns) = Some c0)
        as (c0 & Hc0).
      { rewrite Hget. unfold de_clase.
        assert (col ∈ filter (λ c, clase_columna c = Some k) columns) as Hf
          by by apply list_elem_of_filter.
        destruct (filter _ columns) as [|x l] eqn:E;
          [by apply elem_of_nil in Hf|].
        destruct (bool_decide _); [|by eexists].
        destruct (last (x :: l)) eqn:El; [by eexists|].
        by apply last_None in El. }
      pose proof (dict_get_elem_of _ _ _ Hc0) as Hd.
      destruct (Hin _ _ Hd) as [Hc0in Hc0k].
      exists c0. split; [done|]. left.
      assert ((k, c0) ∈ filter (λ kv : pystr * pystr, kv.2 = c0)
                          (columnas_encontradas columns)) as Hf
        by by apply list_elem_of_filter.
      destruct (last (filter _ (columnas_encontradas columns))) as [[k1 c1]|] eqn:El.
      + exists (k1, c1). split; [done|]. simpl.
        apply last_elem_of, list_elem_of_filter in El as [E El].
        simpl in E. subst c1. destruct (Hin _ _ El) as [_ Hk1]. congruence.
      + apply last_None in El. rewrite El in Hf. by apply elem_of_nil in Hf. }
  unfold columnas_faltantes. split.
  - intros H k Hcrit. apply Hk; [done|].
    destruct (decide (k ∈ columnas_banco columns)) as [|Hno]; [done|].
    assert (k ∈ filter (λ col, col ∉ columnas_banco columns) columnas_criticas)
      as Hf by by apply list_elem_of_filter.
    rewrite H in Hf. by apply elem_of_nil in Hf.
  - intros H.
    destruct (filter _ columnas_criticas) as [|k l] eqn:E; [done|].
    assert (k ∈ filter (λ col, col ∉ columnas_banco columns) columnas_criticas)
      as Hf by (rewrite E; by left).
    apply list_elem_of_filter in Hf as [Hno Hcrit].
    exfalso. apply Hno. apply Hk; [done|]. by apply H.
Qed.

Lemma columnas_faltantes_ejemplo :
  columnas_encontradas [s2t "Fecha"; s2t "Nombre"; s2t "Monto Cliente"]
  = [(s2t "Fecha", s2t "Fecha"); (s2t "Nombre", s2t "Monto Cliente")]
  ∧ columnas_faltantes [s2t "Fecha"; s2t "Nombre"; s2t "Monto Cliente"]
    = [s2t "Monto"].
Proof. split; vm_compute; reflexivity. Qed.

Lemma elem_of_rename_singleton col columns k :
  k ∈ rename [(col, Codigo)] columns
  ↔ (k = Codigo ∧ col ∈ columns) ∨ (k ≠ col ∧ k ∈ columns).
Proof.
  unfold rename. rewrite list_elem_of_fmap. simpl. split.
  - intros (c & -> & Hc). destruct (pystr_eqb col c) eqn:E; simpl.
    + apply pystr_eqb_true in E as ->. by left.
    + apply pystr_eqb_false in E. right. split; [congruence|done].
  - intros [[-> Hc]|[Hne Hk]].
    + exists col. split; [|done]. by rewrite (proj2 (pystr_eqb_true col col)).
    + exists k. split; [|done].
      by rewrite (proj2 (pystr_eqb_false col k)) by congruence.
Qed.

(** X6: after lines 43-48 of [cargar_datos] the registry has a column
    'Código' exactly when it had one, or when the lower-cased name of one of
    its columns contains 'codigo' or 'code'; the first such column is the one
    renamed.  The test is made without the accent: a header that differs from
    'Código' only in case ('CÓDIGO', 'código') is not recognised. *)
Theorem renombrar_codigo_spec (columns : list pystr) :
  (Codigo ∈ renombrar_codigo columns
   ↔ Codigo ∈ columns ∨ ∃ col, col ∈ columns ∧ nombra_codigo col = true)
  ∧ (∀ i col, Codigo ∉ columns → columns !! i = Some col →
       nombra_codigo col = true →
       (∀ j c, (j < i)%nat → columns !! j = Some c → nombra_codigo c = false) →
       renombrar_codigo columns = rename [(col, Codigo)] columns)
  ∧ (∀ col, lower col = lower Codigo → nombra_codigo col = false).
Proof.
  split; [|split].
  - unfold renombrar_codigo. destruct (decide (Codigo ∈ columns)) as [Hin|Hno].
    { rewrite bool_decide_eq_true_2 by done. split; [by left|done]. }
    rewrite bool_decide_eq_false_2 by done.
    destruct (List.find nombra_codigo columns) as [col|] eqn:Hf.
    + apply find_some_first in Hf as (i & Hi & Hc & _).
      apply list_elem_of_lookup_2 in Hi.
      rewrite elem_of_rename_singleton. split; [|by left].
      intros _. right. by exists col.
    + split; [by left|]. intros [?|(col & Hcol & Hc)]; [done|].
      eapply find_none_inv in Hf; [|done]. congruence.
  - intros i col Hno Hi Hc Hfirst. unfold renombrar_codigo.
    rewrite bool_decide_eq_false_2 by done.
    by rewrite (find_first nombra_codigo columns i col).
  - intros col H. unfold nombra_codigo. rewrite H. by vm_compute.
Qed.

(** ** What every pass adds *)

Lemma exacto_registros fam ventas_df banco_df :
  Forall (registro_de EXACTO banco_df) (matcheo_exacto fam ventas_df banco_df).
Proof.
  unfold matcheo_exacto. apply Forall_forall. intros r Hr.
  apply list_elem_of_In, in_flat_map in Hr as (v & _ & Hr).
  destruct (venta_incompleta v); [done|].
  apply in_map_iff in Hr as (b & <- & Hb).
  apply list_elem_of_In, list_elem_of_filter in Hb as [_ Hb].
  split; [done|]. by exists b.
Qed.

Lemma enlace_multi_registro fam ventas_df banco_df resultados r :
  enlace_multi fam ventas_df banco_df resultados r →
  registro_de MULTI_FACTURAS banco_df r.
Proof.
  intros (Ht & fecha & caja & cod & grupo & b & _ & _ & _ & _ & _ & _ & _ & _
          & Hb & H1 & H2 & H3 & _).
  split; [done|]. by exists b.
Qed.

Lemma paso_op_p3_copia fam ventas_df ops nuevos op :
  paso_op_p3 fam ventas_df (ops, nuevos) op = (ops, nuevos)
  ∨ ∃ r, paso_op_p3 fam ventas_df (ops, nuevos) op
         = (clave_texto_banco op :: ops, nuevos ++ [r])
         ∧ r_Tipo_Match r = Grupo_Familiar ∧ copia_operacion r op.
Proof.
  destruct (paso_op_p3_cases fam ventas_df ops nuevos op)
    as [?|(r & Hr & _ & Ht & Hk)]; [by left|].
  right. exists r. split; [done|]. split; [done|].
  unfold clave_texto_resultado, clave_texto_banco in Hk.
  injection Hk as Hf Hn Hm. apply str_timestamp_inj in Hf. done.
Qed.

Lemma grupo_familiar_sublist fam ventas_df l ops nuevos ops' nuevos' bs :
  Forall2 (λ r b, r_Tipo_Match r = Grupo_Familiar ∧ copia_operacion r b)
          nuevos bs →
  fold_left (paso_op_p3 fam ventas_df) l (ops, nuevos) = (ops', nuevos') →
  ∃ bs', bs' `sublist_of` l
         ∧ Forall2 (λ r b, r_Tipo_Match r = Grupo_Familiar ∧ copia_operacion r b)
                   nuevos' (bs ++ bs').
Proof.
  revert ops nuevos bs. induction l as [|op l IH]; intros ops nuevos bs HF;
    cbn [fold_left].
  - intros [= <- <-]. exists []. split; [done|]. by rewrite app_nil_r.
  - destruct (paso_op_p3_copia fam ventas_df ops nuevos op)
      as [->|(r & -> & Ht & Hc)].
    + intros H. destruct (IH _ _ _ HF H) as (bs' & Hs & HF').
      exists bs'. split; [by apply sublist_cons|done].
    + intros H.
      assert (Forall2 (λ r b, r_Tipo_Match r = Grupo_Familiar
                              ∧ copia_operacion r b)
                (nuevos ++ [r]) (bs ++ [op])) as HF1.
      { apply Forall2_app; [done|]. constructor; [done|constructor]. }
      destruct (IH _ _ _ HF1 H) as (bs' & Hs & HF').
      exists (op :: bs'). split; [by apply sublist_skip|].
      by rewrite <- app_assoc in HF'.
Qed.

Lemma paso_banco_p4_copia fam st banco st' :
  paso_banco_p4 fam st banco = Ok st' →
  e4_matches_nuevos st' = e4_matches_nuevos st
  ∨ ∃ r, e4_matches_nuevos st' = e4_matches_nuevos st ++ [r]
         ∧ r_Tipo_Match r = MULTI_FACTURAS_FAMILIA_BANCO_PRIMERO
         ∧ copia_operacion r banco.
Proof.
  unfold paso_banco_p4.
  destruct (in_ops _ _); [intros [= <-]; by left|].
  destruct (candidatos_p4 _ _ _) as [cs|e]; [|done]. cbn [mbind result_bind].
  destruct (length cs <? 2)%nat; [intros [= <-]; by left|].
  destruct (buscar_combinacion _ _) as [idxs|]; [|intros [= <-]; by left].
  destruct (marcar_usadas _ _) as [vv'|e]; [|done]. cbn [mbind result_bind].
  intros [= <-]. right. by eexists.
Qed.

Lemma familia_sublist fam l st st' bs :
  Forall2 (λ r b, r_Tipo_Match r = MULTI_FACTURAS_FAMILIA_BANCO_PRIMERO
                  ∧ copia_operacion r b)
          (e4_matches_nuevos st) bs →
  foldM (paso_banco_p4 fam) st l = Ok st' →
  ∃ bs', bs' `sublist_of` l
         ∧ Forall2 (λ r b, r_Tipo_Match r = MULTI_FACTURAS_FAMILIA_BANCO_PRIMERO
                           ∧ copia_operacion r b)
                   (e4_matches_nuevos st') (bs ++ bs').
Proof.
  revert st bs. induction l as [|banco l IH]; intros st bs HF; cbn [foldM].
  - intros [= <-]. exists []. split; [done|]. by rewrite app_nil_r.
  - destruct (paso_banco_p4 fam st banco) as [st1|e] eqn:Hstep; [|done].
    cbn [mbind result_bind]. intros H.
    destruct (paso_banco_p4_copia _ _ _ _ Hstep) as [E|(r & E & Ht & Hc)].
    + rewrite <- E in HF. destruct (IH _ _ HF H) as (bs' & Hs & HF').
      exists bs'. split; [by apply sublist_cons|done].
    + assert (Forall2 (λ r b, r_Tipo_Match r = MULTI_FACTURAS_FAMILIA_BANCO_PRIMERO
                              ∧ copia_operacion r b)
                (e4_matches_nuevos st1) (bs ++ [banco])) as HF1.
      { rewrite E. apply Forall2_app; [done|].
        constructor; [done|constructor]. }
      destruct (IH _ _ HF1 H) as (bs' & Hs & HF').
      exists (banco :: bs'). split; [by apply sublist_skip|].
      by rewrite <- app_assoc in HF'.
Qed.

Lemma grupo_familiar_orden fam ventas_df banco_df resultados :
  ∃ nuevos ops,
    matcheo_por_grupo_familiar fam ventas_df banco_df resultados
    = resultados ++ nuevos
    ∧ ops `sublist_of` banco_df
    ∧ Forall2 (λ r b, r_Tipo_Match r = Grupo_Familiar ∧ copia_operacion r b)
              nuevos ops.
Proof.
  unfold matcheo_por_grupo_familiar.
  destruct (fold_left _ _ _) as [ops' nuevos'] eqn:Hfold.
  eapply (grupo_familiar_sublist _ _ _ _ [] _ _ []) in Hfold as (bs & Hs & HF);
    [|constructor].
  by exists nuevos', bs.
Qed.

Lemma familia_orden fam ventas_df banco_df resultados res' :
  matcheo_multifacturas_misma_familia_mismo_dia_caja fam ventas_df banco_df
    resultados = Ok res' →
  ∃ nuevos ops,
    res' = resultados ++ nuevos
    ∧ ops `sublist_of` banco_df
    ∧ Forall2 (λ r b, r_Tipo_Match r = MULTI_FACTURAS_FAMILIA_BANCO_PRIMERO
                      ∧ copia_operacion r b)
              nuevos ops.
Proof.
  unfold matcheo_multifacturas_misma_familia_mismo_dia_caja.
  destruct (foldM _ _ _) as [st|e] eqn:Hfold; [|done]. intros [= <-].
  eapply (familia_sublist _ _ _ _ []) in Hfold as (bs & Hs & HF);
    [|constructor].
  by exists (e4_matches_nuevos st), bs.
Qed.

Lemma Forall2_sublist_registro t banco_df nuevos ops :
  ops `sublist_of` banco_df →
  Forall2 (λ r b, r_Tipo_Match r = t ∧ copia_operacion r b) nuevos ops →
  Forall (registro_de t banco_df) nuevos.
Proof.
  intros Hs HF. induction HF as [|r b nuevos ops [Ht Hc] _ IH]; [done|].
  constructor.
  - split; [done|]. exists b. split; [|done].
    eapply sublist_submseteq, elem_of_submseteq in Hs; [done|]. by left.
  - apply IH. etrans; [|done]. by apply sublist_cons.
Qed.

Lemma pasadas_registros fam ventas_df banco_df resultados :
  Forall (registro_de EXACTO banco_df) (matcheo_exacto fam ventas_df banco_df)
  ∧ (∀ res',
       matcheo_multifacturas_misma_familia_dia_caja fam ventas_df banco_df
         resultados = Ok res' →
       ∃ nuevos, res' = resultados ++ nuevos
                 ∧ Forall (registro_de MULTI_FACTURAS banco_df) nuevos)
  ∧ (∃ nuevos,
       matcheo_por_grupo_familiar fam ventas_df banco_df resultados
       = resultados ++ nuevos
       ∧ Forall (registro_de Grupo_Familiar banco_df) nuevos)
  ∧ (∀ res',
       matcheo_multifacturas_misma_familia_mismo_dia_caja fam ventas_df banco_df
         resultados = Ok res' →
       ∃ nuevos, res' = resultados ++ nuevos
                 ∧ Forall (registro_de MULTI_FACTURAS_FAMILIA_BANCO_PRIMERO
                             banco_df) nuevos).
Proof.
  split; [apply exacto_registros|]. split; [|split].
  - intros res' H. apply multifacturas_inv in H as (nuevos & -> & HF & _).
    exists nuevos. split; [done|]. eapply Forall_impl; [exact HF|].
    intros r. apply enlace_multi_registro.
  - destruct (grupo_familiar_orden fam ventas_df banco_df resultados)
      as (nuevos & ops & E & Hs & HF).
    exists nuevos. split; [done|]. by eapply Forall2_sublist_registro.
  - intros res' H. apply familia_orden in H as (nuevos & ops & -> & Hs & HF).
    exists nuevos. split; [done|]. by eapply Forall2_sublist_registro.
Qed.

(** X7: no pass removes, reorders or rewrites a record it was given, and
    none invents a bank operation: pass 1 returns EXACTO records, and each
    later pass returns the results it received followed by records of its own
    type; every record carries the date, the payer name and the amount of one
    row of [banco_df]. *)
Theorem pasadas_solo_agregan (fam : FamiliasDF) (ventas_df : list Venta)
    (banco_df : list Operacion) (resultados : list Match) :
  Forall (registro_de EXACTO banco_df) (matcheo_exacto fam ventas_df banco_df)
  ∧ (∀ res',
       matcheo_multifacturas_misma_familia_dia_caja fam ventas_df banco_df
         resultados = Ok res' →
       ∃ nuevos, res' = resultados ++ nuevos
                 ∧ Forall (registro_de MULTI_FACTURAS banco_df) nuevos)
  ∧ (∃ nuevos,
       matcheo_por_grupo_familiar fam ventas_df banco_df resultados
       = resultados ++ nuevos
       ∧ Forall (registro_de Grupo_Familiar banco_df) nuevos)
  ∧ (∀ res',
       matcheo_multifacturas_misma_familia_mismo_dia_caja fam ventas_df banco_df
         resultados = Ok res' →
       ∃ nuevos, res' = resultados ++ nuevos
                 ∧ Forall (registro_de MULTI_FACTURAS_FAMILIA_BANCO_PRIMERO
                             banco_df) nuevos).
Proof. apply pasadas_registros. Qed.

(** X8: passes 3 and 4 add at most one record for each row of [banco_df],
    and add them in the order of the rows: the operations of the new records
    are a sub-list of [banco_df]. *)
Theorem una_coincidencia_por_operacion (fam : FamiliasDF)
    (ventas_df : list Venta) (banco_df : list Operacion)
    (resultados : list Match) :
  (∃ nuevos ops,
     matcheo_por_grupo_familiar fam ventas_df banco_df resultados
     = resultados ++ nuevos
     ∧ ops `sublist_of` banco_df
     ∧ Forall2 (λ r b, r_Tipo_Match r = Grupo_Familiar ∧ copia_operacion r b)
               nuevos ops)
  ∧ (∀ res',
       matcheo_multifacturas_misma_familia_mismo_dia_caja fam ventas_df banco_df
         resultados = Ok res' →
       ∃ nuevos ops,
         res' = resultados ++ nuevos
         ∧ ops `sublist_of` banco_df
         ∧ Forall2 (λ r b, r_Tipo_Match r = MULTI_FACTURAS_FAMILIA_BANCO_PRIMERO
                           ∧ copia_operacion r b)
                   nuevos ops).
Proof. split; [apply grupo_familiar_orden|apply familia_orden]. Qed.

(** ** The bank rows that ingestion keeps *)

Lemma SFltb_zero_not_nan (x : SpecFloat.spec_float) :
  SpecFloat.SFltb (SpecFloat.S754_zero false) x = true →
  SpecFloat.SFeqb x x = true.
Proof.
  unfold SpecFloat.SFltb, SpecFloat.SFeqb, SpecFloat.SFcompare.
  destruct x as [[]| [] | |[] m e]; try done; intros _;
    rewrite Z.compare_refl, ?Pos.compare_refl; by rewrite ?Pos.compare_cont_refl.
Qed.

Lemma float_pos_not_nan (m : float) :
  PrimFloat.ltb 0 m = true → PrimFloat.is_nan m = false.
Proof.
  rewrite FloatAxioms.ltb_spec. intros H.
  unfold PrimFloat.is_nan. apply negb_false_iff.
  rewrite FloatAxioms.eqb_spec. apply SFltb_zero_not_nan.
  exact H.
Qed.

Lemma filtrar_operaciones_spec banco b :
  b ∈ filtrar_operaciones banco →
  PrimFloat.ltb 0 (b_Monto b) = true
  ∧ ∃ fila, fila ∈ banco ∧ fb_Fecha fila = b_Fecha b
            ∧ fb_Nombre fila = Some (b_Nombre b) ∧ fb_Monto fila = b_Monto b.
Proof.
  unfold filtrar_operaciones. intros H.
  apply list_elem_of_omap in H as (fila & Hin & H).
  destruct (PrimFloat.ltb 0 (fb_Monto fila)) eqn:Hm; [|done].
  destruct (fb_Nombre fila) as [nombre|] eqn:Hn; [|done].
  injection H as <-. split; [done|]. by exists fila.
Qed.

Lemma cuatro_pasadas_registros fam ventas_df banco_df R :
  cuatro_pasadas fam ventas_df banco_df = Ok R →
  Forall (λ r, ∃ b, b ∈ banco_df ∧ copia_operacion r b) R.
Proof.
  unfold cuatro_pasadas. intros H.
  destruct (matcheo_multifacturas_misma_familia_dia_caja fam ventas_df banco_df _)
    as [r2|e] eqn:H2; [|done].
  cbn [mbind result_bind] in H.
  destruct (pasadas_registros fam ventas_df banco_df
              (matcheo_exacto fam ventas_df banco_df)) as (P1 & P2 & _ & _).
  destruct (P2 _ H2) as (n2 & -> & F2).
  destruct (pasadas_registros fam ventas_df banco_df
              (matcheo_exacto fam ventas_df banco_df ++ n2))
    as (_ & _ & (n3 & E3 & F3) & _).
  rewrite E3 in H.
  destruct (pasadas_registros fam ventas_df banco_df
              ((matcheo_exacto fam ventas_df banco_df ++ n2) ++ n3))
    as (_ & _ & _ & P4).
  destruct (P4 _ H) as (n4 & -> & F4).
  rewrite !Forall_app. split_and!;
    (eapply Forall_impl; [eassumption|]); by intros r [_ ?].
Qed.

(** X9: the operations that ingestion passes on have a payer name and an
    amount greater than zero (so not NaN), and so has every Match Record that
    the four passes build from them; for those operations the key of pass 4,
    which reads a missing amount as 0.0, is the key of pass 2, and the key of
    an operation is recognised as its own once it is consumed. *)
Theorem operaciones_ingresadas (fam : FamiliasDF) (ventas_df : list Venta)
    (banco : list FilaBanco) :
  (∀ b, b ∈ filtrar_operaciones banco →
     PrimFloat.ltb 0 (b_Monto b) = true
     ∧ (∃ fila, fila ∈ banco ∧ fb_Fecha fila = b_Fecha b
                ∧ fb_Nombre fila = Some (b_Nombre b)
                ∧ fb_Monto fila = b_Monto b)
     ∧ clave_banco_p4 b = clave_banco b
     ∧ key_eqb (clave_banco b) (clave_banco b) = true)
  ∧ (∀ R, cuatro_pasadas fam ventas_df (filtrar_operaciones banco) = Ok R →
       Forall (λ r, PrimFloat.ltb 0 (r_Monto_Banco r) = true) R).
Proof.
  split.
  - intros b Hb. destruct (filtrar_operaciones_spec _ _ Hb) as [Hpos Hfila].
    pose proof (float_pos_not_nan _ Hpos) as Hnan.
    split; [done|]. split; [done|]. split.
    + unfold clave_banco_p4, clave_banco. by rewrite Hnan.
    + apply key_eqb_refl_monto. simpl. unfold PrimFloat.is_nan in Hnan.
      by apply negb_false_iff in Hnan.
  - intros R H. apply cuatro_pasadas_registros in H.
    eapply Forall_impl; [exact H|]. intros r (b & Hb & _ & _ & Hm).
    rewrite Hm. by apply filtrar_operaciones_spec in Hb as [? _].
Qed.

(** ** When pass 2 ends in an exception *)













(** ** The entry point *)


(** X11: [ejecutar_matcheo] runs passes 1 and 2 only.  When it returns with
    results, they are the EXACTO records of pass 1 followed by MULTI_FACTURAS
    records: no 'Grupo Familiar' and no MULTI_FACTURAS_FAMILIA_BANCO_PRIMERO
    record is ever reported; and the report and the statistics are produced
    exactly when there is at least one record. *)
Theorem ejecutar_matcheo_spec (archivos_existen : list bool) (c : carga)
    (ej : Ejecucion) (R : list Match)
    (H : ejecutar_matcheo archivos_existen c = Some ej)
    (HR : ej_resultados ej = Some R) :
  (∃ t nuevos,
     c = Cargadas t
     ∧ R = matcheo_exacto (t_familias_df t) (t_ventas_df t) (t_banco_df t)
           ++ nuevos
     ∧ Forall (λ r, r_Tipo_Match r = MULTI_FACTURAS) nuevos)
  ∧ Forall (λ r, r_Tipo_Match r = EXACTO ∨ r_Tipo_Match r = MULTI_FACTURAS) R
  ∧ (ej_reporte ej = true ↔ R ≠ []).
Proof.
  unfold ejecutar_matcheo in H.
  destruct (negb (forallb id archivos_existen)); [done|].
  destruct c as [| |t]; [done|by injection H as <-|].
  cbv zeta in H.
  destruct (matcheo_multifacturas_misma_familia_dia_caja _ _ _ _) as [res|e]
    eqn:H2; [|done].
  injection H as <-. cbn [ej_resultados ej_reporte] in *. injection HR as ->.
  apply multifacturas_inv in H2 as (nuevos & -> & HF & _).
  assert (Forall (λ r, r_Tipo_Match r = MULTI_FACTURAS) nuevos) as HM.
  { eapply Forall_impl; [exact HF|]. by intros r [? _]. }
  split; [by exists t, nuevos|]. split.
  - apply Forall_app. split.
    + eapply Forall_impl; [apply exacto_tipos|]. intros r Hr. by left.
    + eapply Forall_impl; [exact HM|]. intros r Hr. by right.
  - rewrite Nat.ltb_lt. destruct (_ ++ _); simpl; [split; [lia|done]|].
    split; [done|lia].
Qed.

Lemma ejecutar_matcheo_spec_witness :
  ∃ ej, ejecutar_matcheo [true; true; true]
          (Cargadas (mkTablas familias_ejemplo [venta_A; venta_B]
                       [mkOperacion (dia 5) (s2t "Luis Gomez") 700]))
        = Some ej
        ∧ (map r_Tipo_Match <$> ej_resultados ej) = Some [MULTI_FACTURAS]
        ∧ ej_reporte ej = true.
Proof.
  eexists. split; [vm_compute; reflexivity|].
  split; [reflexivity|].
  refine (proj2 (proj2 (proj2 (ejecutar_matcheo_spec [true; true; true]
            (Cargadas (mkTablas familias_ejemplo [venta_A; venta_B]
                         [mkOperacion (dia 5) (s2t "Luis Gomez") 700]))
            _ _ ltac:(vm_compute; reflexivity) eq_refl))) _).
  done.
Defined.


(** ** The report *)

(** X13: the sheet 'Matches_Exactos' holds every Match Record, of whatever
    type; the sheet 'Matches_MultiFacturas' is written exactly when pass 2
    left a record, and holds the MULTI_FACTURAS records; the sheet
    'Matches_MultiFacturas_Familia' is never written, since it is keyed on the
    type 'MULTI_FACTURAS_FAMILIA' and pass 4 tags its records
    'MULTI_FACTURAS_FAMILIA_BANCO_PRIMERO'. *)
Theorem hojas_de_matches_spec (resultados : list Match) :
  hojas_de_matches resultados !! 0%nat = Some (s2t "Matches_Exactos", resultados)
  ∧ (∀ filas, (s2t "Matches_MultiFacturas", filas) ∈ hojas_de_matches resultados
       ↔ filas = filter (λ r, r_Tipo_Match r = MULTI_FACTURAS) resultados
         ∧ filas ≠ [])
  ∧ (∀ nombre filas, (nombre, filas) ∈ hojas_de_matches resultados →
       nombre = s2t "Matches_Exactos" ∨ nombre = s2t "Matches_MultiFacturas").
Proof.
  assert (hay_tipo (s2t "MULTI_FACTURAS_FAMILIA") resultados = false) as Hfam.
  { apply bool_decide_eq_false. intros H.
    apply list_elem_of_fmap in H as (r & Hr & _). by destruct (r_Tipo_Match r). }
  assert (de_tipo (s2t "MULTI_FACTURAS") resultados
          = filter (λ r, r_Tipo_Match r = MULTI_FACTURAS) resultados) as Hde.
  { unfold de_tipo. apply list_filter_iff. intros r.
    split; [|by intros ->]. by destruct (r_Tipo_Match r). }
  assert (hay_tipo (s2t "MULTI_FACTURAS") resultados = true
          ↔ filter (λ r, r_Tipo_Match r = MULTI_FACTURAS) resultados ≠ []) as Hhay.
  { unfold hay_tipo. rewrite bool_decide_eq_true, list_elem_of_fmap. split.
    - intros (r & Hr & Hin) E.
      assert (r ∈ filter (λ r, r_Tipo_Match r = MULTI_FACTURAS) resultados) as Hf.
      { apply list_elem_of_filter. split; [|done]. by destruct (r_Tipo_Match r). }
      rewrite E in Hf. by apply elem_of_nil in Hf.
    - intros H. destruct (filter _ resultados) as [|r l] eqn:E; [done|].
      assert (r ∈ filter (λ r, r_Tipo_Match r = MULTI_FACTURAS) resultados) as Hf
        by (rewrite E; by left).
      apply list_elem_of_filter in Hf as [Ht Hin]. exists r. by rewrite Ht. }
  unfold hojas_de_matches. rewrite Hfam, Hde, app_nil_r.
  split; [done|]. split.
  - intros filas. destruct (hay_tipo (s2t "MULTI_FACTURAS") resultados) eqn:E.
    + assert (filter (λ r, r_Tipo_Match r = MULTI_FACTURAS) resultados ≠ [])
        as Hne by by apply Hhay.
      split.
      * intros H. apply elem_of_cons in H as [[=]|H].
        apply list_elem_of_singleton in H. by injection H as ->.
      * intros [-> _]. right. by left.
    + split.
      * intros H. apply list_elem_of_singleton in H. by injection H.
      * intros [-> Hne]. by apply Hhay in Hne.
  - intros nombre filas H. apply elem_of_cons in H as [[= -> ->]|H]; [by left|].
    destruct (hay_tipo (s2t "MULTI_FACTURAS") resultados);
      [|by apply elem_of_nil in H].
    apply list_elem_of_singleton in H. injection H as -> ->. by right.
Qed.

(** *** Invoice numbers read back from the 'Factura' cells *)

Lemma split_sep_aux_app (sep : N) (p r : pystr) :
  existsb (N.eqb sep) p = false →
  split_sep_aux sep (p ++ r)
  = (p ++ (split_sep_aux sep r).1, (split_sep_aux sep r).2).
Proof.
  induction p as [|c p IH]; simpl.
  - intros _. by destruct (split_sep_aux sep r).
  - intros H. apply orb_false_iff in H as [Hc Hp]. rewrite (IH Hp).
    rewrite N.eqb_sym in Hc. by rewrite Hc.
Qed.

Lemma split_sep_sin_sep (sep : N) (p : pystr) :
  existsb (N.eqb sep) p = false → split_sep sep p = [p].
Proof.
  intros H. unfold split_sep.
  rewrite <- (app_nil_r p) at 1. rewrite split_sep_aux_app by done.
  simpl. by rewrite app_nil_r.
Qed.

Lemma split_sep_cons (sep : N) (p r : pystr) :
  existsb (N.eqb sep) p = false →
  split_sep sep (p ++ sep :: r) = p :: split_sep sep r.
Proof.
  intros H. unfold split_sep. rewrite split_sep_aux_app by done.
  simpl. rewrite N.eqb_refl. destruct (split_sep_aux sep r). simpl.
  by rewrite app_nil_r.
Qed.

Lemma split_sep_join (nums : list pystr) :
  nums ≠ [] → Forall (λ f, existsb (N.eqb 44) f = false) nums →
  split_sep 44 (join (s2t ",") nums) = nums.
Proof.
  intros Hne H. induction H as [|f nums Hf Hnums IH]; [done|].
  destruct nums as [|g nums].
  - simpl. by apply split_sep_sin_sep.
  - change (join (s2t ",") (f :: g :: nums))
      with (f ++ 44%N :: join (s2t ",") (g :: nums)).
    rewrite split_sep_cons by done. f_equal. by apply IH.
Qed.

Lemma numero_limpio_spec f :
  numero_limpio f = true
  ↔ f ≠ [] ∧ existsb (N.eqb 44) f = false ∧ strip f = f.
Proof.
  unfold numero_limpio, pystr_eqb.
  rewrite !andb_true_iff, !negb_true_iff, bool_decide_eq_false,
    bool_decide_eq_true.
  tauto.
Qed.

Lemma filter_strip_limpios (nums : list pystr) :
  Forall (λ f, numero_limpio f = true) nums →
  filter (λ x : pystr, x ≠ []) (map strip nums) = nums.
Proof.
  induction 1 as [|f nums Hf _ IH]; [done|].
  apply numero_limpio_spec in Hf as (Hne & _ & Hs).
  cbn [map]. rewrite Hs, filter_cons_True by done. by f_equal.
Qed.

Lemma facturas_de_join (r : Match) (nums : list pystr) :
  r_Factura r = join (s2t ",") nums →
  Forall (λ f, numero_limpio f = true) nums →
  facturas_de r = nums.
Proof.
  intros Hr H. unfold facturas_de. rewrite Hr.
  destruct nums as [|f0 nums0]; [done|].
  rewrite split_sep_join; [by apply filter_strip_limpios|done|].
  eapply Forall_impl; [exact H|]. intros f Hf.
  by apply numero_limpio_spec in Hf as (_ & ? & _).
Qed.

(** X14: the invoice numbers that pass 2 and the report read back from a
    'Factura' cell are the numbers that were joined into it, as long as every
    number is clean: not empty, without a comma, without whitespace at either
    end. *)
Theorem facturas_roundtrip (r : Match) (nums : list pystr)
    (Hr : r_Factura r = join (s2t ",") nums)
    (H : Forall (λ f, numero_limpio f = true) nums) :
  facturas_de r = nums.
Proof. by apply facturas_de_join. Qed.

Lemma facturas_roundtrip_witness :
  facturas_de (mkMatch MULTI_FACTURAS (Some (s2t "F2")) None
                 (s2t "001-010-0000001,001-010-0000002") (Some (s2t "010"))
                 (dia 5) (s2t "Luis Gomez") 700 700 (Some 2%nat))
  = [s2t "001-010-0000001"; s2t "001-010-0000002"].
Proof.
  apply (facturas_roundtrip _ [s2t "001-010-0000001"; s2t "001-010-0000002"]);
    [reflexivity|].
  repeat constructor.
Defined.

Lemma lstrip_idem s : lstrip (lstrip s) = lstrip s.
Proof.
  induction s as [|c s IH]; simpl; [done|].
  destruct (is_space c) eqn:Hc; [done|]. simpl. by rewrite Hc.
Qed.

Lemma lstrip_no_space c s : is_space c = false → lstrip (c :: s) = c :: s.
Proof. intros H. simpl. by rewrite H. Qed.

Lemma lstrip_head s : match lstrip s with [] => True | c :: _ => is_space c = false end.
Proof.
  induction s as [|c s IH]; simpl; [done|].
  destruct (is_space c) eqn:Hc; [done|]. done.
Qed.

Lemma lstrip_fix s :
  match s with [] => True | c :: _ => is_space c = false end → lstrip s = s.
Proof. destruct s as [|c s]; [done|]. apply lstrip_no_space. Qed.

Lemma lstrip_last s c :
  is_space c = false → lstrip (s ++ [c]) = lstrip s ++ [c].
Proof.
  intros Hc. induction s as [|d s IH]; simpl.
  - by rewrite Hc.
  - destruct (is_space d); [done|done].
Qed.

Lemma rstrip_head s :
  match s with [] => True | c :: _ => is_space c = false end →
  match rstrip s with [] => True | c :: _ => is_space c = false end.
Proof.
  unfold rstrip. destruct s as [|c s]; [done|]. intros Hc.
  cbn [rev]. rewrite lstrip_last by done. rewrite rev_app_distr. done.
Qed.

Lemma rstrip_idem s : rstrip (rstrip s) = rstrip s.
Proof. unfold rstrip. by rewrite rev_involutive, lstrip_idem. Qed.

Lemma strip_idem s : strip (strip s) = strip s.
Proof.
  unfold strip. rewrite (lstrip_fix (rstrip (lstrip s))).
  - apply rstrip_idem.
  - apply rstrip_head, lstrip_head.
Qed.

Lemma existsb_lstrip (f : N → bool) s :
  existsb f (lstrip s) = true → existsb f s = true.
Proof.
  induction s as [|c s IH]; simpl; [done|].
  destruct (is_space c); [|done]. intros H. rewrite (IH H). apply orb_true_r.
Qed.

Lemma existsb_rev {A} (f : A → bool) l : existsb f (rev l) = existsb f l.
Proof.
  induction l as [|x l IH]; simpl; [done|].
  rewrite existsb_app, IH. simpl. rewrite orb_false_r. apply orb_comm.
Qed.

Lemma existsb_strip (f : N → bool) s :
  existsb f (strip s) = true → existsb f s = true.
Proof.
  unfold strip, rstrip. rewrite existsb_rev. intros H.
  apply existsb_lstrip in H. rewrite existsb_rev in H. by apply existsb_lstrip.
Qed.

Lemma split_sep_aux_sin_sep (sep : N) (s : pystr) :
  existsb (N.eqb sep) (split_sep_aux sep s).1 = false
  ∧ Forall (λ t, existsb (N.eqb sep) t = false) (split_sep_aux sep s).2.
Proof.
  induction s as [|c s [IH1 IH2]]; simpl; [done|].
  destruct (split_sep_aux sep s) as [t ts]. simpl in *.
  destruct (N.eqb c sep) eqn:Hc; simpl.
  - split; [done|]. by constructor.
  - rewrite N.eqb_sym, Hc. done.
Qed.

Lemma facturas_de_limpias (r : Match) (f : pystr) :
  f ∈ facturas_de r → numero_limpio f = true.
Proof.
  unfold facturas_de. intros H. apply list_elem_of_filter in H as [Hne H].
  apply list_elem_of_fmap in H as (t & -> & Ht).
  apply numero_limpio_spec. split; [done|]. split; [|apply strip_idem].
  destruct (existsb (N.eqb 44) (strip t)) eqn:E; [|done].
  apply existsb_strip in E.
  pose proof (split_sep_aux_sin_sep 44 (r_Factura r)) as [H1 H2].
  unfold split_sep in Ht. destruct (split_sep_aux 44 (r_Factura r)) as [t0 ts].
  simpl in *. apply elem_of_cons in Ht as [->|Ht]; [congruence|].
  rewrite Forall_forall in H2. rewrite (H2 _ Ht) in E. done.
Qed.

(** X15: an invoice whose number is empty, contains a comma, or starts or
    ends with whitespace is never found among the matched numbers, whatever
    the Match Records say: pass 2 keeps treating it as available, and the
    report lists it on sheet 'Facturas_Sin_Match'. *)
Theorem factura_no_limpia_sin_match (ventas_df : list Venta)
    (resultados : list Match) (i : nat) (v : Venta)
    (Hv : ventas_df !! i = Some v)
    (Hf : numero_limpio (v_Factura v) = false) :
  v ∈ facturas_sin_match ventas_df resultados
  ∧ (i, v) ∈ filter (λ iv : nat * Venta,
                      v_Factura iv.2 ∉ facturas_matcheadas resultados)
               (imap pair ventas_df).
Proof.
  assert (v_Factura v ∉ facturas_matcheadas resultados) as Hno.
  { intros Hin. unfold facturas_matcheadas in Hin.
    apply list_elem_of_In, in_flat_map in Hin as (r & _ & Hin).
    apply list_elem_of_In, facturas_de_limpias in Hin. congruence. }
  split.
  - apply list_elem_of_filter. split; [done|]. by eapply list_elem_of_lookup_2.
  - apply list_elem_of_filter. split; [done|].
    apply elem_of_lookup_imap. by exists i, v.
Qed.

Lemma factura_no_limpia_sin_match_witness :
  facturas_sin_match
    [mkVenta (dia 5) (Some (s2t "ANA GOMEZ")) 300 (s2t "A-1, bis") (s2t "010")]
    (matcheo_exacto familias_ejemplo
       [mkVenta (dia 5) (Some (s2t "ANA GOMEZ")) 300 (s2t "A-1, bis") (s2t "010")]
       [mkOperacion (dia 5) (s2t "Ana Gomez") 300])
  = [mkVenta (dia 5) (Some (s2t "ANA GOMEZ")) 300 (s2t "A-1, bis") (s2t "010")]
  ∧ length (matcheo_exacto familias_ejemplo
       [mkVenta (dia 5) (Some (s2t "ANA GOMEZ")) 300 (s2t "A-1, bis") (s2t "010")]
       [mkOperacion (dia 5) (s2t "Ana Gomez") 300]) = 1%nat.
Proof.
  pose proof (factura_no_limpia_sin_match
    [mkVenta (dia 5) (Some (s2t "ANA GOMEZ")) 300 (s2t "A-1, bis") (s2t "010")]
    (matcheo_exacto familias_ejemplo
       [mkVenta (dia 5) (Some (s2t "ANA GOMEZ")) 300 (s2t "A-1, bis") (s2t "010")]
       [mkOperacion (dia 5) (s2t "Ana Gomez") 300])
    0%nat _ eq_refl eq_refl) as [H _].
  split; [|vm_compute; reflexivity].
  unfold facturas_sin_match. rewrite filter_cons_True; [done|].
  apply list_elem_of_filter in H as [H _]. exact H.
Defined.

(** ** More on the name normalizer and the token resolver *)

(** X16: every token that the normalizer returns is a non-empty word over
    the capital letters A-Z and the digits 0-9, whatever the input: no accent,
    lower-case letter, punctuation or whitespace is left in a token. *)
Theorem normalize_tokens_alphabet (text : pyobj) (t : pystr)
    (H : t ∈ _normalize_to_token_set text) :
  t ≠ [] ∧ Forall (λ c, is_AZ09 c = true) t.
Proof. by apply (normalize_elem_es_token text). Qed.

Lemma normalize_tokens_alphabet_witness :
  Forall (λ c, is_AZ09 c = true) (s2t "NANDU").
Proof.
  refine (proj2 (normalize_tokens_alphabet
                   (PyStr ([209%N] ++ s2t "and" ++ [250%N] ++ s2t ", Jos"
                             ++ [233%N]))
                   (s2t "NANDU") _)).
  rewrite normalize_str. apply elem_of_list_to_set.
  apply list_elem_of_In. vm_compute. left. reflexivity.
Defined.












(** ** The exceptions of pass 4 *)

Lemma upper_cp_space c : forallb is_space (py_upper_cp c) = is_space c.
Proof.
  destruct (N.lt_ge_cases c 1024) as [Hlt|Hge].
  - apply eqb_prop. apply (chars_bajos_spec check_upper_space); [|done].
    vm_compute. reflexivity.
  - destruct (char_grande c Hge) as (-> & _). simpl. apply andb_true_r.
Qed.

Lemma upper_espacios n : forallb is_space (upper n) = forallb is_space n.
Proof.
  unfold upper. induction n as [|c n IH]; [done|].
  cbn [flat_map forallb]. by rewrite forallb_app, upper_cp_space, IH.
Qed.

Lemma split_strip s : split (strip s) = split s.
Proof.
  destruct (strip_spec s) as (ws1 & ws2 & H1 & H2 & E).
  rewrite E at 2. rewrite split_app_l by done. by rewrite split_app_r.
Qed.

Lemma last_tokens_nil (l : list pystr) :
  Forall (λ tok, tok ≠ [] ∧ sin_espacios tok) l → List.last l [] = [] → l = [].
Proof.
  induction 1 as [|t l [Ht _] _ IH]; [done|].
  destruct l as [|u l]; [done|]. intros H.
  change (List.last (u :: l) [] = []) in H. by apply IH in H.
Qed.

Lemma extraer_apellido_nil n :
  extraer_apellido n = [] ↔ forallb is_space n = true.
Proof.
  unfold extraer_apellido. rewrite split_strip, <- upper_espacios.
  rewrite <- split_nil_iff. split.
  - apply last_tokens_nil, split_tokens.
  - by intros ->.
Qed.

Lemma candidatos_p4_cases fam vv banco :
  (candidatos_p4 fam vv banco = Raise AttributeError
   ∧ sin_familia fam banco = true ∧ forallb is_space (b_Nombre banco) = true)
  ∨ (∃ cs, candidatos_p4 fam vv banco = Ok cs
           ∧ (length cs ≤ length vv)%nat
           ∧ (sin_familia fam banco = false
              ∨ forallb is_space (b_Nombre banco) = false)).
Proof.
  unfold candidatos_p4, sin_familia.
  assert (∀ P : VentaValida → Prop, ∀ (HP : ∀ x, Decision (P x)),
            length (filter P (filter (λ xu : VentaValida * bool, negb xu.2) vv).*1)
            ≤ length vv)%nat as Hlen.
  { intros P HP. etrans; [apply length_filter|].
    rewrite length_fmap. apply length_filter. }
  destruct (familia_resuelta _) eqn:Hres.
  - right. eexists. split; [done|]. split; [apply Hlen|by left].
  - destruct (pystr_eqb _ []) eqn:Hcl.
    + left. split; [done|]. split; [done|].
      apply extraer_apellido_nil. unfold pystr_eqb in Hcl.
      by apply bool_decide_eq_true in Hcl.
    + right. eexists. split; [done|]. split; [apply Hlen|]. right.
      unfold pystr_eqb in Hcl. apply bool_decide_eq_false in Hcl.
      destruct (forallb is_space (b_Nombre banco)) eqn:E; [|done].
      by apply extraer_apellido_nil in E.
Qed.

Lemma marcar_usadas_exn idxs vv e : marcar_usadas idxs vv = Raise e → e = KeyError.
Proof. unfold marcar_usadas. destruct (forallb _ idxs); [done|]. by intros [= <-]. Qed.

Lemma paso_banco_p4_attribute fam st banco :
  paso_banco_p4 fam st banco = Raise AttributeError
  ↔ in_ops (clave_banco_p4 banco) (e4_matched_ops st) = false
    ∧ sin_familia fam banco = true
    ∧ forallb is_space (b_Nombre banco) = true.
Proof.
  unfold paso_banco_p4.
  destruct (in_ops _ _); [split; [done|by intros [? _]]|].
  destruct (candidatos_p4_cases fam (e4_ventas_validas st) banco)
    as [(-> & Hs & Hb)|(cs & -> & _ & Hno)].
  - done.
  - cbn [mbind result_bind]. split.
    + destruct (length cs <? 2)%nat; [done|].
      destruct (buscar_combinacion _ _) as [idxs|]; [|done].
      destruct (marcar_usadas _ _) as [vv'|e] eqn:Hm; [done|].
      apply marcar_usadas_exn in Hm as ->. done.
    + intros (_ & Hs & Hb). destruct Hno; congruence.
Qed.

(** X19: one iteration of pass 4 ends in AttributeError (the
    [.str.upper().strip()] of line 820) exactly when the operation is not yet
    consumed, its payer name resolves to no household, and the name has no
    character other than whitespace, so that no surname can be taken from
    it; an operation with the empty text for a name always does, once it is
    reached. *)
Theorem paso_banco_p4_attribute_error (fam : FamiliasDF) (st : estado_p4)
    (banco : Operacion) :
  (paso_banco_p4 fam st banco = Raise AttributeError
   ↔ in_ops (clave_banco_p4 banco) (e4_matched_ops st) = false
     ∧ sin_familia fam banco = true
     ∧ forallb is_space (b_Nombre banco) = true)
  ∧ (b_Nombre banco = [] →
     in_ops (clave_banco_p4 banco) (e4_matched_ops st) = false →
     paso_banco_p4 fam st banco = Raise AttributeError).
Proof.
  split; [apply paso_banco_p4_attribute|].
  intros Hn Hin. apply paso_banco_p4_attribute. split; [done|].
  unfold sin_familia. by rewrite Hn.
Qed.












Lemma familia_banco_primero_key_error :
  matcheo_multifacturas_misma_familia_mismo_dia_caja familias_ejemplo
    [mkVenta None (Some (s2t "ANA GOMEZ")) 1 (s2t "Z") (s2t "010");
     venta_300; venta_400]
    [mkOperacion (dia 5) (s2t "Ana Gomez") 700] []
  = Raise KeyError.
Proof. vm_compute. reflexivity. Qed.

(** ** The substring resolver *)

Lemma lstrip_espacios ws : forallb is_space ws = true → lstrip ws = [].
Proof.
  induction ws as [|w ws IH]; simpl; [done|]. intros H.
  apply andb_true_iff in H as [-> H]. by apply IH.
Qed.

Lemma strip_espacios ws : forallb is_space ws = true → strip ws = [].
Proof. intros H. unfold strip. by rewrite lstrip_espacios. Qed.

Lemma startswith_iff (p s : pystr) :
  startswith p s = true ↔ ∃ r, s = p ++ r.
Proof.
  revert s. induction p as [|a p IH]; intros s; simpl.
  - split; [by exists s|done].
  - destruct s as [|b s]; [split; [done|by intros [? ?]]|].
    rewrite andb_true_iff, N.eqb_eq, IH. split.
    + intros [-> [r ->]]. by exists r.
    + intros [r [= -> ->]]. split; [done|by exists r].
Qed.

Lemma contains_iff (p s : pystr) :
  contains p s = true ↔ ∃ l r, s = l ++ p ++ r.
Proof.
  induction s as [|c s IH]; cbn [contains]; rewrite orb_true_iff, startswith_iff.
  - split.
    + intros [[r E]|?]; [|done]. by exists [], r.
    + intros (l & r & E). left. exists r.
      destruct l; [done|discriminate E].
  - rewrite IH. split.
    + intros [[r E]|(l & r & ->)]; [by exists [], r|]. by exists (c :: l), r.
    + intros ([|d l] & r & E); [left; by exists r|].
      right. injection E as _ ->. by exists l, r.
Qed.

Lemma contains_trans (a b c : pystr) :
  contains a b = true → contains b c = true → contains a c = true.
Proof.
  rewrite !contains_iff. intros (l1 & r1 & ->) (l2 & r2 & ->).
  exists (l2 ++ l1), (r1 ++ r2). by rewrite <- !app_assoc.
Qed.

Lemma existsb_impl {A} (f g : A → bool) (l : list A) :
  (∀ x, f x = true → g x = true) → existsb f l = true → existsb g l = true.
Proof.
  intros H. induction l as [|a l IH]; simpl; [done|].
  rewrite !orb_true_iff. intros [Ha|Hl]; [left; by apply H|right; by apply IH].
Qed.

Lemma contains_nil (s : pystr) : contains [] s = true.
Proof. by destruct s. Qed.

Lemma fila_contiene_blanco fam nombre row :
  forallb is_space nombre = true →
  fila_contiene fam nombre row = tiene_celda_Persona fam row.
Proof.
  intros H. unfold fila_contiene, tiene_celda_Persona.
  rewrite (strip_espacios _ H).
  induction (columnas_Persona_ fam) as [|col cols IH]; [done|].
  cbn [existsb]. rewrite IH. f_equal.
  destruct (loc _ _ col); [|done]. apply contains_nil.
Qed.

Lemma fila_contiene_subcadena fam n1 n2 row :
  contains (upper (strip n1)) (upper (strip n2)) = true →
  fila_contiene fam n2 row = true → fila_contiene fam n1 row = true.
Proof.
  intros Hsub. unfold fila_contiene. apply existsb_impl. intros col.
  destruct (loc _ _ col) as [x|]; [|done]. by apply contains_trans.
Qed.

Lemma find_earlier {A} (f : A → bool) (l : list A) (i : nat) (x : A) :
  l !! i = Some x → f x = true →
  ∃ j y, (j ≤ i)%nat ∧ l !! j = Some y ∧ f y = true ∧ List.find f l = Some y.
Proof.
  revert i. induction l as [|a l IH]; intros i Hi Hx; [done|].
  simpl. destruct (f a) eqn:Ha.
  - exists 0%nat, a. split; [lia|done].
  - destruct i as [|i]; simpl in Hi; [congruence|].
    destruct (IH i Hi Hx) as (j & y & Hj & Hy & Hfy & Hfind).
    exists (S j), y. split; [lia|done].
Qed.

(** X21: the substring resolver of pass 3 accepts more than a name.  A name
    that is not empty but holds only whitespace is contained in every text,
    so it resolves to the first household that has any cell under a
    'Persona_' column; and when the upper-cased, stripped form of one name is
    contained in that of another, the first name resolves whenever the
    second does, to the same household or to one earlier in the registry. *)
Theorem validar_pertenencia_subcadenas (fam : FamiliasDF) (n1 : pystr)
    (Hne : n1 ≠ []) :
  (forallb is_space n1 = true →
     _validar_pertenencia_familia fam (Some n1)
     = f_Codigo <$> List.find (tiene_celda_Persona fam) (df_filas fam))
  ∧ (∀ n2 i row,
       contains (upper (strip n1)) (upper (strip n2)) = true →
       df_filas fam !! i = Some row → fila_contiene fam n2 row = true →
       ∃ j row', (j ≤ i)%nat ∧ df_filas fam !! j = Some row'
                 ∧ fila_contiene fam n1 row' = true
                 ∧ _validar_pertenencia_familia fam (Some n1)
                   = Some (f_Codigo row')).
Proof.
  assert (_validar_pertenencia_familia fam (Some n1)
          = f_Codigo <$> List.find (fila_contiene fam n1) (df_filas fam))
    as Hval.
  { unfold _validar_pertenencia_familia.
    destruct n1 as [|c n1]; [done|]. by destruct (List.find _ _). }
  split.
  - intros Hb. rewrite Hval. clear Hval. f_equal.
    induction (df_filas fam) as [|row rows IH]; [done|]. simpl.
    rewrite fila_contiene_blanco by done.
    destruct (tiene_celda_Persona fam row); [done|]. apply IH.
  - intros n2 i row Hsub Hi Hrow.
    pose proof (fila_contiene_subcadena fam n1 n2 row Hsub Hrow) as H1.
    destruct (find_earlier _ _ i row Hi H1) as (j & row' & Hj & Hr & Hf & Hfind).
    exists j, row'. split; [done|]. split; [done|]. split; [done|].
    by rewrite Hval, Hfind.
Qed.

Lemma validar_pertenencia_subcadenas_witness :
  _validar_pertenencia_familia familias_ejemplo (Some (s2t " ")) = Some (s2t "F1")
  ∧ ∃ j row',
      (j ≤ 1)%nat
      ∧ df_filas (mkFamiliasDF [s2t "Persona_1"]
                    [mkFamilia (s2t "F0") [Some (s2t "Juana Ruiz")];
                     mkFamilia (s2t "F2") [Some (s2t "Ana Gomez")]]) !! j
        = Some row'
      ∧ fila_contiene (mkFamiliasDF [s2t "Persona_1"]
                         [mkFamilia (s2t "F0") [Some (s2t "Juana Ruiz")];
                          mkFamilia (s2t "F2") [Some (s2t "Ana Gomez")]])
                      (s2t "ana") row' = true
      ∧ _validar_pertenencia_familia
          (mkFamiliasDF [s2t "Persona_1"]
             [mkFamilia (s2t "F0") [Some (s2t "Juana Ruiz")];
              mkFamilia (s2t "F2") [Some (s2t "Ana Gomez")]])
          (Some (s2t "ana")) = Some (f_Codigo row').
Proof.
  split.
  - rewrite (proj1 (validar_pertenencia_subcadenas familias_ejemplo (s2t " ")
                      ltac:(done)) eq_refl).
    vm_compute. reflexivity.
  - apply (proj2 (validar_pertenencia_subcadenas
                    (mkFamiliasDF [s2t "Persona_1"]
                       [mkFamilia (s2t "F0") [Some (s2t "Juana Ruiz")];
                        mkFamilia (s2t "F2") [Some (s2t "Ana Gomez")]])
                    (s2t "ana") ltac:(done))
                 (s2t "Ana Gomez") 1%nat (mkFamilia (s2t "F2") [Some (s2t "Ana Gomez")]));
      vm_compute; reflexivity.
Defined.

(** ** The identity key and the spelling of the payer name *)

Lemma lstrip_app_espacios ws t :
  forallb is_space ws = true → lstrip (ws ++ t) = lstrip t.
Proof.
  induction ws as [|w ws IH]; simpl; [done|]. intros H.
  apply andb_true_iff in H as [-> H]. by apply IH.
Qed.

Lemma rstrip_app_espacios t ws :
  forallb is_space ws = true → rstrip (t ++ ws) = rstrip t.
Proof.
  intros H. unfold rstrip. rewrite rev_app_distr.
  rewrite lstrip_app_espacios; [done|]. by rewrite forallb_rev.
Qed.

Lemma strip_app_r t ws :
  forallb is_space ws = true → strip (t ++ ws) = strip t.
Proof.
  intros H. unfold strip. induction t as [|c t IH].
  - simpl. by rewrite lstrip_espacios.
  - cbn [app lstrip]. destruct (is_space c); [done|].
    change (c :: t ++ ws) with ((c :: t) ++ ws). by apply rstrip_app_espacios.
Qed.

Lemma strip_entre_espacios ws1 t ws2 :
  forallb is_space ws1 = true → forallb is_space ws2 = true →
  strip (ws1 ++ t ++ ws2) = strip t.
Proof.
  intros H1 H2. rewrite <- (strip_app_r t ws2 H2). unfold strip.
  by rewrite lstrip_app_espacios.
Qed.

(** X22: the identity key of passes 2 and 4 does not see letter case, nor
    whitespace around the payer name: two operations with one date and one
    amount whose names differ only so have the same key, and a consumed set
    that holds one holds the other. *)
Theorem clave_banco_insensible (b : Operacion) (ws1 ws2 n' : pystr)
    (ops : list op_key)
    (H1 : forallb is_space ws1 = true) (H2 : forallb is_space ws2 = true)
    (Hn : upper n' = upper (b_Nombre b)) :
  clave_banco (mkOperacion (b_Fecha b) (ws1 ++ n' ++ ws2) (b_Monto b))
  = clave_banco b
  ∧ in_ops (clave_banco (mkOperacion (b_Fecha b) (ws1 ++ n' ++ ws2) (b_Monto b)))
           ops
    = in_ops (clave_banco b) ops.
Proof.
  assert (clave_banco (mkOperacion (b_Fecha b) (ws1 ++ n' ++ ws2) (b_Monto b))
          = clave_banco b) as E; [|by rewrite E].
  unfold clave_banco. cbn [b_Fecha b_Nombre b_Monto]. do 2 f_equal.
  unfold upper in *. rewrite !flat_map_app, Hn.
  apply strip_entre_espacios; by rewrite (upper_espacios _).
Qed.

Lemma clave_banco_insensible_witness :
  clave_banco (mkOperacion (dia 5) (s2t "  ana g" ++ [243%N] ++ s2t "mez ") 300)
  = clave_banco (mkOperacion (dia 5) (s2t "ANA G" ++ [211%N] ++ s2t "MEZ") 300).
Proof.
  apply (proj1 (clave_banco_insensible
                  (mkOperacion (dia 5) (s2t "ANA G" ++ [211%N] ++ s2t "MEZ") 300)
                  (s2t "  ") (s2t " ") (s2t "ana g" ++ [243%N] ++ s2t "mez") []
                  eq_refl eq_refl ltac:(vm_compute; reflexivity))).
Defined.

(** ** The size of the search of pass 4 *)

Lemma combos_acotados (n : nat) :
  (n ≤ 15)%nat → Z.of_nat (length (combos n)) ≤ MAX_COMBINACIONES.
Proof.
  intros Hn.
  assert (forallb (λ n, Z.of_nat (length (combos n)) <=? MAX_COMBINACIONES)
                  (seq 0 16) = true) as H by (vm_compute; reflexivity).
  rewrite forallb_forall in H. apply Z.leb_le, H, in_seq. lia.
Qed.

(** X23: for one bank operation pass 4 never tries more than 22803
    combinations (the subsets of 2 to 8 of 15 candidates), however many
    invoices the family has: the pool is cut to 15 rows and every combination
    tried has 2 to 8 positions of it. *)
Theorem busqueda_acotada (fecha_b : option Z) (candidatos : list VentaValida) :
  (length (candidatos_restringidos fecha_b candidatos) ≤ 15)%nat
  ∧ Z.of_nat (length (combos (length (candidatos_restringidos fecha_b candidatos))))
    ≤ MAX_COMBINACIONES
  ∧ Z.of_nat (length (combos 15)) = MAX_COMBINACIONES
  ∧ ∀ c, c ∈ combos (length (candidatos_restringidos fecha_b candidatos)) →
         (2 ≤ length c ≤ 8)%nat.
Proof.
  assert (length (candidatos_restringidos fecha_b candidatos) ≤ 15)%nat as H.
  { unfold candidatos_restringidos. rewrite length_take. unfold MAX_CANDIDATOS. lia. }
  split; [done|]. split; [by apply combos_acotados|].
  split; [vm_compute; reflexivity|].
  intros c Hc. apply combos_spec in Hc as [Hl _]. lia.
Qed.

(** ** What the records of passes 3 and 4 link *)

Lemma paso_op_p3_enlace fam ventas_df ops nuevos op :
  paso_op_p3 fam ventas_df (ops, nuevos) op = (ops, nuevos)
  ∨ ∃ r, paso_op_p3 fam ventas_df (ops, nuevos) op
         = (clave_texto_banco op :: ops, nuevos ++ [r])
         ∧ ∀ banco_df, op ∈ banco_df →
             enlace_grupo_familiar fam ventas_df banco_df r.
Proof.
  unfold paso_op_p3.
  destruct (in_ops (clave_texto_banco op) ops); [by left|].
  destruct (negb (truthy _)); [by left|].
  destruct (List.find _ ventas_df) as [factura|] eqn:Hfind; [|by left].
  right. eexists. split; [done|]. intros banco_df Hop.
  apply find_some_first in Hfind as (i & Hi & Hc & _).
  apply factura_coincide_p3_iff in Hc.
  split; [done|]. exists op, factura. split_and!; try done.
  by eapply list_elem_of_lookup_2.
Qed.

Lemma grupo_familiar_fold_enlace fam ventas_df banco_df l ops nuevos ops' nuevos' :
  (∀ op, op ∈ l → op ∈ banco_df) →
  Forall (enlace_grupo_familiar fam ventas_df banco_df) nuevos →
  fold_left (paso_op_p3 fam ventas_df) l (ops, nuevos) = (ops', nuevos') →
  Forall (enlace_grupo_familiar fam ventas_df banco_df) nuevos'.
Proof.
  revert ops nuevos. induction l as [|op l IH]; intros ops nuevos Hl HF;
    cbn [fold_left].
  - by intros [= <- <-].
  - destruct (paso_op_p3_enlace fam ventas_df ops nuevos op) as [->|(r & -> & Hr)].
    + apply IH; [|done]. intros op' Hop'. apply Hl. by right.
    + apply IH.
      * intros op' Hop'. apply Hl. by right.
      * apply Forall_app. split; [done|]. constructor; [|done].
        apply Hr, Hl. by left.
Qed.

Lemma grupo_familiar_enlaces fam ventas_df banco_df resultados :
  ∃ nuevos,
    matcheo_por_grupo_familiar fam ventas_df banco_df resultados
    = resultados ++ nuevos
    ∧ Forall (enlace_grupo_familiar fam ventas_df banco_df) nuevos.
Proof.
  unfold matcheo_por_grupo_familiar.
  destruct (fold_left _ _ _) as [ops' nuevos'] eqn:Hfold. exists nuevos'.
  split; [done|].
  by eapply (grupo_familiar_fold_enlace _ _ banco_df) in Hfold.
Qed.

(** X24: every record that pass 3 adds is tagged 'Grupo Familiar' and links
    an operation of [banco_df] to an invoice of [ventas_df] that qualifies
    for it: payer and client resolve, by substring, to one household code
    that is not empty, the amounts differ by less than 0.01, and the
    timestamps differ, rounded down to whole days, by at most one day. *)
Theorem grupo_familiar_enlaza (fam : FamiliasDF) (ventas_df : list Venta)
    (banco_df : list Operacion) (resultados : list Match) :
  ∃ nuevos,
    matcheo_por_grupo_familiar fam ventas_df banco_df resultados
    = resultados ++ nuevos
    ∧ Forall (enlace_grupo_familiar fam ventas_df banco_df) nuevos.
Proof. apply grupo_familiar_enlaces. Qed.











